(** * Transaction core of the sales bot: payments, product sale flags,
      loyalty points and fraud scoring.

    The JavaScript services are embedded as Rocq functions over an explicit
    [World] (the keyed stores the services read and write).  Every clock
    reading ([new Date()], [Date.now()]) is the explicit argument [now], in
    milliseconds; one call reads the clock once.  Point amounts are integers
    ([DataTypes.INTEGER] in the relational model), so [Z] is used for them.
    A row is addressed by its primary key: the key of a store is the [id]
    of the row ([userId] for a loyalty account), and an in-memory model
    object is the pair of that key and the row.
    In the loyalty, product and payment services the reads and writes of
    the stores ([findByPk], [findOne], [save], [create]) are taken to
    succeed; the risk engine, whose answer on a failure is part of its
    contract, is given readers that may throw.  The write-only collaborators
    ([logger], [auditLogger]) and the read-through list caches of products
    and pending payments are not part of the modelled state. *)

From Stdlib Require Import Ascii String ZArith QArith Lia Sorted.
From stdpp Require Import base option list gmap strings pretty.

Local Open Scope string_scope.
Local Open Scope list_scope.
Local Open Scope Z_scope.

(** ** Configuration ([config.marketing.loyaltyPoints]) *)

Module Config.
Definition conversionRate : Q := (1 # 100)%Q.
Definition expirationDays : Z := 90.
End Config.

Definition msPerDay : Z := 24 * 60 * 60 * 1000.

(** ** Data model *)

Module User.
Record Profile := {
  username : string;
  createdAt : Z;
  email : option string;
  isBlocked : bool;
  blockReason : option string
}.
End User.

Module Activity.
(** An entry written by [recordActivity]: the action and the fields of its
    [data] object that the payment service fills in. *)
Record t := {
  userId : string;
  action : string;
  createdAt : Z;
  productId : option string;
  productName : option string;
  paymentId : option string;
  amount : option Q;
  reason : option string
}.
End Activity.

Module Loyalty.
Inductive TxStatus := ACTIVE | USED | EXPIRED.

Record Transaction := {
  id : string;
  amount : Z;
  reason : string;
  createdAt : Z;
  expiresAt : Z;
  status : TxStatus;
  relatedProductId : option string;
  relatedPaymentId : option string;
  actionBy : option string
}.

(** [transactions] is [None] for a null column; [_expiredPoints] is the
    marker [_processExpiredPoints] leaves on the in-memory object. *)
Record Account := {
  userName : string;
  totalPoints : Z;
  lifetimePoints : Z;
  level : Z;
  transactions : option (list Transaction);
  lastUpdated : Z;
  _expiredPoints : option Z
}.

Record Metadata := {
  productId : option string;
  paymentId : option string;
  adminId : option string
}.

Definition noMetadata : Metadata :=
  {| productId := None; paymentId := None; adminId := None |}.
End Loyalty.

#[global] Instance TxStatus_eq_dec : EqDecision Loyalty.TxStatus.
Proof. solve_decision. Defined.

Module TxView.
Record t := {
  id : string;
  amount : Z;
  reason : string;
  date : Z;
  expiresAt : Z;
  status : Loyalty.TxStatus
}.
End TxView.

Module PointsView.
Record t := {
  amount : Z;
  lifetimePoints : Z;
  level : Z;
  transactions : list TxView.t;
  valueInMoney : Q
}.
End PointsView.

Module Product.
Record t := {
  nome : string;
  preco : Q;
  descricao : string;
  detalhes : string;
  imagens : list string;
  disponivel : bool;
  vendido : bool;
  dataVenda : option Z;
  compradoPor : option string;
  updatedAt : option Z
}.

(** The fields [updateProduct] accepts; [None] is [undefined]. *)
Record Update := {
  u_nome : option string;
  u_preco : option Q;
  u_descricao : option string;
  u_detalhes : option string;
  u_disponivel : option bool;
  u_imagens : option (list string)
}.
End Product.

Module Payment.
(** The statuses of the payment schema together with [REJECTED], which the
    service writes. *)
Inductive Status :=
| PENDING | PROCESSING | COMPLETED | REJECTED
| FAILED | REFUNDED | CANCELLED | EXPIRED.

Record Credentials := { login : string; password : string }.

Record t := {
  userId : string;
  userName : string;
  productId : string;
  productName : string;
  amount : Q;
  method : string;
  status : Status;
  pixCode : option string;
  qrCodeUrl : option string;
  createdAt : Z;
  expiresAt : Z;
  completedAt : option Z;
  approvedBy : option string;
  rejectedAt : option Z;
  rejectionReason : option string;
  rejectedBy : option string;
  deliveryData : option Credentials;
  ipAddress : option string;
  userAgent : option string
}.

Record Data := {
  d_userId : string;
  d_userName : string;
  d_productId : string;
  d_productName : string;
  d_amount : Q;
  d_ipAddress : option string;
  d_userAgent : option string
}.
End Payment.

#[global] Instance PaymentStatus_eq_dec : EqDecision Payment.Status.
Proof. solve_decision. Defined.

(** ** The stores *)

Record World := {
  payments : gmap string Payment.t;
  products : gmap string Product.t;
  loyalties : gmap string Loyalty.Account;
  users : gmap string User.Profile;
  activities : list Activity.t
}.

Definition saveLoyalty (uid : string) (l : Loyalty.Account) (w : World)
  : World :=
  {| payments := payments w;
     products := products w;
     loyalties := <[uid := l]> (loyalties w);
     users := users w;
     activities := activities w |}.

Definition savePayment (paymentId : string) (p : Payment.t) (w : World)
  : World :=
  {| payments := <[paymentId := p]> (payments w);
     products := products w;
     loyalties := loyalties w;
     users := users w;
     activities := activities w |}.

Definition saveProduct (productId : string) (p : Product.t) (w : World)
  : World :=
  {| payments := payments w;
     products := <[productId := p]> (products w);
     loyalties := loyalties w;
     users := users w;
     activities := activities w |}.

(** [userService.recordActivity]: a profile is created for an unknown user
    and the entry is appended to the history (the trimming of a history to
    its last 100 entries and the [lastActive] stamp are left out). *)
Definition recordActivity (a : Activity.t) (w : World) : World :=
  {| payments := payments w;
     products := products w;
     loyalties := loyalties w;
     users :=
       match users w !! Activity.userId a with
       | Some _ => users w
       | None =>
           <[Activity.userId a :=
               {| User.username := Activity.userId a;
                  User.createdAt := Activity.createdAt a;
                  User.email := None; User.isBlocked := false;
                  User.blockReason := None |}]> (users w)
       end;
     activities := activities w ++ [a] |}.

(** ** Loyalty points ([addPoints], [usePoints], [getUserPoints]) *)

Module LoyaltyService.
Import Loyalty.

Inductive AddResult :=
| AddOk (updatedPoints level : Z)
| AddFail (message : string).

Inductive UseResult :=
| UseOk (remainingPoints level : Z)
| UseFail (message : string)
| UseInsufficient (message : string) (currentPoints requestedPoints : Z).

Definition _calculateLoyaltyLevel (lifetimePoints : Z) : Z :=
  if 10000 <=? lifetimePoints then 5
  else if 5000 <=? lifetimePoints then 4
  else if 2000 <=? lifetimePoints then 3
  else if 500 <=? lifetimePoints then 2
  else 1.

Definition txList (l : Account) : list Transaction :=
  match transactions l with Some txs => txs | None => [] end.

(** The test of the sweep loop:
    [tx.status === 'ACTIVE' && new Date(tx.expiresAt) <= now]. *)
Definition isExpiring (now : Z) (tx : Transaction) : bool :=
  bool_decide (status tx = ACTIVE) && (expiresAt tx <=? now).

Definition markExpired (tx : Transaction) : Transaction :=
  {| id := id tx; amount := amount tx; reason := reason tx;
     createdAt := createdAt tx; expiresAt := expiresAt tx; status := EXPIRED;
     relatedProductId := relatedProductId tx;
     relatedPaymentId := relatedPaymentId tx; actionBy := actionBy tx |}.

(** One iteration of the loop over [updatedTransactions]: the pair is the
    part of the array already visited and [pointsExpired]. *)
Definition sweepStep (now : Z) (acc : list Transaction * Z) (tx : Transaction)
  : list Transaction * Z :=
  if isExpiring now tx
  then (acc.1 ++ [markExpired tx], acc.2 + amount tx)
  else (acc.1 ++ [tx], acc.2).

Definition sweep (now : Z) (txs : list Transaction) : list Transaction * Z :=
  fold_left (sweepStep now) txs ([], 0).

Definition expirationTx (now pointsExpired : Z) : Transaction :=
  {| id := pretty now; amount := - pointsExpired; reason := "EXPIRATION";
     createdAt := now; expiresAt := now + 365 * msPerDay; status := USED;
     relatedProductId := None; relatedPaymentId := None; actionBy := None |}.

Definition withMarker (l : Account) (m : option Z) : Account :=
  {| userName := userName l; totalPoints := totalPoints l;
     lifetimePoints := lifetimePoints l; level := level l;
     transactions := transactions l; lastUpdated := lastUpdated l;
     _expiredPoints := m |}.

(** [uid] is the key of the row [loyalty] was read from, the row its [save]
    writes.  Spreading a null [transactions] throws inside the [try]; the
    [catch] returns the account as it was. *)
Definition _processExpiredPoints (now : Z) (uid : string) (loyalty : Account)
    (w : World)
  : Account * World :=
  match transactions loyalty with
  | None => (loyalty, w)
  | Some txs =>
      let '(updatedTransactions, pointsExpired) := sweep now txs in
      if 0 <? pointsExpired then
        let l1 :=
          {| userName := userName loyalty;
             totalPoints := totalPoints loyalty - pointsExpired;
             lifetimePoints := lifetimePoints loyalty; level := level loyalty;
             transactions :=
               Some (updatedTransactions ++ [expirationTx now pointsExpired]);
             lastUpdated := now; _expiredPoints := _expiredPoints loyalty |} in
        (withMarker l1 (Some pointsExpired), saveLoyalty uid l1 w)
      else (loyalty, w)
  end.

Definition newAccount (profile : User.Profile) (now : Z) : Account :=
  {| userName := User.username profile; totalPoints := 0;
     lifetimePoints := 0; level := 1; transactions := Some [];
     lastUpdated := now; _expiredPoints := None |}.

(** [addPoints] with an object for [metadata] and stores that answer: the
    [catch] branch, reached when a call to the database or to the audit log
    throws or when [metadata] is null, is outside this model. *)
Definition addPoints (uid : string) (points : Z) (why : string)
    (metadata : Metadata) (now : Z) (w : World) : AddResult * World :=
  if points <=? 0
  then (AddFail "Quantidade de pontos deve ser maior que zero", w)
  else
    let found :=
      match loyalties w !! uid with
      | Some l => Some (l, w)
      | None =>
          match users w !! uid with
          | None => None
          | Some profile =>
              let l := newAccount profile now in Some (l, saveLoyalty uid l w)
          end
      end in
    match found with
    | None => (AddFail "Usuário não encontrado", w)
    | Some (loyalty, w1) =>
        let transaction :=
          {| id := pretty now; amount := points; reason := why;
             createdAt := now;
             expiresAt := now + Config.expirationDays * msPerDay;
             status := ACTIVE;
             relatedProductId := productId metadata;
             relatedPaymentId := paymentId metadata; actionBy := None |} in
        let updatedTransactions := txList loyalty ++ [transaction] in
        let updatedTotalPoints := totalPoints loyalty + points in
        let updatedLifetimePoints := lifetimePoints loyalty + points in
        let updatedLevel := _calculateLoyaltyLevel updatedLifetimePoints in
        let l' :=
          {| userName := userName loyalty;
             totalPoints := updatedTotalPoints;
             lifetimePoints := updatedLifetimePoints; level := updatedLevel;
             transactions := Some updatedTransactions; lastUpdated := now;
             _expiredPoints := _expiredPoints loyalty |} in
        (AddOk (totalPoints l') (level l'), saveLoyalty uid l' w1)
    end.

Definition usePoints (uid : string) (points : Z) (why : string)
    (metadata : Metadata) (now : Z) (w : World) : UseResult * World :=
  if points <=? 0
  then (UseFail "Quantidade de pontos deve ser maior que zero", w)
  else
    match loyalties w !! uid with
    | None => (UseFail "Usuário não possui pontos de fidelidade", w)
    | Some loyalty =>
        if totalPoints loyalty <? points
        then (UseInsufficient "Saldo de pontos insuficiente"
                (totalPoints loyalty) points, w)
        else
          let transaction :=
            {| id := pretty now; amount := - points; reason := why;
               createdAt := now; expiresAt := now + 365 * msPerDay;
               status := USED;
               relatedProductId := productId metadata;
               relatedPaymentId := paymentId metadata;
               actionBy := adminId metadata |} in
          let l' :=
            {| userName := userName loyalty;
               totalPoints := totalPoints loyalty - points;
               lifetimePoints := lifetimePoints loyalty; level := level loyalty;
               transactions := Some (txList loyalty ++ [transaction]);
               lastUpdated := now;
               _expiredPoints := _expiredPoints loyalty |} in
          (UseOk (totalPoints l') (level l'), saveLoyalty uid l' w)
    end.

(** [[...txs].sort((a, b) => new Date(b.createdAt) - new Date(a.createdAt))]:
    a stable sort, most recent first. *)
Fixpoint insertByDate (tx : Transaction) (sorted : list Transaction)
  : list Transaction :=
  match sorted with
  | [] => [tx]
  | y :: rest =>
      if createdAt tx <? createdAt y then y :: insertByDate tx rest
      else tx :: y :: rest
  end.

Definition sortByDateDesc (txs : list Transaction) : list Transaction :=
  foldr insertByDate [] txs.

Definition toView (tx : Transaction) : TxView.t :=
  {| TxView.id := id tx; TxView.amount := amount tx;
     TxView.reason := reason tx; TxView.date := createdAt tx;
     TxView.expiresAt := expiresAt tx; TxView.status := status tx |}.

Definition emptyView : PointsView.t :=
  {| PointsView.amount := 0; PointsView.lifetimePoints := 0;
     PointsView.level := 1; PointsView.transactions := [];
     PointsView.valueInMoney := 0%Q |}.

(** [valueInMoney] is computed in double precision by the source; the exact
    rational product stands for it here. *)
Definition getUserPoints (uid : string) (now : Z) (w : World)
  : PointsView.t * World :=
  match loyalties w !! uid with
  | None => (emptyView, w)
  | Some loyalty0 =>
      let '(loyalty, w1) := _processExpiredPoints now uid loyalty0 w in
      let valueInMoney :=
        (inject_Z (totalPoints loyalty) * Config.conversionRate)%Q in
      let txs :=
        match transactions loyalty with
        | Some l => toView <$> sortByDateDesc l
        | None => []
        end in
      ({| PointsView.amount := totalPoints loyalty;
          PointsView.lifetimePoints := lifetimePoints loyalty;
          PointsView.level := level loyalty;
          PointsView.transactions := txs;
          PointsView.valueInMoney := valueInMoney |}, w1)
  end.

(** A caller-visible step of the ledger, stamped with its clock reading. *)
Inductive Op :=
| Credit (uid : string) (points : Z) (why : string) (metadata : Metadata)
| Debit (uid : string) (points : Z) (why : string) (metadata : Metadata)
| Read (uid : string)
| Sweep (uid : string).

Definition step (now : Z) (op : Op) (w : World) : World :=
  match op with
  | Credit uid points why md => (addPoints uid points why md now w).2
  | Debit uid points why md => (usePoints uid points why md now w).2
  | Read uid => (getUserPoints uid now w).2
  | Sweep uid =>
      match loyalties w !! uid with
      | Some l => (_processExpiredPoints now uid l w).2
      | None => w
      end
  end.

Definition run (ops : list (Z * Op)) (w : World) : World :=
  fold_left (fun w' '(now, op) => step now op w') ops w.

Definition lifetimeOf (uid : string) (w : World) : Z :=
  match loyalties w !! uid with
  | Some l => lifetimePoints l
  | None => 0
  end.

End LoyaltyService.

(** ** Products ([updateProduct], [markProductAsSold]) *)

Module ProductService.
Import Product.

Inductive Result :=
| Done (product : option Product.t)
| Fail (message : string).

Definition orKeep {A} (new : option A) (old : A) : A :=
  match new with Some x => x | None => old end.

(** The loop over [allowedFields]: a field is overwritten when the update
    defines it. *)
Definition updateProduct (productId : string) (updateData : Update) (now : Z)
    (w : World) : Result * World :=
  match products w !! productId with
  | None => (Fail "Produto não encontrado", w)
  | Some produto =>
      let p' :=
        {| nome := orKeep (u_nome updateData) (nome produto);
           preco := orKeep (u_preco updateData) (preco produto);
           descricao := orKeep (u_descricao updateData) (descricao produto);
           detalhes := orKeep (u_detalhes updateData) (detalhes produto);
           imagens := orKeep (u_imagens updateData) (imagens produto);
           disponivel := orKeep (u_disponivel updateData) (disponivel produto);
           vendido := vendido produto;
           dataVenda := dataVenda produto;
           compradoPor := compradoPor produto;
           updatedAt := Some now |} in
      (Done (Some p'), saveProduct productId p' w)
  end.

Definition sell (produto : Product.t) (buyer : string) (now : Z) : Product.t :=
  {| nome := nome produto; preco := preco produto;
     descricao := descricao produto; detalhes := detalhes produto;
     imagens := imagens produto;
     disponivel := false; vendido := true;
     dataVenda := Some now; compradoPor := Some buyer;
     updatedAt := updatedAt produto |}.

Definition markProductAsSold (productId userId : string) (now : Z) (w : World)
  : Result * World :=
  match products w !! productId with
  | None => (Fail "Produto não encontrado", w)
  | Some produto =>
      if vendido produto
      then (Fail "Produto já foi vendido", w)
      else (Done None, saveProduct productId (sell produto userId now) w)
  end.

End ProductService.

(** ** Payments ([createPayment], [approvePayment], [rejectPayment]) *)

Module PaymentService.
Import Payment.

Inductive ApproveResult :=
| Approved (payment : Payment.t) (accountCredentials : Credentials)
| NotApproved (message : string) (payment : option Payment.t).

Inductive RejectResult :=
| Rejected (payment : Payment.t)
| NotRejected (message : string) (payment : option Payment.t).

Definition expirationTime : Z := 1800.

Section Create.
(** The PIX text and the QR address are rendered by helpers whose output is
    stored as it is; the identifier of the new row is chosen by the store. *)
Variable generatePixCode : string -> Payment.t -> string.
Variable generateQRCode : string -> string.

Definition createPayment (paymentData : Data) (newId : string) (now : Z)
    (w : World) : Payment.t * World :=
  let expires := now + expirationTime * 1000 in
  let newPayment :=
    {| userId := d_userId paymentData; userName := d_userName paymentData;
       productId := d_productId paymentData;
       productName := d_productName paymentData;
       amount := d_amount paymentData; method := "PIX"; status := PENDING;
       pixCode := None; qrCodeUrl := None;
       createdAt := now; expiresAt := expires;
       completedAt := None; approvedBy := None; rejectedAt := None;
       rejectionReason := None; rejectedBy := None; deliveryData := None;
       ipAddress := d_ipAddress paymentData;
       userAgent := d_userAgent paymentData |} in
  let code := generatePixCode newId newPayment in
  let p :=
    {| userId := userId newPayment; userName := userName newPayment;
       productId := productId newPayment;
       productName := productName newPayment;
       amount := amount newPayment; method := method newPayment;
       status := status newPayment;
       pixCode := Some code; qrCodeUrl := Some (generateQRCode code);
       createdAt := createdAt newPayment; expiresAt := expiresAt newPayment;
       completedAt := None; approvedBy := None; rejectedAt := None;
       rejectionReason := None; rejectedBy := None; deliveryData := None;
       ipAddress := ipAddress newPayment;
       userAgent := userAgent newPayment |} in
  (p, savePayment newId p w).
End Create.

Definition isOpen (s : Status) : bool :=
  bool_decide (s = PENDING) || bool_decide (s = PROCESSING).

Definition reject (p : Payment.t) (why : string) (by_ : option string)
    (now : Z) : Payment.t :=
  {| userId := userId p; userName := userName p; productId := productId p;
     productName := productName p; amount := amount p; method := method p;
     status := REJECTED;
     pixCode := pixCode p; qrCodeUrl := qrCodeUrl p;
     createdAt := createdAt p; expiresAt := expiresAt p;
     completedAt := completedAt p; approvedBy := approvedBy p;
     rejectedAt := Some now; rejectionReason := Some why;
     rejectedBy := match by_ with Some a => Some a | None => rejectedBy p end;
     deliveryData := deliveryData p;
     ipAddress := ipAddress p; userAgent := userAgent p |}.

Definition complete (p : Payment.t) (adminId : string)
    (accountCredentials : Credentials) (now : Z) : Payment.t :=
  {| userId := userId p; userName := userName p; productId := productId p;
     productName := productName p; amount := amount p; method := method p;
     status := COMPLETED;
     pixCode := pixCode p; qrCodeUrl := qrCodeUrl p;
     createdAt := createdAt p; expiresAt := expiresAt p;
     completedAt := Some now; approvedBy := Some adminId;
     rejectedAt := rejectedAt p; rejectionReason := rejectionReason p;
     rejectedBy := rejectedBy p;
     deliveryData := Some accountCredentials;
     ipAddress := ipAddress p; userAgent := userAgent p |}.

(** [accountCredentials] is the outcome of the random draw of
    [_generateAccountCredentials]. *)
Definition approvePayment (paymentId adminId : string)
    (accountCredentials : Credentials) (now : Z) (w : World)
  : ApproveResult * World :=
  match payments w !! paymentId with
  | None => (NotApproved "Pagamento não encontrado" None, w)
  | Some payment =>
      if negb (isOpen (status payment))
      then (NotApproved
              (String.append "Pagamento já foi "
                 (if bool_decide (status payment = COMPLETED)
                  then "aprovado" else "rejeitado/expirado"))
              (Some payment), w)
      else
        let unavailable :=
          let payment' := reject payment "Produto não disponível" None now in
          (NotApproved "Produto não disponível" (Some payment'),
           savePayment paymentId payment' w) in
        match products w !! productId payment with
        | None => unavailable
        | Some product =>
            if negb (Product.disponivel product) || Product.vendido product
            then unavailable
            else
              let payment' := complete payment adminId accountCredentials now in
              let w1 := savePayment paymentId payment' w in
              let w2 :=
                saveProduct (productId payment)
                  (ProductService.sell product (userId payment) now) w1 in
              let w3 :=
                recordActivity
                  {| Activity.userId := userId payment;
                     Activity.action := "PRODUCT_PURCHASE";
                     Activity.createdAt := now;
                     Activity.productId := Some (productId payment);
                     Activity.productName := Some (Product.nome product);
                     Activity.paymentId := Some paymentId;
                     Activity.amount := Some (amount payment);
                     Activity.reason := None |} w2 in
              (Approved payment' accountCredentials, w3)
        end
  end.

Definition rejectPayment (paymentId why adminId : string) (now : Z) (w : World)
  : RejectResult * World :=
  match payments w !! paymentId with
  | None => (NotRejected "Pagamento não encontrado" None, w)
  | Some payment =>
      if bool_decide (status payment = COMPLETED)
      then (NotRejected "Pagamento já foi aprovado e não pode ser rejeitado"
              (Some payment), w)
      else if bool_decide (status payment = REJECTED)
      then (NotRejected "Pagamento já foi rejeitado anteriormente"
              (Some payment), w)
      else
        let payment' := reject payment why (Some adminId) now in
        let w1 := savePayment paymentId payment' w in
        let w2 :=
          recordActivity
            {| Activity.userId := userId payment;
               Activity.action := "PAYMENT_REJECTED";
               Activity.createdAt := now;
               Activity.productId := Some (productId payment);
               Activity.productName := None;
               Activity.paymentId := Some paymentId;
               Activity.amount := None;
               Activity.reason := Some why |} w1 in
        (Rejected payment', w2)
  end.

Definition statusOf (paymentId : string) (w : World) : option Status :=
  status <$> payments w !! paymentId.

Definition terminal (s : Status) : bool :=
  bool_decide (s = COMPLETED) || bool_decide (s = REJECTED)
  || bool_decide (s = EXPIRED).

End PaymentService.

(** ** Fraud detection ([assessUserRisk], [checkTransaction]) *)

Module Fraud.

(** A call either returns or throws; [try]/[catch] is a match on it. *)
Inductive Outcome (A : Type) :=
| Returns (a : A)
| Throws (e : string).
Arguments Returns {A} a.
Arguments Throws {A} e.

Definition bind {A B} (c : Outcome A) (k : A -> Outcome B) : Outcome B :=
  match c with
  | Returns a => k a
  | Throws e => Throws e
  end.

Notation "'await' x ':=' c 'in' k" := (bind c (fun x => k))
  (at level 10, x name, c at level 100, k at level 200).

Definition threw {A} (c : Outcome A) : Prop :=
  match c with Returns _ => False | Throws _ => True end.

Inductive Risk := low | medium | high.

#[global] Instance Risk_eq_dec : EqDecision Risk.
Proof. solve_decision. Defined.

Record Assessment := {
  risk : Risk;
  score : Z;
  factors : list string;
  timestamp : Z
}.

Record Verdict := {
  approved : bool;
  v_score : Z;
  reasons : list string
}.

(** An entry of the activity history as the engine reads it: [action],
    [timestamp] ([None] for a missing or invalid date, on which every
    comparison is false) and [data.ipAddress]. *)
Record Action := {
  action : string;
  a_timestamp : option Z;
  a_ipAddress : option string
}.

Record Purchase := {
  p_productId : string;
  p_amount : Q;
  p_date : Z;
  p_method : string
}.

Record Transaction := {
  userId : string;
  productId : string;
  amount : Q;
  paymentMethod : string;
  ipAddress : option string
}.

(** The collaborators of the engine.  The profile and history readers
    rethrow store failures; a history may be null. *)
Record Env := {
  getUserProfile : string -> Outcome (option User.Profile);
  getUserHistory : string -> Z -> Outcome (option (list Action));
  getPurchaseHistory : string -> Outcome (list Purchase)
}.

(** The assessment cache: an entry lives until its expiry instant.  Reads
    and writes of the cache catch their own failures. *)
Definition Cache := gmap string (Assessment * Z).

Definition cacheGet (key : string) (now : Z) (c : Cache) : option Assessment :=
  match c !! key with
  | Some (a, expiry) => if now <? expiry then Some a else None
  | None => None
  end.

Definition cacheSet (key : string) (a : Assessment) (ttl now : Z) (c : Cache)
  : Cache :=
  <[key := (a, now + ttl * 1000)]> c.

Definition threshold_low : Z := 30.
Definition threshold_medium : Z := 60.
Definition threshold_high : Z := 80.
Definition cacheKey : string := "fraud:assessment:".
Definition cacheTTL : Z := 3600.

Definition suspiciousEmailDomains : list string :=
  ["tempmail.com"; "disposable.com"; "mailinator.com";
   "guerrillamail.com"; "yopmail.com"; "throwawaymail.com"].

(** A string in a condition: null, undefined and the empty string are
    falsy. *)
Definition truthy (s : option string) : option string :=
  match s with
  | Some "" => None
  | other => other
  end.

Fixpoint split (sep : ascii) (s : string) : list string :=
  match s with
  | EmptyString => [EmptyString]
  | String c rest =>
      let parts := split sep rest in
      if bool_decide (c = sep) then EmptyString :: parts
      else match parts with
           | h :: t => String c h :: t
           | [] => [String c EmptyString]
           end
  end.

(** [toLowerCase] on the letters A to Z; other bytes are kept. *)
Definition lowerChar (c : ascii) : ascii :=
  let n := nat_of_ascii c in
  if ((65 <=? n) && (n <=? 90))%nat then ascii_of_nat (n + 32) else c.

Fixpoint toLowerCase (s : string) : string :=
  match s with
  | EmptyString => EmptyString
  | String c rest => String (lowerChar c) (toLowerCase rest)
  end.

(** [email.split('@')[1].toLowerCase()]: without a second part the method
    call on [undefined] throws. *)
Definition emailDomain (mail : string) : Outcome string :=
  match split "@"%char mail !! 1%nat with
  | Some d => Returns (toLowerCase d)
  | None => Throws "TypeError"
  end.

Definition hasSuspiciousDomain (profile : User.Profile) : Outcome bool :=
  match truthy (User.email profile) with
  | None => Returns false
  | Some mail =>
      await d := emailDomain mail in
      Returns (bool_decide (d ∈ suspiciousEmailDomains))
  end.

Definition isAction (name : string) (a : Action) : bool :=
  bool_decide (action a = name).

Definition purchaseAttempts (h : list Action) : list Action :=
  filter (fun a => isAction "PAYMENT_INITIATED" a = true) h.

Definition successfulPurchases (h : list Action) : list Action :=
  filter (fun a => (isAction "PAYMENT_COMPLETED" a
                    || isAction "PRODUCT_PURCHASE" a) = true) h.

(** [(new Date() - new Date(a.timestamp)) < 1000 * 60 * 60]. *)
Definition withinLastHour (now : Z) (a : Action) : bool :=
  match a_timestamp a with
  | Some t => now - t <? 1000 * 60 * 60
  | None => false
  end.

Definition len {A} (l : list A) : Z := Z.of_nat (length l).

(** [attempts.length > 5 && successes.length / attempts.length < 0.3]: the
    quotient of two counts is below the double 0.3 exactly when ten times
    the successes are below three times the attempts (the counts of a
    history are far below the precision of a double). *)
Definition highFailureRate (h : list Action) : bool :=
  (5 <? len (purchaseAttempts h))
  && (10 * len (successfulPurchases h) <? 3 * len (purchaseAttempts h)).

Definition rapidAttempts (now : Z) (h : list Action) : bool :=
  3 <=? len (filter (fun a => withinLastHour now a = true)
               (purchaseAttempts h)).

Definition wasReported (h : list Action) : bool :=
  0 <? len (filter (fun a => isAction "REPORTED_BY_ADMIN" a = true) h).

(** The age of the account in days is compared with 1, 7 and 30; on the
    millisecond difference these are the same comparisons. *)
Definition accountAgeMs (profile : User.Profile) (now : Z) : Z :=
  now - User.createdAt profile.

Definition noHistory (userHistory : option (list Action)) : bool :=
  match userHistory with
  | None | Some [] => true
  | Some _ => false
  end.

Definition _calculateRiskScore (userProfile : User.Profile)
    (userHistory : option (list Action)) (now : Z) : Outcome Z :=
  let score := 0 in
  let age := accountAgeMs userProfile now in
  let score :=
    if age <? 1 * msPerDay then score + 30
    else if age <? 7 * msPerDay then score + 20
    else if age <? 30 * msPerDay then score + 10
    else score in
  await suspicious := hasSuspiciousDomain userProfile in
  let score := if suspicious then score + 25 else score in
  let score :=
    if noHistory userHistory then score + 15
    else
      let h := default [] userHistory in
      let score := if highFailureRate h then score + 15 else score in
      let score := if wasReported h then score + 40 else score in
      if rapidAttempts now h then score + 20 else score in
  let score := if User.isBlocked userProfile then score + 100 else score in
  Returns (Z.min score 100).

Definition _identifyRiskFactors (userProfile : User.Profile)
    (userHistory : option (list Action)) (riskScore : Z) (now : Z)
  : Outcome (list string) :=
  let age := accountAgeMs userProfile now in
  let f_age :=
    if age <? 1 * msPerDay then ["very_new_account"]
    else if age <? 7 * msPerDay then ["new_account"]
    else [] in
  await suspicious := hasSuspiciousDomain userProfile in
  let f_mail := if suspicious then ["suspicious_email_domain"] else [] in
  let f_block :=
    if User.isBlocked userProfile
    then ["account_blocked";
          default "unknown_block_reason"
            (truthy (User.blockReason userProfile))]
    else [] in
  let f_hist :=
    if noHistory userHistory then ["no_activity_history"]
    else
      let h := default [] userHistory in
      (if highFailureRate h then ["high_failure_rate"] else [])
      ++ (if rapidAttempts now h then ["rapid_purchase_attempts"] else [])
      ++ (if wasReported h then ["previously_reported"] else []) in
  Returns (f_age ++ f_mail ++ f_block ++ f_hist).

Definition riskLevel (riskScore : Z) : Risk :=
  if threshold_high <=? riskScore then high
  else if threshold_medium <=? riskScore then medium
  else low.

(** The body of the [try] of [assessUserRisk]. *)
Definition assessUserRisk_try (env : Env) (uid : string) (now : Z) (c : Cache)
  : Outcome (Assessment * Cache) :=
  let key := String.append cacheKey uid in
  match cacheGet key now c with
  | Some cachedAssessment => Returns (cachedAssessment, c)
  | None =>
      await userProfile := getUserProfile env uid in
      match userProfile with
      | None =>
          let assessment :=
            {| risk := medium; score := 50;
               factors := ["new_user"; "unknown_profile"];
               timestamp := now |} in
          Returns (assessment, cacheSet key assessment cacheTTL now c)
      | Some profile =>
          await userHistory := getUserHistory env uid 100 in
          await riskScore := _calculateRiskScore profile userHistory now in
          await riskFactors :=
            _identifyRiskFactors profile userHistory riskScore now in
          let assessment :=
            {| risk := riskLevel riskScore; score := riskScore;
               factors := riskFactors; timestamp := now |} in
          Returns (assessment, cacheSet key assessment cacheTTL now c)
      end
  end.

Definition assessmentError (now : Z) : Assessment :=
  {| risk := low; score := 0; factors := ["assessment_error"];
     timestamp := now |}.

Definition assessUserRisk (env : Env) (uid : string) (now : Z) (c : Cache)
  : Assessment * Cache :=
  match assessUserRisk_try env uid now c with
  | Returns r => r
  | Throws _ => (assessmentError now, c)
  end.

Definition Qltb (x y : Q) : bool := negb (Qle_bool y x).

Definition sumAmounts (h : list Purchase) : Q :=
  fold_left (fun sum purchase => (sum + p_amount purchase)%Q) h 0%Q.

(** The amounts are doubles in the source; exact rationals stand for them. *)
Definition muchHigherThanAverage (amt : Q) (h : list Purchase) : bool :=
  match h with
  | [] => false
  | _ =>
      let avgAmount := (sumAmounts h / inject_Z (len h))%Q in
      Qltb (avgAmount * 3)%Q amt
  end.

Definition repeatedPurchase (pid : string) (now : Z) (h : list Purchase)
  : bool :=
  0 <? len (filter (fun p => (bool_decide (p_productId p = pid)
                              && (now - p_date p <? 1000 * 60 * 60 * 24 * 7))
                             = true) h).

Definition unusualMethod (meth : string) (h : list Purchase) : bool :=
  negb (bool_decide (meth = "PIX")) && (0 <? len h)
  && forallb (fun p => bool_decide (p_method p = "PIX")) h.

Definition previousIPs (acts : list Action) : list string :=
  omap (fun a => truthy (a_ipAddress a)) acts.

(** The part of the [try] of [checkTransaction] after the user's
    assessment, which itself never throws. *)
Definition checkTransaction_try (env : Env) (transaction : Transaction)
    (now : Z) (userRisk : Assessment) : Outcome Verdict :=
  if bool_decide (risk userRisk = high)
  then Returns {| approved := false; v_score := score userRisk;
                  reasons := factors userRisk |}
  else
    await userHistory := getPurchaseHistory env (userId transaction) in
    let f_amount :=
      if muchHigherThanAverage (amount transaction) userHistory
      then ["amount_much_higher_than_average"] else [] in
    let f_repeat :=
      if repeatedPurchase (productId transaction) now userHistory
      then ["repeated_purchase"] else [] in
    let f_method :=
      if unusualMethod (paymentMethod transaction) userHistory
      then ["unusual_payment_method"] else [] in
    await f_ip :=
      match truthy (ipAddress transaction) with
      | None => Returns ([] : list string)
      | Some ip =>
          await userActivities := getUserHistory env (userId transaction) 50 in
          match userActivities with
          | None => Throws "TypeError"
          | Some acts =>
              let ips := previousIPs acts in
              Returns (if (0 <? len ips) && negb (bool_decide (ip ∈ ips))
                       then ["new_ip_address"] else [])
          end
      end in
    let transactionRiskFactors := f_amount ++ f_repeat ++ f_method ++ f_ip in
    let allFactors := factors userRisk ++ transactionRiskFactors in
    let finalScore := score userRisk + len transactionRiskFactors * 15 in
    Returns {| approved := finalScore <? threshold_high;
               v_score := finalScore; reasons := allFactors |}.

Definition verificationError : Verdict :=
  {| approved := true; v_score := 0; reasons := ["verification_error"] |}.

Definition checkTransaction (env : Env) (transaction : Transaction) (now : Z)
    (c : Cache) : Verdict * Cache :=
  let '(userRisk, c1) := assessUserRisk env (userId transaction) now c in
  match checkTransaction_try env transaction now userRisk with
  | Returns v => (v, c1)
  | Throws _ => (verificationError, c1)
  end.

(** The exported wrapper. *)
Definition verifyTransaction := checkTransaction.

End Fraud.

(** * Notions used in the statements *)

Module Notions.
Import Loyalty LoyaltyService.

(** What the sweep loop does to one entry, and what it adds up. *)
Definition sweepTx (now : Z) (tx : Transaction) : Transaction :=
  if isExpiring now tx then markExpired tx else tx.

Fixpoint expiredSum (now : Z) (txs : list Transaction) : Z :=
  match txs with
  | [] => 0
  | tx :: rest =>
      (if isExpiring now tx then amount tx else 0) + expiredSum now rest
  end.

(** The account a sweep writes when [txs] holds points that are due. *)
Definition sweptAccount (now : Z) (loyalty : Account) (txs : list Transaction)
  : Account :=
  {| userName := userName loyalty;
     totalPoints := totalPoints loyalty - expiredSum now txs;
     lifetimePoints := lifetimePoints loyalty; level := level loyalty;
     transactions :=
       Some ((sweepTx now <$> txs) ++ [expirationTx now (expiredSum now txs)]);
     lastUpdated := now; _expiredPoints := _expiredPoints loyalty |}.

(** The tier table as the specification words it. *)
Definition tierSpec (lifetimePoints : Z) : Z :=
  if decide (lifetimePoints >= 10000) then 5
  else if decide (lifetimePoints >= 5000) then 4
  else if decide (lifetimePoints >= 2000) then 3
  else if decide (lifetimePoints >= 500) then 2
  else 1.

(** The view [getUserPoints] renders of an account. *)
Definition viewOf (loyalty : Account) : PointsView.t :=
  {| PointsView.amount := totalPoints loyalty;
     PointsView.lifetimePoints := lifetimePoints loyalty;
     PointsView.level := level loyalty;
     PointsView.transactions :=
       match transactions loyalty with
       | Some l => toView <$> sortByDateDesc l
       | None => []
       end;
     PointsView.valueInMoney :=
       (inject_Z (totalPoints loyalty) * Config.conversionRate)%Q |}.

(** The statuses of the stored entries of a user, oldest first. *)
Definition statusesOf (uid : string) (w : World) : option (list TxStatus) :=
  (fun l => status <$> txList l) <$> loyalties w !! uid.

(** The balance a reconciliation at [now] would leave. *)
Definition reconciledBalance (uid : string) (now : Z) (w : World) : Z :=
  PointsView.amount (getUserPoints uid now w).1.

End Notions.

(** * Concrete stores used by the examples *)

Module Examples.
Import Loyalty.

Definition emptyWorld : World :=
  {| payments := ∅; products := ∅; loyalties := ∅; users := ∅;
     activities := [] |}.

(** A credit of 100 points that fell due at instant 1000. *)
Definition oldCredit : Transaction :=
  {| id := "1"; amount := 100; reason := "PURCHASE"; createdAt := 0;
     expiresAt := 1000; status := ACTIVE; relatedProductId := None;
     relatedPaymentId := None; actionBy := None |}.

Definition anaAccount : Account :=
  {| userName := "ana"; totalPoints := 100; lifetimePoints := 100;
     level := 1; transactions := Some [oldCredit]; lastUpdated := 0;
     _expiredPoints := None |}.

Definition ledgerWorld : World :=
  {| payments := ∅; products := ∅; loyalties := {[ "u1" := anaAccount ]};
     users := ∅; activities := [] |}.

End Examples.

(** * Notions and examples for payments and products *)

Module SaleNotions.
Import PaymentService.

(** Every product marked sold is also marked unavailable. *)
Definition soldImpliesUnavailable (w : World) : Prop :=
  map_Forall
    (fun _ p => Product.vendido p = true -> Product.disponivel p = false)
    (products w).

#[global] Instance soldImpliesUnavailable_dec (w : World) :
  Decision (soldImpliesUnavailable w).
Proof. unfold soldImpliesUnavailable. apply _. Defined.

(** The operations on payments and products, stamped by the caller with a
    clock reading. *)
Inductive Op :=
| MarkSold (productId userId : string)
| Approve (paymentId adminId : string)
    (accountCredentials : Payment.Credentials)
| Reject (paymentId why adminId : string)
| Create (paymentData : Payment.Data) (newId : string)
| Update (productId : string) (updateData : Product.Update).

Section Step.
Variable generatePixCode : string -> Payment.t -> string.
Variable generateQRCode : string -> string.

Definition step (now : Z) (op : Op) (w : World) : World :=
  match op with
  | MarkSold pid uid => (ProductService.markProductAsSold pid uid now w).2
  | Approve pid adm cr => (approvePayment pid adm cr now w).2
  | Reject pid why adm => (rejectPayment pid why adm now w).2
  | Create d newId =>
      (createPayment generatePixCode generateQRCode d newId now w).2
  | Update pid u => (ProductService.updateProduct pid u now w).2
  end.
End Step.

(** An operation that does not switch a product back to available. *)
Definition keepsUnavailable (op : Op) : bool :=
  match op with
  | Update _ u => negb (bool_decide (Product.u_disponivel u = Some true))
  | _ => true
  end.

(** What the claim on expiry asks of an approval: it fails and leaves the
    payment EXPIRED. *)
Definition failsAsExpired (paymentId : string) (r : ApproveResult * World)
  : Prop :=
  (exists message payment, r.1 = NotApproved message payment)
  /\ statusOf paymentId r.2 = Some Payment.EXPIRED.

(** The refusal text for a payment that is no longer open. *)
Definition closedMessage (p : Payment.t) : string :=
  String.append "Pagamento já foi "
    (if bool_decide (Payment.status p = Payment.COMPLETED)
     then "aprovado" else "rejeitado/expirado").

(** The product of a payment can still be delivered. *)
Definition usable (productId : string) (w : World) : bool :=
  match products w !! productId with
  | Some product => Product.disponivel product && negb (Product.vendido product)
  | None => false
  end.

Definition purchaseActivity (paymentId : string) (p : Payment.t)
    (product : Product.t) (now : Z) : Activity.t :=
  {| Activity.userId := Payment.userId p;
     Activity.action := "PRODUCT_PURCHASE";
     Activity.createdAt := now;
     Activity.productId := Some (Payment.productId p);
     Activity.productName := Some (Product.nome product);
     Activity.paymentId := Some paymentId;
     Activity.amount := Some (Payment.amount p);
     Activity.reason := None |}.

Definition rejectionActivity (paymentId why : string) (p : Payment.t)
    (now : Z) : Activity.t :=
  {| Activity.userId := Payment.userId p;
     Activity.action := "PAYMENT_REJECTED";
     Activity.createdAt := now;
     Activity.productId := Some (Payment.productId p);
     Activity.productName := None;
     Activity.paymentId := Some paymentId;
     Activity.amount := None;
     Activity.reason := Some why |}.

Definition withStatus (p : Payment.t) (s : Payment.Status) : Payment.t :=
  {| Payment.userId := Payment.userId p; Payment.userName := Payment.userName p;
     Payment.productId := Payment.productId p;
     Payment.productName := Payment.productName p;
     Payment.amount := Payment.amount p; Payment.method := Payment.method p;
     Payment.status := s;
     Payment.pixCode := Payment.pixCode p;
     Payment.qrCodeUrl := Payment.qrCodeUrl p;
     Payment.createdAt := Payment.createdAt p;
     Payment.expiresAt := Payment.expiresAt p;
     Payment.completedAt := Payment.completedAt p;
     Payment.approvedBy := Payment.approvedBy p;
     Payment.rejectedAt := Payment.rejectedAt p;
     Payment.rejectionReason := Payment.rejectionReason p;
     Payment.rejectedBy := Payment.rejectedBy p;
     Payment.deliveryData := Payment.deliveryData p;
     Payment.ipAddress := Payment.ipAddress p;
     Payment.userAgent := Payment.userAgent p |}.

End SaleNotions.

(** What it means that an operation does not read the expiry of a payment:
    stores that agree once the expiries are forgotten give results and
    stores that agree once the expiries are forgotten. *)
Module ExpiryNotions.
Import Payment PaymentService.

Definition withExpiry (e : Z) (p : Payment.t) : Payment.t :=
  {| userId := userId p; userName := userName p; productId := productId p;
     productName := productName p; amount := amount p; method := method p;
     status := status p;
     pixCode := pixCode p; qrCodeUrl := qrCodeUrl p;
     createdAt := createdAt p; expiresAt := e;
     completedAt := completedAt p; approvedBy := approvedBy p;
     rejectedAt := rejectedAt p; rejectionReason := rejectionReason p;
     rejectedBy := rejectedBy p; deliveryData := deliveryData p;
     ipAddress := ipAddress p; userAgent := userAgent p |}.

Definition forgetExpiry (w : World) : World :=
  {| payments := withExpiry 0 <$> payments w;
     products := products w;
     loyalties := loyalties w;
     users := users w;
     activities := activities w |}.

Definition forgetInResult (r : ApproveResult) : ApproveResult :=
  match r with
  | Approved payment accountCredentials =>
      Approved (withExpiry 0 payment) accountCredentials
  | NotApproved message payment =>
      NotApproved message (withExpiry 0 <$> payment)
  end.

End ExpiryNotions.

Module SaleExamples.
Import PaymentService SaleNotions.

Definition pix (paymentId : string) (p : Payment.t) : string :=
  String.append "PIX:" paymentId.
Definition qr (code : string) : string := String.append "QR:" code.

Definition account : Product.t :=
  {| Product.nome := "Conta Valorant"; Product.preco := (599 # 10)%Q;
     Product.descricao := "Conta com skins"; Product.detalhes := "{}";
     Product.imagens := []; Product.disponivel := true;
     Product.vendido := false; Product.dataVenda := None;
     Product.compradoPor := None; Product.updatedAt := None |}.

Definition ana : User.Profile :=
  {| User.username := "ana"; User.createdAt := 0; User.email := None;
     User.isBlocked := false; User.blockReason := None |}.

Definition shopWorld : World :=
  {| payments := ∅; products := {[ "prod-1" := account ]}; loyalties := ∅;
     users := {[ "u1" := ana ]}; activities := [] |}.

Definition purchase : Payment.Data :=
  {| Payment.d_userId := "u1"; Payment.d_userName := "ana";
     Payment.d_productId := "prod-1";
     Payment.d_productName := "Conta Valorant";
     Payment.d_amount := (599 # 10)%Q;
     Payment.d_ipAddress := None; Payment.d_userAgent := None |}.

(** The payment is created at instant 0 and expires at 1 800 000 ms. *)
Definition created : Payment.t * World :=
  createPayment pix qr purchase "pay-1" 0 shopWorld.

Definition pendingWorld : World := created.2.

Definition credentials : Payment.Credentials :=
  {| Payment.login := "user_ab12cd34"; Payment.password := "Zm9vYmFy" |}.

(** An approval attempted 1801 seconds after the creation. *)
Definition lateApproval : ApproveResult * World :=
  approvePayment "pay-1" "admin" credentials (0 + 1801 * 1000) pendingWorld.

(** The same payment after a sweep outside this code marked it EXPIRED. *)
Definition expiredWorld : World :=
  savePayment "pay-1" (withStatus created.1 Payment.EXPIRED) pendingWorld.

(** The product after it was sold to another buyer. *)
Definition soldWorld : World :=
  (ProductService.markProductAsSold "prod-1" "u9" 5 pendingWorld).2.

(** A rejection of the payment that was marked EXPIRED. *)
Definition lateRejection : RejectResult * World :=
  rejectPayment "pay-1" "prazo esgotado" "admin" 1900000 expiredWorld.

Definition reopen : Product.Update :=
  {| Product.u_nome := None; Product.u_preco := None;
     Product.u_descricao := None; Product.u_detalhes := None;
     Product.u_disponivel := Some true; Product.u_imagens := None |}.

End SaleExamples.

(** * Notions and examples for the risk engine *)

Module RiskNotions.
Import Fraud.

(** Every cached assessment carries a score between 0 and 100. *)
Definition cacheBounded (c : Cache) : Prop :=
  map_Forall (fun _ e => 0 <= score e.1 <= 100) c.

End RiskNotions.

Module RiskExamples.
Import Fraud.

Definition now : Z := 1700000000000.

(** Every reader fails, as when the store is down. *)
Definition brokenEnv : Env :=
  {| getUserProfile := fun _ => Throws "store unavailable";
     getUserHistory := fun _ _ => Throws "store unavailable";
     getPurchaseHistory := fun _ => Throws "store unavailable" |}.

(** A profile whose e-mail address has no at sign. *)
Definition oddProfile : User.Profile :=
  {| User.username := "eve"; User.createdAt := 0; User.email := Some "eve";
     User.isBlocked := false; User.blockReason := None |}.

Definition oddEnv : Env :=
  {| getUserProfile := fun _ => Returns (Some oddProfile);
     getUserHistory := fun _ _ => Returns (Some []);
     getPurchaseHistory := fun _ => Returns [] |}.

(** An account opened a second ago with a disposable address, three
    payment attempts in the last minutes and one completed purchase. *)
Definition bob : User.Profile :=
  {| User.username := "bob"; User.createdAt := now - 1000;
     User.email := Some "bob@Mailinator.com";
     User.isBlocked := false; User.blockReason := None |}.

Definition attempt (t : Z) : Action :=
  {| action := "PAYMENT_INITIATED"; a_timestamp := Some t;
     a_ipAddress := None |}.

Definition bobHistory : list Action :=
  [attempt (now - 100); attempt (now - 200);
   {| action := "PRODUCT_PURCHASE"; a_timestamp := Some (now - 300);
      a_ipAddress := None |};
   attempt (now - 400)].

Definition bobPurchases : list Purchase :=
  [{| p_productId := "prod-1"; p_amount := 10%Q; p_date := now - 300;
      p_method := "PIX" |}].

Definition bobEnv : Env :=
  {| getUserProfile := fun _ => Returns (Some bob);
     getUserHistory := fun _ _ => Returns (Some bobHistory);
     getPurchaseHistory := fun _ => Returns bobPurchases |}.

Definition bobOrder : Transaction :=
  {| userId := "bob"; productId := "prod-1"; amount := 100%Q;
     paymentMethod := "PIX"; ipAddress := None |}.

Definition probe : Transaction :=
  {| userId := "u1"; productId := "prod-1"; amount := 100%Q;
     paymentMethod := "PIX"; ipAddress := Some "10.0.0.7" |}.

End RiskExamples.

Module FailOpenExamples.
Import Fraud.

(** The stores answer, but the profile of eve holds an address without an
    at sign; eve bought prod-1 for 10 by PIX a moment ago. *)
Definition oddShopEnv : Env :=
  {| getUserProfile := fun _ => Returns (Some RiskExamples.oddProfile);
     getUserHistory := fun _ _ => Returns (Some []);
     getPurchaseHistory := fun _ => Returns RiskExamples.bobPurchases |}.

(** The same product again, for ten times the amount, by card. *)
Definition eveOrder : Transaction :=
  {| userId := "eve"; productId := "prod-1"; amount := 100%Q;
     paymentMethod := "CARD"; ipAddress := None |}.

End FailOpenExamples.

(** * Loyalty ledger: proofs *)

Section SweepFacts.
Import Loyalty LoyaltyService Notions.
Variable now : Z.

Lemma sweep_fold (txs pre : list Transaction) (p : Z) :
  fold_left (sweepStep now) txs (pre, p)
  = (pre ++ (sweepTx now <$> txs), p + expiredSum now txs).
Proof.
  revert pre p. induction txs as [|tx txs IH]; intros pre p; simpl.
  - by rewrite app_nil_r, Z.add_0_r.
  - assert (sweepStep now (pre, p) tx
            = (pre ++ [sweepTx now tx],
               p + (if isExpiring now tx then amount tx else 0))) as ->.
    { unfold sweepStep, sweepTx. simpl.
      destruct (isExpiring now tx); [done | by rewrite Z.add_0_r]. }
    rewrite IH, <- app_assoc. simpl. f_equal. lia.
Qed.

Lemma sweep_closed (txs : list Transaction) :
  sweep now txs = (sweepTx now <$> txs, expiredSum now txs).
Proof. unfold sweep. by rewrite sweep_fold. Qed.

Lemma isExpiring_markExpired (tx : Transaction) :
  isExpiring now (markExpired tx) = false.
Proof. reflexivity. Qed.

Lemma isExpiring_sweepTx (tx : Transaction) :
  isExpiring now (sweepTx now tx) = false.
Proof.
  unfold sweepTx. destruct (isExpiring now tx) eqn:E; [reflexivity | exact E].
Qed.

Lemma isExpiring_expirationTx (p : Z) :
  isExpiring now (expirationTx now p) = false.
Proof. reflexivity. Qed.

Lemma settled_fixed (txs : list Transaction) :
  Forall (fun tx => isExpiring now tx = false) txs ->
  sweepTx now <$> txs = txs /\ expiredSum now txs = 0.
Proof.
  induction 1 as [|tx txs Htx _ [IH1 IH2]]; [done|].
  rewrite fmap_cons, IH1. cbn [expiredSum]. rewrite IH2.
  unfold sweepTx. by rewrite Htx.
Qed.

Lemma sweep_settled (txs : list Transaction) :
  Forall (fun tx => isExpiring now tx = false) txs ->
  sweep now txs = (txs, 0).
Proof.
  intros [H1 H2]%settled_fixed. by rewrite sweep_closed, H1, H2.
Qed.

Lemma swept_settled (txs : list Transaction) :
  Forall (fun tx => isExpiring now tx = false) (sweepTx now <$> txs).
Proof.
  apply Forall_fmap, Forall_forall. intros tx _. apply isExpiring_sweepTx.
Qed.

End SweepFacts.

Section LedgerFacts.
Import Loyalty LoyaltyService Notions.

Lemma processExpiredPoints_null (now : Z) (uid : string) (loyalty : Account)
    (w : World) :
  transactions loyalty = None ->
  _processExpiredPoints now uid loyalty w = (loyalty, w).
Proof. intros H. unfold _processExpiredPoints. by rewrite H. Qed.

Lemma processExpiredPoints_nothing_due (now : Z) (uid : string)
    (loyalty : Account) (w : World) (txs : list Transaction) :
  transactions loyalty = Some txs ->
  (0 <? expiredSum now txs) = false ->
  _processExpiredPoints now uid loyalty w = (loyalty, w).
Proof.
  intros H Hp. unfold _processExpiredPoints. by rewrite H, sweep_closed, Hp.
Qed.

Lemma processExpiredPoints_due (now : Z) (uid : string)
    (loyalty : Account) (w : World) (txs : list Transaction) :
  transactions loyalty = Some txs ->
  (0 <? expiredSum now txs) = true ->
  _processExpiredPoints now uid loyalty w
  = (withMarker (sweptAccount now loyalty txs) (Some (expiredSum now txs)),
     saveLoyalty uid (sweptAccount now loyalty txs) w).
Proof.
  intros H Hp. unfold _processExpiredPoints. by rewrite H, sweep_closed, Hp.
Qed.

Lemma sweptAccount_settled (now : Z) (loyalty : Account)
    (txs : list Transaction) :
  Forall (fun tx => isExpiring now tx = false)
    ((sweepTx now <$> txs) ++ [expirationTx now (expiredSum now txs)]).
Proof.
  apply Forall_app. split; [apply swept_settled | repeat constructor].
Qed.

(** A second sweep of the account the first sweep returned changes
    nothing. *)
Lemma processExpiredPoints_twice (now : Z) (uid : string)
    (loyalty : Account) (w : World) :
  _processExpiredPoints now uid
    (_processExpiredPoints now uid loyalty w).1
    (_processExpiredPoints now uid loyalty w).2
  = _processExpiredPoints now uid loyalty w.
Proof.
  destruct (transactions loyalty) as [txs|] eqn:Htx.
  - destruct (0 <? expiredSum now txs) eqn:Hpos.
    + rewrite (processExpiredPoints_due _ _ _ _ _ Htx Hpos). cbn [fst snd].
      eapply processExpiredPoints_nothing_due; [reflexivity|].
      pose proof (sweptAccount_settled now loyalty txs) as Hs.
      apply settled_fixed in Hs as [_ ->]. reflexivity.
    + rewrite (processExpiredPoints_nothing_due _ _ _ _ _ Htx Hpos).
      cbn [fst snd]. by apply processExpiredPoints_nothing_due with txs.
  - rewrite (processExpiredPoints_null _ _ _ _ Htx). cbn [fst snd].
    by apply processExpiredPoints_null.
Qed.

(** The sweep never touches the lifetime total. *)
Lemma processExpiredPoints_lifetime (now : Z) (uid : string)
    (loyalty : Account) (w : World) :
  lifetimePoints (_processExpiredPoints now uid loyalty w).1
  = lifetimePoints loyalty.
Proof.
  unfold _processExpiredPoints.
  destruct (transactions loyalty) as [l|]; [|done].
  destruct (sweep now l) as [u p]. by destruct (0 <? p).
Qed.

Lemma processExpiredPoints_store (now : Z) (uid : string)
    (loyalty : Account) (w : World) :
  (_processExpiredPoints now uid loyalty w).2 = w
  \/ (exists l', (_processExpiredPoints now uid loyalty w).2
                 = saveLoyalty uid l' w
                /\ lifetimePoints l' = lifetimePoints loyalty).
Proof.
  unfold _processExpiredPoints.
  destruct (transactions loyalty) as [l|]; [|by left].
  destruct (sweep now l) as [u p]. destruct (0 <? p); [|by left].
  right. eexists. split; reflexivity.
Qed.

End LedgerFacts.

Section LedgerOperations.
Import Loyalty LoyaltyService Notions.

Lemma lifetimeOf_save (uid u : string) (l : Account) (w : World) :
  lifetimeOf uid (saveLoyalty u l w)
  = if decide (u = uid) then lifetimePoints l else lifetimeOf uid w.
Proof.
  unfold lifetimeOf, saveLoyalty. cbn [loyalties].
  rewrite lookup_insert. by destruct (decide (u = uid)).
Qed.

Lemma addPoints_lifetime (uid u : string) (points : Z) (why : string)
    (md : Metadata) (now : Z) (w : World) :
  lifetimeOf uid w <= lifetimeOf uid (addPoints u points why md now w).2.
Proof.
  unfold addPoints. destruct (points <=? 0) eqn:Hp; [done|].
  apply Z.leb_gt in Hp.
  destruct (loyalties w !! u) as [l|] eqn:Hl.
  - cbn [snd]. rewrite lifetimeOf_save. cbn [lifetimePoints].
    destruct (decide (u = uid)) as [->|]; [|done].
    unfold lifetimeOf. rewrite Hl. lia.
  - destruct (users w !! u) as [profile|]; [|done].
    cbn [snd]. rewrite !lifetimeOf_save. cbn.
    destruct (decide (u = uid)) as [->|]; [|done].
    unfold lifetimeOf. rewrite Hl. lia.
Qed.

Lemma usePoints_lifetime (uid u : string) (points : Z) (why : string)
    (md : Metadata) (now : Z) (w : World) :
  lifetimeOf uid (usePoints u points why md now w).2 = lifetimeOf uid w.
Proof.
  unfold usePoints. destruct (points <=? 0); [done|].
  destruct (loyalties w !! u) as [l|] eqn:Hl; [|done].
  destruct (totalPoints l <? points); [done|].
  cbn [snd]. rewrite lifetimeOf_save. cbn [lifetimePoints].
  destruct (decide (u = uid)) as [->|]; [|done].
  unfold lifetimeOf. by rewrite Hl.
Qed.

Lemma sweep_lifetime (uid u : string) (l : Account) (now : Z) (w : World) :
  loyalties w !! u = Some l ->
  lifetimeOf uid (_processExpiredPoints now u l w).2 = lifetimeOf uid w.
Proof.
  intros Hl.
  destruct (processExpiredPoints_store now u l w) as [->|(l' & -> & Hl')];
    [done|].
  rewrite lifetimeOf_save. destruct (decide (u = uid)) as [->|]; [|done].
  unfold lifetimeOf. by rewrite Hl.
Qed.

Lemma getUserPoints_lifetime (uid u : string) (now : Z) (w : World) :
  lifetimeOf uid (getUserPoints u now w).2 = lifetimeOf uid w.
Proof.
  unfold getUserPoints. destruct (loyalties w !! u) as [l|] eqn:Hl; [|done].
  pose proof (sweep_lifetime uid u l now w Hl) as H.
  destruct (_processExpiredPoints now u l w) as [l1 w1]. exact H.
Qed.

Lemma step_lifetime (uid : string) (now : Z) (op : Op) (w : World) :
  lifetimeOf uid w <= lifetimeOf uid (step now op w).
Proof.
  destruct op as [u pts why md|u pts why md|u|u]; cbn [step].
  - apply addPoints_lifetime.
  - by rewrite usePoints_lifetime.
  - by rewrite getUserPoints_lifetime.
  - destruct (loyalties w !! u) as [l|] eqn:Hl; [|done].
    by rewrite (sweep_lifetime uid u l now w Hl).
Qed.

Lemma run_lifetime (uid : string) (ops : list (Z * Op)) (w : World) :
  lifetimeOf uid w <= lifetimeOf uid (run ops w).
Proof.
  revert w. induction ops as [|[now op] ops IH]; intros w; [done|].
  unfold run in *. cbn [fold_left].
  etrans; [apply (step_lifetime uid now op)|apply IH].
Qed.

Lemma calculateLoyaltyLevel_spec (p : Z) :
  _calculateLoyaltyLevel p = tierSpec p.
Proof.
  unfold _calculateLoyaltyLevel, tierSpec.
  repeat case_decide; repeat (case_match; try lia); lia.
Qed.

(** C9. The tier is the threshold function of the lifetime points alone
    (10000 and above is 5, 5000 and above is 4, 2000 and above is 3, 500 and
    above is 2, otherwise 1), so 2000 points give tier 3 and 1999 give tier
    2; and over every sequence of credits, debits, balance reads and sweeps
    the lifetime points of every user never decrease. *)
Theorem tier_and_lifetime (p : Z) (uid : string) (ops : list (Z * Op))
    (w : World) :
  _calculateLoyaltyLevel p = tierSpec p
  /\ _calculateLoyaltyLevel 2000 = 3
  /\ _calculateLoyaltyLevel 1999 = 2
  /\ lifetimeOf uid w <= lifetimeOf uid (run ops w).
Proof.
  split; [apply calculateLoyaltyLevel_spec|].
  split; [reflexivity|]. split; [reflexivity|]. apply run_lifetime.
Qed.

(** The tier never goes down when the lifetime points go up. *)
Lemma calculateLoyaltyLevel_mono (p q : Z) :
  p <= q -> _calculateLoyaltyLevel p <= _calculateLoyaltyLevel q.
Proof.
  intros H. unfold _calculateLoyaltyLevel.
  repeat (case_match; try lia).
Qed.



End LedgerOperations.

Section LedgerReconciliation.
Import Loyalty LoyaltyService Notions.

(** What [usePoints] decides on: the stored balance, as it is. *)
Lemma usePoints_decision (uid : string) (points : Z) (why : string)
    (md : Metadata) (now : Z) (w : World) (l : Account) :
  0 < points ->
  loyalties w !! uid = Some l ->
  (usePoints uid points why md now w).1
  = if totalPoints l <? points
    then UseInsufficient "Saldo de pontos insuficiente" (totalPoints l) points
    else UseOk (totalPoints l - points) (level l).
Proof.
  intros Hp Hl. unfold usePoints.
  apply Z.leb_gt in Hp. rewrite Hp, Hl. by destruct (totalPoints l <? points).
Qed.

(** A debit does not look at the clock: expired credits stay spendable. *)
Lemma usePoints_ignores_clock (uid : string) (points : Z) (why : string)
    (md : Metadata) (now now' : Z) (w : World) :
  (usePoints uid points why md now w).1
  = (usePoints uid points why md now' w).1.
Proof.
  unfold usePoints. destruct (points <=? 0); [done|].
  destruct (loyalties w !! uid) as [l|]; [|done].
  by destruct (totalPoints l <? points).
Qed.

Lemma getUserPoints_found (uid : string) (now : Z) (w : World) (l : Account) :
  loyalties w !! uid = Some l ->
  getUserPoints uid now w
  = (viewOf (_processExpiredPoints now uid l w).1,
     (_processExpiredPoints now uid l w).2).
Proof.
  intros Hl. unfold getUserPoints. rewrite Hl.
  by destruct (_processExpiredPoints now uid l w).
Qed.

(** A read reconciles first: the view shows the balance the sweep left. *)
Lemma getUserPoints_amount (uid : string) (now : Z) (w : World) (l : Account) :
  loyalties w !! uid = Some l ->
  PointsView.amount (getUserPoints uid now w).1
  = totalPoints (_processExpiredPoints now uid l w).1.
Proof. intros Hl. by rewrite (getUserPoints_found _ _ _ _ Hl). Qed.

(** Reading twice at one instant shows the same view and writes nothing the
    second time. *)
Lemma getUserPoints_twice (uid : string) (now : Z) (w : World) :
  getUserPoints uid now (getUserPoints uid now w).2 = getUserPoints uid now w.
Proof.
  destruct (loyalties w !! uid) as [l|] eqn:Hl.
  - rewrite (getUserPoints_found _ _ _ _ Hl). cbn [fst snd].
    destruct (transactions l) as [txs|] eqn:Htx.
    + destruct (0 <? expiredSum now txs) eqn:Hpos.
      * rewrite (processExpiredPoints_due _ _ _ _ _ Htx Hpos). cbn [fst snd].
        rewrite (getUserPoints_found uid now _ (sweptAccount now l txs));
          [|apply lookup_insert_eq].
        rewrite (processExpiredPoints_nothing_due now uid
                   (sweptAccount now l txs) _ _ eq_refl); [reflexivity|].
        pose proof (sweptAccount_settled now l txs) as Hs.
        apply settled_fixed in Hs as [_ ->]. reflexivity.
      * rewrite (processExpiredPoints_nothing_due _ _ _ _ _ Htx Hpos).
        cbn [fst snd]. rewrite (getUserPoints_found _ _ _ _ Hl).
        by rewrite (processExpiredPoints_nothing_due _ _ _ _ _ Htx Hpos).
    + rewrite (processExpiredPoints_null _ _ _ _ Htx). cbn [fst snd].
      rewrite (getUserPoints_found _ _ _ _ Hl).
      by rewrite (processExpiredPoints_null _ _ _ _ Htx).
  - unfold getUserPoints at 2. rewrite Hl. cbn [snd].
    unfold getUserPoints. by rewrite Hl.
Qed.

(** C6. The expired-points sweep is idempotent: run a second time at the
    same clock reading, on the account and stores the first run left, it
    returns that account and those stores again, so the balance does not
    change and no transaction entry is appended; the same holds for the
    balance read, which sweeps the stored account. *)
Theorem processExpiredPoints_idempotent (now : Z) (uid : string)
    (loyalty : Account) (w : World) :
  let first := _processExpiredPoints now uid loyalty w in
  let second := _processExpiredPoints now uid first.1 first.2 in
  second = first
  /\ totalPoints second.1 = totalPoints first.1
  /\ transactions second.1 = transactions first.1
  /\ loyalties second.2 = loyalties first.2
  /\ getUserPoints uid now (getUserPoints uid now w).2
     = getUserPoints uid now w.
Proof.
  cbv zeta. rewrite processExpiredPoints_twice.
  repeat split. apply getUserPoints_twice.
Qed.

(** C5. Only the balance read reconciles.  In a ledger whose single credit
    of 100 points fell due at instant 1000, the reconciled balance at instant
    2000 is 0, yet a debit of 50 points at that instant succeeds against the
    stored balance of 100 and leaves the credit active; a credit of 10
    points at that instant likewise leaves the stale credit in place. *)
Theorem usePoints_skips_reconciliation :
  reconciledBalance "u1" 2000 Examples.ledgerWorld = 0
  /\ (usePoints "u1" 50 "REDEEM" noMetadata 2000 Examples.ledgerWorld).1
     = UseOk 50 1
  /\ statusesOf "u1"
       (usePoints "u1" 50 "REDEEM" noMetadata 2000 Examples.ledgerWorld).2
     = Some [ACTIVE; USED]
  /\ (addPoints "u1" 10 "BONUS" noMetadata 2000 Examples.ledgerWorld).1
     = AddOk 110 1
  /\ statusesOf "u1"
       (addPoints "u1" 10 "BONUS" noMetadata 2000 Examples.ledgerWorld).2
     = Some [ACTIVE; ACTIVE].
Proof. repeat split; vm_compute; reflexivity. Qed.

End LedgerReconciliation.

(** * Payments and products: proofs *)

Section ApprovalCases.
Import PaymentService SaleNotions.
Variables (paymentId adminId : string) (cr : Payment.Credentials) (now : Z).
Variable w : World.

Lemma approve_missing :
  payments w !! paymentId = None ->
  approvePayment paymentId adminId cr now w
  = (NotApproved "Pagamento não encontrado" None, w).
Proof. intros H. unfold approvePayment. by rewrite H. Qed.

Lemma approve_closed (p : Payment.t) :
  payments w !! paymentId = Some p ->
  isOpen (Payment.status p) = false ->
  approvePayment paymentId adminId cr now w
  = (NotApproved (closedMessage p) (Some p), w).
Proof. intros H Ho. unfold approvePayment. by rewrite H, Ho. Qed.

Lemma approve_unavailable (p : Payment.t) :
  payments w !! paymentId = Some p ->
  isOpen (Payment.status p) = true ->
  usable (Payment.productId p) w = false ->
  approvePayment paymentId adminId cr now w
  = (NotApproved "Produto não disponível"
       (Some (reject p "Produto não disponível" None now)),
     savePayment paymentId (reject p "Produto não disponível" None now) w).
Proof.
  intros H Ho Hu. unfold approvePayment. rewrite H, Ho. cbn [negb].
  unfold usable in Hu.
  destruct (products w !! Payment.productId p) as [pr|]; [|done].
  destruct (Product.disponivel pr), (Product.vendido pr); done.
Qed.

Lemma approve_success (p : Payment.t) (product : Product.t) :
  payments w !! paymentId = Some p ->
  isOpen (Payment.status p) = true ->
  products w !! Payment.productId p = Some product ->
  Product.disponivel product = true ->
  Product.vendido product = false ->
  approvePayment paymentId adminId cr now w
  = (Approved (complete p adminId cr now) cr,
     recordActivity (purchaseActivity paymentId p product now)
       (saveProduct (Payment.productId p)
          (ProductService.sell product (Payment.userId p) now)
          (savePayment paymentId (complete p adminId cr now) w))).
Proof.
  intros H Ho Hp Hd Hv. unfold approvePayment.
  rewrite H, Ho, Hp, Hd, Hv. reflexivity.
Qed.

(** An approval reports success only through the last branch. *)
Lemma approve_inversion (p' : Payment.t) (cr' : Payment.Credentials) :
  (approvePayment paymentId adminId cr now w).1 = Approved p' cr' ->
  exists p product,
    payments w !! paymentId = Some p
    /\ isOpen (Payment.status p) = true
    /\ products w !! Payment.productId p = Some product
    /\ Product.disponivel product = true
    /\ Product.vendido product = false
    /\ p' = complete p adminId cr now.
Proof.
  unfold approvePayment.
  destruct (payments w !! paymentId) as [p|] eqn:H; [|done].
  destruct (isOpen (Payment.status p)) eqn:Ho; [|done]. cbn [negb].
  destruct (products w !! Payment.productId p) as [pr|] eqn:Hp; [|done].
  destruct (Product.disponivel pr) eqn:Hd; [|done].
  destruct (Product.vendido pr) eqn:Hv; [done|].
  cbn. intros [= <- <-]. by exists p, pr.
Qed.

(** No branch of an approval touches the loyalty ledger. *)
Lemma approvePayment_loyalties :
  loyalties (approvePayment paymentId adminId cr now w).2 = loyalties w.
Proof.
  unfold approvePayment.
  destruct (payments w !! paymentId) as [p|]; [|done].
  destruct (isOpen (Payment.status p)); [|done]. cbn [negb].
  destruct (products w !! Payment.productId p) as [pr|]; [|done].
  by destruct (Product.disponivel pr), (Product.vendido pr).
Qed.

End ApprovalCases.

Section RejectionCases.
Import PaymentService SaleNotions.
Variables (paymentId why adminId : string) (now : Z).
Variable w : World.

Lemma reject_missing :
  payments w !! paymentId = None ->
  rejectPayment paymentId why adminId now w
  = (NotRejected "Pagamento não encontrado" None, w).
Proof. intros H. unfold rejectPayment. by rewrite H. Qed.

Lemma reject_completed (p : Payment.t) :
  payments w !! paymentId = Some p ->
  Payment.status p = Payment.COMPLETED ->
  rejectPayment paymentId why adminId now w
  = (NotRejected "Pagamento já foi aprovado e não pode ser rejeitado"
       (Some p), w).
Proof. intros H Hs. unfold rejectPayment. by rewrite H, Hs. Qed.

Lemma reject_rejected (p : Payment.t) :
  payments w !! paymentId = Some p ->
  Payment.status p = Payment.REJECTED ->
  rejectPayment paymentId why adminId now w
  = (NotRejected "Pagamento já foi rejeitado anteriormente" (Some p), w).
Proof. intros H Hs. unfold rejectPayment. by rewrite H, Hs. Qed.

Lemma reject_other (p : Payment.t) :
  payments w !! paymentId = Some p ->
  Payment.status p <> Payment.COMPLETED ->
  Payment.status p <> Payment.REJECTED ->
  rejectPayment paymentId why adminId now w
  = (Rejected (reject p why (Some adminId) now),
     recordActivity (rejectionActivity paymentId why p now)
       (savePayment paymentId (reject p why (Some adminId) now) w)).
Proof.
  intros H Hc Hr. unfold rejectPayment. rewrite H.
  rewrite !bool_decide_eq_false_2 by done. reflexivity.
Qed.

Lemma reject_inversion (p' : Payment.t) :
  (rejectPayment paymentId why adminId now w).1 = Rejected p' ->
  exists p, payments w !! paymentId = Some p
            /\ p' = reject p why (Some adminId) now
            /\ (rejectPayment paymentId why adminId now w).2
               = recordActivity (rejectionActivity paymentId why p now)
                   (savePayment paymentId p' w).
Proof.
  unfold rejectPayment.
  destruct (payments w !! paymentId) as [p|] eqn:H; [|done].
  destruct (bool_decide (Payment.status p = Payment.COMPLETED)); [done|].
  destruct (bool_decide (Payment.status p = Payment.REJECTED)); [done|].
  cbn. intros [= <-]. by exists p.
Qed.

End RejectionCases.

Section StoreLookups.
Import PaymentService.

Lemma statusOf_savePayment (pid : string) (p : Payment.t) (w : World) :
  statusOf pid (savePayment pid p w) = Some (Payment.status p).
Proof. unfold statusOf, savePayment. cbn. by rewrite lookup_insert_eq. Qed.

Lemma payments_recordActivity (a : Activity.t) (w : World) :
  payments (recordActivity a w) = payments w.
Proof. reflexivity. Qed.

Lemma payments_saveProduct (k : string) (p : Product.t) (w : World) :
  payments (saveProduct k p w) = payments w.
Proof. reflexivity. Qed.

Lemma products_savePayment (k : string) (p : Payment.t) (w : World) :
  products (savePayment k p w) = products w.
Proof. reflexivity. Qed.

Lemma products_recordActivity (a : Activity.t) (w : World) :
  products (recordActivity a w) = products w.
Proof. reflexivity. Qed.

End StoreLookups.

Section Expiry.
Import PaymentService SaleNotions ExpiryNotions.

(** C1, as stated, fails.  The payment created at instant 0 expires at
    1 800 000 ms and is still PENDING; approved at 1 801 000 ms it is not
    refused as expired: the approval succeeds and the payment becomes
    COMPLETED. *)
Lemma approval_after_expiry_completes :
  statusOf "pay-1" SaleExamples.pendingWorld = Some Payment.PENDING
  /\ Payment.expiresAt <$> payments SaleExamples.pendingWorld !! "pay-1"
     = Some (0 + 1800 * 1000)
  /\ 0 + 1800 * 1000 < 0 + 1801 * 1000
  /\ ~ failsAsExpired "pay-1" SaleExamples.lateApproval
  /\ statusOf "pay-1" SaleExamples.lateApproval.2 = Some Payment.COMPLETED.
Proof.
  split; [reflexivity|]. split; [reflexivity|]. split; [lia|].
  assert (statusOf "pay-1" SaleExamples.lateApproval.2
          = Some Payment.COMPLETED) as H by (vm_compute; reflexivity).
  split; [|exact H].
  intros [_ He]. rewrite H in He. discriminate.
Qed.

Lemma createPayment_pending (g : string -> Payment.t -> string)
    (q : string -> string) (d : Payment.Data) (newId : string) (now : Z)
    (w : World) :
  Payment.status (createPayment g q d newId now w).1 = Payment.PENDING
  /\ Payment.createdAt (createPayment g q d newId now w).1 = now
  /\ Payment.expiresAt (createPayment g q d newId now w).1 = now + 1800 * 1000
  /\ payments (createPayment g q d newId now w).2 !! newId
     = Some (createPayment g q d newId now w).1.
Proof.
  unfold createPayment, savePayment. cbn.
  repeat split. by rewrite lookup_insert_eq.
Qed.

Lemma approve_completes (pid adm : string) (cr : Payment.Credentials)
    (now : Z) (w : World) (p : Payment.t) (product : Product.t) :
  payments w !! pid = Some p ->
  isOpen (Payment.status p) = true ->
  products w !! Payment.productId p = Some product ->
  Product.disponivel product = true ->
  Product.vendido product = false ->
  (approvePayment pid adm cr now w).1 = Approved (complete p adm cr now) cr
  /\ statusOf pid (approvePayment pid adm cr now w).2
     = Some Payment.COMPLETED.
Proof.
  intros H Ho Hp Hd Hv.
  rewrite (approve_success pid adm cr now w p product H Ho Hp Hd Hv).
  split; [reflexivity|]. cbn [snd]. unfold statusOf.
  rewrite payments_recordActivity, payments_saveProduct.
  unfold savePayment. cbn. by rewrite lookup_insert_eq.
Qed.

(** An approval of the store without its expiries is the approval of the
    store, without its expiries. *)
Lemma approve_forgetExpiry (pid adm : string) (cr : Payment.Credentials)
    (now : Z) (w : World) :
  approvePayment pid adm cr now (forgetExpiry w)
  = (forgetInResult (approvePayment pid adm cr now w).1,
     forgetExpiry (approvePayment pid adm cr now w).2).
Proof.
  unfold approvePayment. cbn [payments products forgetExpiry].
  rewrite lookup_fmap.
  destruct (payments w !! pid) as [p|]; cbn [fmap option_fmap option_map];
    [|reflexivity].
  change (Payment.status (withExpiry 0 p)) with (Payment.status p).
  change (Payment.productId (withExpiry 0 p)) with (Payment.productId p).
  destruct (isOpen (Payment.status p)); cbn [negb]; [|reflexivity].
  assert (forall q, savePayment pid (withExpiry 0 q) (forgetExpiry w)
                    = forgetExpiry (savePayment pid q w)) as Hsave.
  { intros q. unfold savePayment, forgetExpiry. cbn.
    by rewrite fmap_insert. }
  destruct (products w !! Payment.productId p) as [pr|].
  - destruct (negb (Product.disponivel pr) || Product.vendido pr).
    + cbn [fst snd forgetInResult fmap option_fmap option_map].
      rewrite <- (Hsave (reject p "Produto não disponível" None now)).
      reflexivity.
    + cbn [fst snd forgetInResult].
      f_equal. unfold recordActivity, saveProduct, savePayment, forgetExpiry.
      cbn. by rewrite fmap_insert.
  - cbn [fst snd forgetInResult fmap option_fmap option_map].
    rewrite <- (Hsave (reject p "Produto não disponível" None now)).
    reflexivity.
Qed.

(** The payments an approval leaves in the store are the ones it found,
    but for the one it approves or rejects. *)
Lemma approve_payments (pid adm : string) (cr : Payment.Credentials)
    (now : Z) (w : World) :
  payments (approvePayment pid adm cr now w).2 = payments w
  \/ exists p,
      payments w !! pid = Some p
      /\ isOpen (Payment.status p) = true
      /\ (payments (approvePayment pid adm cr now w).2
          = <[pid := reject p "Produto não disponível" None now]> (payments w)
          \/ payments (approvePayment pid adm cr now w).2
             = <[pid := complete p adm cr now]> (payments w)).
Proof.
  destruct (payments w !! pid) as [p|] eqn:Hp.
  - destruct (isOpen (Payment.status p)) eqn:Ho.
    + right. exists p. split; [done|]. split; [done|].
      destruct (usable (Payment.productId p) w) eqn:Hu.
      * right. unfold usable in Hu.
        destruct (products w !! Payment.productId p) as [pr|] eqn:Hpr;
          [|done].
        apply andb_prop in Hu as [Hd Hv]. apply negb_true_iff in Hv.
        by rewrite (approve_success pid adm cr now w p pr Hp Ho Hpr Hd Hv).
      * left. by rewrite (approve_unavailable pid adm cr now w p Hp Ho Hu).
    + left. by rewrite (approve_closed pid adm cr now w p Hp Ho).
  - left. by rewrite (approve_missing pid adm cr now w Hp).
Qed.

(** C1, amended.  A payment is created PENDING with an expiry 1800 seconds
    after its creation.  An approval never reads that expiry: for an open
    payment whose product is available and unsold it succeeds and sets
    COMPLETED at every clock reading, also after the expiry, and stores that
    differ in the expiries of their payments only get the same answer and
    the same writes.  Only a payment whose stored status already is EXPIRED
    is refused, and then nothing is written.  An approval itself never sets
    EXPIRED: a payment that is EXPIRED in the store after an approval was
    stored so, field by field, before it. *)
Theorem approval_ignores_expiry :
  (forall g q d newId now w,
      Payment.status (createPayment g q d newId now w).1 = Payment.PENDING
      /\ Payment.createdAt (createPayment g q d newId now w).1 = now
      /\ Payment.expiresAt (createPayment g q d newId now w).1
         = now + 1800 * 1000
      /\ payments (createPayment g q d newId now w).2 !! newId
         = Some (createPayment g q d newId now w).1)
  /\ (forall pid adm cr now w p product,
         payments w !! pid = Some p ->
         isOpen (Payment.status p) = true ->
         products w !! Payment.productId p = Some product ->
         Product.disponivel product = true ->
         Product.vendido product = false ->
         (approvePayment pid adm cr now w).1
         = Approved (complete p adm cr now) cr
         /\ statusOf pid (approvePayment pid adm cr now w).2
            = Some Payment.COMPLETED)
  /\ (forall pid adm cr now w p,
         payments w !! pid = Some p ->
         Payment.status p = Payment.EXPIRED ->
         approvePayment pid adm cr now w
         = (NotApproved "Pagamento já foi rejeitado/expirado" (Some p), w))
  /\ (forall pid adm cr now w1 w2,
         forgetExpiry w1 = forgetExpiry w2 ->
         forgetInResult (approvePayment pid adm cr now w1).1
         = forgetInResult (approvePayment pid adm cr now w2).1
         /\ forgetExpiry (approvePayment pid adm cr now w1).2
            = forgetExpiry (approvePayment pid adm cr now w2).2)
  /\ (forall pid adm cr now w pid' p',
         payments (approvePayment pid adm cr now w).2 !! pid' = Some p' ->
         Payment.status p' = Payment.EXPIRED ->
         payments w !! pid' = Some p').
Proof.
  split; [apply createPayment_pending|]. split; [apply approve_completes|].
  split; [|split].
  - intros pid adm cr now w p H Hs.
    rewrite (approve_closed pid adm cr now w p H); [|by rewrite Hs].
    unfold closedMessage. by rewrite Hs.
  - intros pid adm cr now w1 w2 Hw.
    pose proof (approve_forgetExpiry pid adm cr now w1) as H1.
    pose proof (approve_forgetExpiry pid adm cr now w2) as H2.
    rewrite Hw, H2 in H1.
    split; [exact (eq_sym (f_equal fst H1))|exact (eq_sym (f_equal snd H1))].
  - intros pid adm cr now w pid' p' Hp' Hs.
    destruct (approve_payments pid adm cr now w)
      as [E|(p & Hp & Ho & [E|E])]; rewrite E in Hp'; [done| |].
    + destruct (decide (pid = pid')) as [->|Hne].
      * rewrite lookup_insert_eq in Hp'. injection Hp' as <-. done.
      * by rewrite lookup_insert_ne in Hp'.
    + destruct (decide (pid = pid')) as [->|Hne].
      * rewrite lookup_insert_eq in Hp'. injection Hp' as <-. done.
      * by rewrite lookup_insert_ne in Hp'.
Qed.

Lemma approval_ignores_expiry_witness :
  payments SaleExamples.pendingWorld !! "pay-1" = Some SaleExamples.created.1
  /\ Payment.expiresAt SaleExamples.created.1 < 0 + 1801 * 1000
  /\ SaleExamples.lateApproval.1
     = Approved
         (complete SaleExamples.created.1 "admin" SaleExamples.credentials
            (0 + 1801 * 1000))
         SaleExamples.credentials
  /\ statusOf "pay-1" SaleExamples.lateApproval.2 = Some Payment.COMPLETED.
Proof.
  split; [reflexivity|]. split; [vm_compute; reflexivity|].
  apply (proj1 (proj2 approval_ignores_expiry) "pay-1" "admin"
           SaleExamples.credentials (0 + 1801 * 1000)
           SaleExamples.pendingWorld SaleExamples.created.1
           SaleExamples.account);
    reflexivity.
Defined.

(** C2.  An approval that succeeds credits no loyalty points.  The pending
    payment of user u1 is approved and becomes COMPLETED, the purchase is
    written to the activity history, and the loyalty store is as empty as
    before: no account, no PURCHASE entry, lifetime points 0. *)
Theorem approval_credits_no_points :
  (approvePayment "pay-1" "admin" SaleExamples.credentials 600000
     SaleExamples.pendingWorld).1
  = Approved
      (complete SaleExamples.created.1 "admin" SaleExamples.credentials 600000)
      SaleExamples.credentials
  /\ statusOf "pay-1"
       (approvePayment "pay-1" "admin" SaleExamples.credentials 600000
          SaleExamples.pendingWorld).2 = Some Payment.COMPLETED
  /\ Activity.action <$>
       activities
         (approvePayment "pay-1" "admin" SaleExamples.credentials 600000
            SaleExamples.pendingWorld).2 = ["PRODUCT_PURCHASE"]
  /\ loyalties
       (approvePayment "pay-1" "admin" SaleExamples.credentials 600000
          SaleExamples.pendingWorld).2 = ∅
  /\ LoyaltyService.lifetimeOf "u1"
       (approvePayment "pay-1" "admin" SaleExamples.credentials 600000
          SaleExamples.pendingWorld).2 = 0.
Proof.
  split; [reflexivity|]. split; [vm_compute; reflexivity|].
  split; [reflexivity|].
  split; [by rewrite approvePayment_loyalties|].
  unfold LoyaltyService.lifetimeOf. by rewrite approvePayment_loyalties.
Qed.

End Expiry.

Section TerminalStates.
Import PaymentService SaleNotions.

(** C3, as stated, fails.  A payment whose status is EXPIRED is in a
    terminal state, yet a rejection of it succeeds and moves it to
    REJECTED. *)
Lemma rejection_moves_expired_payment :
  statusOf "pay-1" SaleExamples.expiredWorld = Some Payment.EXPIRED
  /\ terminal Payment.EXPIRED = true
  /\ (exists p, SaleExamples.lateRejection.1 = Rejected p)
  /\ statusOf "pay-1" SaleExamples.lateRejection.2 = Some Payment.REJECTED
  /\ statusOf "pay-1" SaleExamples.lateRejection.2
     <> statusOf "pay-1" SaleExamples.expiredWorld.
Proof.
  assert (statusOf "pay-1" SaleExamples.lateRejection.2
          = Some Payment.REJECTED) as H by (vm_compute; reflexivity).
  split; [reflexivity|]. split; [reflexivity|].
  split; [eexists; reflexivity|]. split; [exact H|].
  rewrite H. discriminate.
Qed.

Lemma terminal_not_open (s : Payment.Status) :
  terminal s = true -> isOpen s = false.
Proof. by destruct s. Qed.

Lemma reject_after_approve (pid adm : string) (cr : Payment.Credentials)
    (now : Z) (w : World) (p' : Payment.t) (why adm2 : string) (now2 : Z) :
  (approvePayment pid adm cr now w).1 = Approved p' cr ->
  rejectPayment pid why adm2 now2 (approvePayment pid adm cr now w).2
  = (NotRejected "Pagamento já foi aprovado e não pode ser rejeitado"
       (Some p'), (approvePayment pid adm cr now w).2).
Proof.
  intros (p & product & H & Ho & Hp & Hd & Hv & ->)%approve_inversion.
  rewrite (approve_success pid adm cr now w p product H Ho Hp Hd Hv).
  cbn [snd]. apply reject_completed; [|reflexivity].
  rewrite payments_recordActivity, payments_saveProduct.
  unfold savePayment. cbn. by rewrite lookup_insert_eq.
Qed.

Lemma approve_after_reject (pid why adm : string) (now : Z) (w : World)
    (p' : Payment.t) (adm2 : string) (cr : Payment.Credentials) (now2 : Z) :
  (rejectPayment pid why adm now w).1 = Rejected p' ->
  approvePayment pid adm2 cr now2 (rejectPayment pid why adm now w).2
  = (NotApproved "Pagamento já foi rejeitado/expirado" (Some p'),
     (rejectPayment pid why adm now w).2).
Proof.
  intros (p & H & -> & ->)%reject_inversion.
  rewrite (approve_closed pid adm2 cr now2 _ (reject p why (Some adm) now));
    [reflexivity| |reflexivity].
  rewrite payments_recordActivity. unfold savePayment. cbn.
  by rewrite lookup_insert_eq.
Qed.

(** C3, amended.  A COMPLETED or REJECTED payment makes no further
    transition: an approval of a payment in a terminal status fails and
    writes nothing; a rejection of a COMPLETED payment fails as already
    approved and of a REJECTED payment as already rejected, writing nothing.
    A rejection of an EXPIRED payment is accepted and moves it to REJECTED.
    Approval and rejection exclude each other: after an approval succeeded a
    rejection fails, and after a rejection succeeded an approval fails. *)
Theorem terminal_payments (pid : string) (w : World) (p : Payment.t) :
  payments w !! pid = Some p ->
  (terminal (Payment.status p) = true ->
   forall adm cr now,
     approvePayment pid adm cr now w
     = (NotApproved (closedMessage p) (Some p), w))
  /\ (Payment.status p = Payment.COMPLETED ->
      forall why adm now,
        rejectPayment pid why adm now w
        = (NotRejected "Pagamento já foi aprovado e não pode ser rejeitado"
             (Some p), w))
  /\ (Payment.status p = Payment.REJECTED ->
      forall why adm now,
        rejectPayment pid why adm now w
        = (NotRejected "Pagamento já foi rejeitado anteriormente" (Some p), w))
  /\ (Payment.status p = Payment.EXPIRED ->
      forall why adm now,
        (rejectPayment pid why adm now w).1
        = Rejected (reject p why (Some adm) now)
        /\ statusOf pid (rejectPayment pid why adm now w).2
           = Some Payment.REJECTED)
  /\ (forall adm cr now p' why adm2 now2,
        (approvePayment pid adm cr now w).1 = Approved p' cr ->
        rejectPayment pid why adm2 now2 (approvePayment pid adm cr now w).2
        = (NotRejected "Pagamento já foi aprovado e não pode ser rejeitado"
             (Some p'), (approvePayment pid adm cr now w).2))
  /\ (forall why adm now p' adm2 cr now2,
        (rejectPayment pid why adm now w).1 = Rejected p' ->
        approvePayment pid adm2 cr now2 (rejectPayment pid why adm now w).2
        = (NotApproved "Pagamento já foi rejeitado/expirado" (Some p'),
           (rejectPayment pid why adm now w).2)).
Proof.
  intros H. repeat split.
  - intros Ht adm cr now. apply approve_closed; [done|].
    by apply terminal_not_open.
  - intros Hs why adm now. by apply reject_completed.
  - intros Hs why adm now. by apply reject_rejected.
  - rewrite (reject_other pid why adm now w p H); [done|congruence..].
  - rewrite (reject_other pid why adm now w p H); [|congruence..].
    cbn [snd]. unfold statusOf. rewrite payments_recordActivity.
    unfold savePayment. cbn. by rewrite lookup_insert_eq.
  - intros adm cr now p' why adm2 now2. apply reject_after_approve.
  - intros why adm now p' adm2 cr now2. apply approve_after_reject.
Qed.

Lemma terminal_payments_witness :
  payments SaleExamples.expiredWorld !! "pay-1"
  = Some (withStatus SaleExamples.created.1 Payment.EXPIRED)
  /\ approvePayment "pay-1" "admin" SaleExamples.credentials 1900000
       SaleExamples.expiredWorld
     = (NotApproved "Pagamento já foi rejeitado/expirado"
          (Some (withStatus SaleExamples.created.1 Payment.EXPIRED)),
        SaleExamples.expiredWorld)
  /\ statusOf "pay-1" SaleExamples.lateRejection.2 = Some Payment.REJECTED.
Proof.
  assert (payments SaleExamples.expiredWorld !! "pay-1"
          = Some (withStatus SaleExamples.created.1 Payment.EXPIRED)) as H
    by reflexivity.
  split; [exact H|].
  pose proof (terminal_payments "pay-1" SaleExamples.expiredWorld _ H)
    as (Ha & _ & _ & He & _).
  split.
  - apply (Ha eq_refl).
  - apply (He eq_refl "prazo esgotado" "admin" 1900000).
Defined.

End TerminalStates.

Section SoldOnce.
Import PaymentService SaleNotions.

(** C4, as stated, fails.  The product was sold (sold and unavailable);
    [updateProduct] with [disponivel: true] is accepted and leaves it sold
    and available at once. *)
Lemma update_reopens_sold_product :
  soldImpliesUnavailable SaleExamples.soldWorld
  /\ (ProductService.updateProduct "prod-1" SaleExamples.reopen 9
        SaleExamples.soldWorld).1
     = ProductService.Done
         (Some
            {| Product.nome := "Conta Valorant"; Product.preco := (599 # 10)%Q;
               Product.descricao := "Conta com skins";
               Product.detalhes := "{}"; Product.imagens := [];
               Product.disponivel := true; Product.vendido := true;
               Product.dataVenda := Some 5; Product.compradoPor := Some "u9";
               Product.updatedAt := Some 9 |})
  /\ ~ soldImpliesUnavailable
         (ProductService.updateProduct "prod-1" SaleExamples.reopen 9
            SaleExamples.soldWorld).2.
Proof.
  split; [apply (bool_decide_unpack _); vm_compute; exact I|].
  split; [reflexivity|].
  intros H. specialize (H "prod-1" _ eq_refl eq_refl). discriminate.
Qed.

Lemma invariant_insert (w : World) (k : string) (p : Product.t)
    (m : gmap string Product.t) :
  soldImpliesUnavailable w ->
  m = <[k := p]> (products w) ->
  (Product.vendido p = true -> Product.disponivel p = false) ->
  map_Forall
    (fun _ p => Product.vendido p = true -> Product.disponivel p = false) m.
Proof. intros Hw -> Hp. by apply map_Forall_insert_2. Qed.

Lemma markProductAsSold_sold (pid uid : string) (now : Z) (w : World)
    (p : Product.t) :
  products w !! pid = Some p ->
  Product.vendido p = true ->
  ProductService.markProductAsSold pid uid now w
  = (ProductService.Fail "Produto já foi vendido", w).
Proof.
  intros H Hv. unfold ProductService.markProductAsSold. by rewrite H, Hv.
Qed.

Lemma approve_rejects_unavailable (pid adm : string)
    (cr : Payment.Credentials) (now : Z) (w : World) (p : Payment.t) :
  payments w !! pid = Some p ->
  isOpen (Payment.status p) = true ->
  usable (Payment.productId p) w = false ->
  (approvePayment pid adm cr now w).1
  = NotApproved "Produto não disponível"
      (Some (reject p "Produto não disponível" None now))
  /\ statusOf pid (approvePayment pid adm cr now w).2 = Some Payment.REJECTED
  /\ products (approvePayment pid adm cr now w).2 = products w.
Proof.
  intros H Ho Hu. rewrite (approve_unavailable pid adm cr now w p H Ho Hu).
  split; [reflexivity|]. split; [apply statusOf_savePayment|reflexivity].
Qed.

(** How an operation can change the product store: not at all, by selling
    an unsold product, or by an update that keeps the sale record. *)
Lemma step_products (g : string -> Payment.t -> string)
    (q : string -> string) (now : Z) (op : Op) (w : World) :
  products (step g q now op w) = products w
  \/ (exists k p buyer,
         products w !! k = Some p /\ Product.vendido p = false
         /\ products (step g q now op w)
            = <[k := ProductService.sell p buyer now]> (products w))
  \/ (exists k p p' u,
         op = Update k u /\ products w !! k = Some p
         /\ products (step g q now op w) = <[k := p']> (products w)
         /\ Product.vendido p' = Product.vendido p
         /\ Product.dataVenda p' = Product.dataVenda p
         /\ Product.compradoPor p' = Product.compradoPor p
         /\ Product.disponivel p'
            = ProductService.orKeep (Product.u_disponivel u)
                (Product.disponivel p)).
Proof.
  destruct op as [k uid|pid adm cr|pid why adm|d newId|k u]; cbn [step].
  - unfold ProductService.markProductAsSold.
    destruct (products w !! k) as [p|] eqn:Hp; [|by left].
    destruct (Product.vendido p) eqn:Hv; [by left|].
    right; left. by exists k, p, uid.
  - unfold approvePayment.
    destruct (payments w !! pid) as [p|]; [|by left].
    destruct (isOpen (Payment.status p)); [|by left]. cbn [negb].
    destruct (products w !! Payment.productId p) as [pr|] eqn:Hp; [|by left].
    destruct (Product.disponivel pr); [|by left].
    destruct (Product.vendido pr) eqn:Hv; [by left|].
    right; left. by exists (Payment.productId p), pr, (Payment.userId p).
  - unfold rejectPayment.
    destruct (payments w !! pid) as [p|]; [|by left].
    destruct (bool_decide _); [by left|].
    destruct (bool_decide _); by left.
  - by left.
  - unfold ProductService.updateProduct.
    destruct (products w !! k) as [p|] eqn:Hp; [|by left].
    right; right. eexists k, p, _, u. repeat split; done.
Qed.

(** C4, amended.  A product is marked sold at most once: marking a sold
    product fails and writes nothing; approving an open payment whose
    product is missing, unavailable or sold fails as unavailable and puts
    the payment in REJECTED; no operation changes the sale record of a sold
    product.  Sold implies unavailable is kept by marking, approving,
    rejecting, creating a payment, and by every product update that does
    not set the product available. *)
Theorem product_sold_once (g : string -> Payment.t -> string)
    (q : string -> string) (now : Z) (op : Op) (w : World) :
  (forall pid uid p,
      products w !! pid = Some p -> Product.vendido p = true ->
      ProductService.markProductAsSold pid uid now w
      = (ProductService.Fail "Produto já foi vendido", w))
  /\ (forall pid adm cr p,
         payments w !! pid = Some p ->
         isOpen (Payment.status p) = true ->
         usable (Payment.productId p) w = false ->
         (approvePayment pid adm cr now w).1
         = NotApproved "Produto não disponível"
             (Some (reject p "Produto não disponível" None now))
         /\ statusOf pid (approvePayment pid adm cr now w).2
            = Some Payment.REJECTED
         /\ products (approvePayment pid adm cr now w).2 = products w)
  /\ (forall k p,
         products w !! k = Some p -> Product.vendido p = true ->
         exists p',
           products (step g q now op w) !! k = Some p'
           /\ Product.vendido p' = true
           /\ Product.dataVenda p' = Product.dataVenda p
           /\ Product.compradoPor p' = Product.compradoPor p)
  /\ (soldImpliesUnavailable w ->
      keepsUnavailable op = true ->
      soldImpliesUnavailable (step g q now op w)).
Proof.
  split; [intros pid uid p Hp Hv; by apply (markProductAsSold_sold _ _ _ _ p)|].
  split; [intros; by apply approve_rejects_unavailable|].
  split.
  - intros k p Hk Hv.
    destruct (step_products g q now op w)
      as [->|[(k' & p0 & b & Hk' & Hv' & ->)
             |(k' & p0 & p' & u & _ & Hk' & -> & Hv' & Hd & Hc & _)]].
    + by exists p.
    + destruct (decide (k' = k)) as [->|Hne].
      * congruence.
      * exists p. by rewrite lookup_insert_ne.
    + destruct (decide (k' = k)) as [->|Hne].
      * exists p'. rewrite lookup_insert_eq.
        assert (p0 = p) as -> by congruence. by rewrite Hv', Hd, Hc.
      * exists p. by rewrite lookup_insert_ne.
  - intros Hw Hkeep. unfold soldImpliesUnavailable.
    destruct (step_products g q now op w)
      as [->|[(k' & p0 & b & Hk' & Hv' & ->)
             |(k' & p0 & p' & u & -> & Hk' & -> & Hv' & _ & _ & Hd)]].
    + exact Hw.
    + by apply map_Forall_insert_2.
    + apply map_Forall_insert_2; [|exact Hw].
      intros Hs. rewrite Hd. rewrite Hv' in Hs.
      pose proof (Hw k' p0 Hk' Hs) as Hp0.
      cbn in Hkeep. destruct (Product.u_disponivel u) as [[|]|]; done.
Qed.

Lemma product_sold_once_witness :
  products SaleExamples.soldWorld !! "prod-1"
  = Some (ProductService.sell SaleExamples.account "u9" 5)
  /\ ProductService.markProductAsSold "prod-1" "u1" 7 SaleExamples.soldWorld
     = (ProductService.Fail "Produto já foi vendido", SaleExamples.soldWorld)
  /\ statusOf "pay-1"
       (approvePayment "pay-1" "admin" SaleExamples.credentials 7
          SaleExamples.soldWorld).2 = Some Payment.REJECTED
  /\ soldImpliesUnavailable
       (step SaleExamples.pix SaleExamples.qr 7
          (Approve "pay-1" "admin" SaleExamples.credentials)
          SaleExamples.soldWorld).
Proof.
  pose proof (product_sold_once SaleExamples.pix SaleExamples.qr 7
                (Approve "pay-1" "admin" SaleExamples.credentials)
                SaleExamples.soldWorld) as (Hm & Ha & _ & Hi).
  split; [reflexivity|]. split; [by apply (Hm "prod-1" "u1" _ eq_refl)|].
  split.
  - apply (Ha "pay-1" "admin" SaleExamples.credentials
             SaleExamples.created.1); reflexivity.
  - apply Hi; [|reflexivity].
    apply (bool_decide_unpack _). vm_compute. exact I.
Defined.

End SoldOnce.

(** * Risk engine: proofs *)

Section RiskScore.
Import Fraud RiskNotions.

Lemma len_nonneg {A} (l : list A) : 0 <= len l.
Proof. unfold len. lia. Qed.

Lemma calculateRiskScore_bounds (profile : User.Profile)
    (history : option (list Action)) (now s : Z) :
  _calculateRiskScore profile history now = Returns s -> 0 <= s <= 100.
Proof.
  unfold _calculateRiskScore.
  destruct (hasSuspiciousDomain profile) as [b|e]; cbn [bind]; [|done].
  intros [= <-]. split; [|apply Z.le_min_r].
  apply Z.min_glb; [|lia]. repeat case_match; lia.
Qed.

Lemma assessUserRisk_try_bounds (env : Env) (uid : string) (now : Z)
    (c : Cache) (a : Assessment) (c' : Cache) :
  cacheBounded c ->
  assessUserRisk_try env uid now c = Returns (a, c') ->
  0 <= score a <= 100 /\ cacheBounded c'.
Proof.
  intros Hc. unfold assessUserRisk_try, cacheGet.
  destruct (c !! String.append cacheKey uid) as [[a0 exp]|] eqn:Hk.
  - destruct (now <? exp).
    + intros [= <- <-]. split; [apply (Hc _ _ Hk)|done].
    + destruct (getUserProfile env uid) as [[profile|]|]; cbn [bind]; [| |done].
      * destruct (getUserHistory env uid 100) as [h|]; cbn [bind]; [|done].
        destruct (_calculateRiskScore profile h now) as [s|] eqn:Hs;
          cbn [bind]; [|done].
        destruct (_identifyRiskFactors profile h s now); cbn [bind]; [|done].
        intros [= <- <-]. apply calculateRiskScore_bounds in Hs.
        split; [done|]. by apply map_Forall_insert_2.
      * intros [= <- <-]. split; [cbn; lia|].
        apply map_Forall_insert_2; [cbn; lia|done].
  - destruct (getUserProfile env uid) as [[profile|]|]; cbn [bind]; [| |done].
    + destruct (getUserHistory env uid 100) as [h|]; cbn [bind]; [|done].
      destruct (_calculateRiskScore profile h now) as [s|] eqn:Hs;
        cbn [bind]; [|done].
      destruct (_identifyRiskFactors profile h s now); cbn [bind]; [|done].
      intros [= <- <-]. apply calculateRiskScore_bounds in Hs.
      split; [done|]. by apply map_Forall_insert_2.
    + intros [= <- <-]. split; [cbn; lia|].
      apply map_Forall_insert_2; [cbn; lia|done].
Qed.

Lemma assessUserRisk_bounds (env : Env) (uid : string) (now : Z) (c : Cache) :
  cacheBounded c ->
  0 <= score (assessUserRisk env uid now c).1 <= 100
  /\ cacheBounded (assessUserRisk env uid now c).2.
Proof.
  intros Hc. unfold assessUserRisk.
  destruct (assessUserRisk_try env uid now c) as [[a c']|e] eqn:Ht.
  - by apply (assessUserRisk_try_bounds env uid now c).
  - split; [cbn; lia|done].
Qed.

(** The assessment is a function of what the readers and the cache return
    for the user, and of the clock reading. *)
Lemma assessUserRisk_deterministic (env1 env2 : Env) (uid : string) (now : Z)
    (c1 c2 : Cache) :
  getUserProfile env1 uid = getUserProfile env2 uid ->
  getUserHistory env1 uid 100 = getUserHistory env2 uid 100 ->
  cacheGet (String.append cacheKey uid) now c1
  = cacheGet (String.append cacheKey uid) now c2 ->
  (assessUserRisk env1 uid now c1).1 = (assessUserRisk env2 uid now c2).1.
Proof.
  intros Hp Hh Hc. unfold assessUserRisk, assessUserRisk_try.
  rewrite Hp, Hh, Hc.
  destruct (cacheGet _ now c2); [done|].
  destruct (getUserProfile env2 uid) as [[profile|]|]; cbn [bind]; [|done..].
  destruct (getUserHistory env2 uid 100) as [h|]; cbn [bind]; [|done].
  destruct (_calculateRiskScore profile h now) as [s|]; cbn [bind]; [|done].
  by destruct (_identifyRiskFactors profile h s now).
Qed.

(** The combined score is the user's score plus 15 for each of at most
    four transaction factors. *)
Lemma checkTransaction_try_score (env : Env) (tx : Transaction) (now : Z)
    (userRisk : Assessment) (v : Verdict) :
  checkTransaction_try env tx now userRisk = Returns v ->
  score userRisk <= v_score v <= score userRisk + 4 * 15.
Proof.
  unfold checkTransaction_try.
  destruct (bool_decide (risk userRisk = high)).
  { intros [= <-]. cbn. lia. }
  destruct (getPurchaseHistory env (userId tx)) as [h|]; cbn [bind]; [|done].
  set (fa := if muchHigherThanAverage _ _ then _ else _).
  set (fr := if repeatedPurchase _ _ _ then _ else _).
  set (fm := if unusualMethod _ _ then _ else _).
  assert (length fa <= 1 /\ length fr <= 1 /\ length fm <= 1)%nat
    as (Ha & Hr & Hm).
  { subst fa fr fm. repeat split; case_match; cbn; lia. }
  match goal with
  | |- bind ?m _ = _ -> _ => destruct m as [fi|] eqn:Hi
  end; cbn [bind]; [|done].
  assert (length fi <= 1)%nat as Hl.
  { destruct (truthy (ipAddress tx)) as [ip|].
    - destruct (getUserHistory env (userId tx) 50) as [[acts|]|];
        cbn [bind] in Hi; try done.
      injection Hi as <-. case_match; cbn; lia.
    - injection Hi as <-. cbn. lia. }
  intros [= <-]. cbn [v_score]. unfold len. rewrite !length_app. lia.
Qed.

Lemma checkTransaction_bounds (env : Env) (tx : Transaction) (now : Z)
    (c : Cache) :
  cacheBounded c ->
  0 <= v_score (checkTransaction env tx now c).1 <= 100 + 4 * 15.
Proof.
  intros Hc. unfold checkTransaction.
  pose proof (assessUserRisk_bounds env (userId tx) now c Hc) as [Hs _].
  destruct (assessUserRisk env (userId tx) now c) as [userRisk c1].
  cbn [fst] in Hs.
  destruct (checkTransaction_try env tx now userRisk) as [v|] eqn:Hv.
  - apply checkTransaction_try_score in Hv. cbn [fst]. lia.
  - cbn. lia.
Qed.

(** C7, as stated, fails for the combined score.  The user's score is 75
    (account a second old, disposable address, three attempts in the last
    hour); the order repeats a recent purchase at ten times the average
    amount, and the transaction check returns the score 105. *)
Lemma combined_score_exceeds_100 :
  score (assessUserRisk RiskExamples.bobEnv "bob" RiskExamples.now ∅).1 = 75
  /\ v_score (verifyTransaction RiskExamples.bobEnv RiskExamples.bobOrder
                RiskExamples.now ∅).1 = 105
  /\ ~ (0 <= v_score (verifyTransaction RiskExamples.bobEnv
                        RiskExamples.bobOrder RiskExamples.now ∅).1 <= 100).
Proof.
  assert (v_score (verifyTransaction RiskExamples.bobEnv RiskExamples.bobOrder
                     RiskExamples.now ∅).1 = 105) as H
    by (vm_compute; reflexivity).
  split; [vm_compute; reflexivity|]. split; [exact H|]. rewrite H. lia.
Qed.

(** C7, amended.  The assessment of a user is determined by the profile, the
    history, the cache entry and the clock reading; the score computed from
    a profile and a history lies in [0, 100], and so does the score
    [assessUserRisk] returns when the cached scores do.  The combined score
    of the transaction check is that score plus 15 for each of at most four
    transaction factors: it lies in [0, 160] and is not capped at 100. *)
Theorem risk_score_bounds (env env' : Env) (tx : Transaction) (now : Z)
    (c c' : Cache) :
  cacheBounded c ->
  getUserProfile env (userId tx) = getUserProfile env' (userId tx) ->
  getUserHistory env (userId tx) 100 = getUserHistory env' (userId tx) 100 ->
  cacheGet (String.append cacheKey (userId tx)) now c
  = cacheGet (String.append cacheKey (userId tx)) now c' ->
  (assessUserRisk env (userId tx) now c).1
  = (assessUserRisk env' (userId tx) now c').1
  /\ (forall profile history s,
         _calculateRiskScore profile history now = Returns s -> 0 <= s <= 100)
  /\ 0 <= score (assessUserRisk env (userId tx) now c).1 <= 100
  /\ 0 <= v_score (verifyTransaction env tx now c).1 <= 100 + 4 * 15.
Proof.
  intros Hc Hp Hh Hg.
  split; [by apply assessUserRisk_deterministic|].
  split; [intros profile history s; apply calculateRiskScore_bounds|].
  split; [by apply assessUserRisk_bounds|by apply checkTransaction_bounds].
Qed.

Lemma risk_score_bounds_witness :
  score (assessUserRisk RiskExamples.bobEnv "bob" RiskExamples.now ∅).1 <= 100
  /\ v_score (verifyTransaction RiskExamples.bobEnv RiskExamples.bobOrder
                RiskExamples.now ∅).1 <= 100 + 4 * 15.
Proof.
  pose proof (risk_score_bounds RiskExamples.bobEnv RiskExamples.bobEnv
                RiskExamples.bobOrder RiskExamples.now ∅ ∅
                (map_Forall_empty _) eq_refl eq_refl eq_refl)
    as (_ & _ & [_ Hs] & [_ Hv]).
  split; [exact Hs|exact Hv].
Defined.

End RiskScore.

Section FailOpen.
Import Fraud RiskNotions.

(** What makes the body of [assessUserRisk] throw. *)
Lemma assess_throws_on_profile_failure (env : Env) (uid : string) (now : Z)
    (c : Cache) (e : string) :
  cacheGet (String.append cacheKey uid) now c = None ->
  getUserProfile env uid = Throws e ->
  assessUserRisk_try env uid now c = Throws e.
Proof.
  intros Hc Hp. unfold assessUserRisk_try. by rewrite Hc, Hp.
Qed.

Lemma assess_throws_on_history_failure (env : Env) (uid : string) (now : Z)
    (c : Cache) (profile : User.Profile) (e : string) :
  cacheGet (String.append cacheKey uid) now c = None ->
  getUserProfile env uid = Returns (Some profile) ->
  getUserHistory env uid 100 = Throws e ->
  assessUserRisk_try env uid now c = Throws e.
Proof.
  intros Hc Hp Hh. unfold assessUserRisk_try. by rewrite Hc, Hp, Hh.
Qed.

Lemma emailDomain_without_at (mail : string) :
  length (split "@" mail) = 1%nat -> emailDomain mail = Throws "TypeError".
Proof.
  unfold emailDomain. destruct (split "@" mail) as [|a [|b l]]; done.
Qed.

Lemma check_throws_on_purchase_failure (env : Env) (tx : Transaction)
    (now : Z) (userRisk : Assessment) (e : string) :
  risk userRisk <> high ->
  getPurchaseHistory env (userId tx) = Throws e ->
  checkTransaction_try env tx now userRisk = Throws e.
Proof.
  intros Hr Hp. unfold checkTransaction_try.
  rewrite bool_decide_eq_false_2 by done. by rewrite Hp.
Qed.

(** C8, as stated, fails.  The address of eve has no at sign, so the body
    of [assessUserRisk] throws and the assessment is the low-risk default
    with score 0; the transaction check then goes on from that default and
    returns score 45, not 0, with the tag of the assessment and none of its
    own. *)
Lemma failed_assessment_scores_45 :
  threw (assessUserRisk_try FailOpenExamples.oddShopEnv "eve"
           RiskExamples.now ∅)
  /\ (assessUserRisk FailOpenExamples.oddShopEnv "eve" RiskExamples.now ∅).1
     = assessmentError RiskExamples.now
  /\ (verifyTransaction FailOpenExamples.oddShopEnv FailOpenExamples.eveOrder
        RiskExamples.now ∅).1
     = {| approved := true; v_score := 45;
          reasons := ["assessment_error"; "amount_much_higher_than_average";
                      "repeated_purchase"; "unusual_payment_method"] |}.
Proof.
  split; [exact I|]. split; [reflexivity|]. vm_compute. reflexivity.
Qed.

(** The body of [assessUserRisk] throws in three cases only, all after a
    miss in the cache: the profile reader throws, the history reader
    throws, or the address of the profile has no second part. *)
Lemma assess_throws_iff (env : Env) (uid : string) (now : Z) (c : Cache) :
  threw (assessUserRisk_try env uid now c)
  <-> cacheGet (String.append cacheKey uid) now c = None
      /\ (threw (getUserProfile env uid)
          \/ exists profile,
              getUserProfile env uid = Returns (Some profile)
              /\ (threw (getUserHistory env uid 100)
                  \/ threw (hasSuspiciousDomain profile))).
Proof.
  unfold assessUserRisk_try.
  destruct (cacheGet (String.append cacheKey uid) now c) as [a|].
  { cbn. split; [done|]. by intros [? _]. }
  destruct (getUserProfile env uid) as [[profile|]|e]; cbn [bind threw].
  - destruct (getUserHistory env uid 100) as [h|e]; cbn [bind threw].
    + unfold _calculateRiskScore, _identifyRiskFactors.
      destruct (hasSuspiciousDomain profile) as [b|e] eqn:Hd;
        cbn [bind threw].
      * split; [done|]. intros [_ [[]|(p' & [= <-] & [[]|H])]].
        by rewrite Hd in H.
      * split; [|done]. intros _. split; [done|]. right. exists profile.
        split; [done|]. right. by rewrite Hd.
    + split; [|done]. intros _. split; [done|]. right. exists profile.
      split; [done|]. by left.
  - split; [done|]. intros [_ [[]|(p' & [=] & _)]].
  - split; [|done]. intros _. split; [done|]. by left.
Qed.

(** The transaction check that starts from the default of a failed
    assessment, when it returns: it approves, with 15 points for each of its
    own findings, of which there are at most four. *)
Lemma check_after_failed_assessment (env : Env) (tx : Transaction) (now : Z)
    (v : Verdict) :
  checkTransaction_try env tx now (assessmentError now) = Returns v ->
  approved v = true
  /\ "assessment_error" ∈ reasons v
  /\ ("verification_error" ∉ reasons v)
  /\ v_score v = 15 * (len (reasons v) - 1)
  /\ 0 <= v_score v <= 60.
Proof.
  unfold checkTransaction_try.
  rewrite bool_decide_eq_false_2 by done.
  destruct (getPurchaseHistory env (userId tx)) as [uh|e]; cbn [bind];
    [|done].
  destruct (muchHigherThanAverage (amount tx) uh);
    destruct (repeatedPurchase (productId tx) now uh);
    destruct (unusualMethod (paymentMethod tx) uh);
    (destruct (truthy (ipAddress tx)) as [ip|]; cbn [bind];
     [destruct (getUserHistory env (userId tx) 50) as [[acts|]|e];
      cbn [bind]; [|done..];
      destruct ((0 <? len (previousIPs acts))
                && negb (bool_decide (ip ∈ previousIPs acts)))|]);
    intros [= <-];
    (split; [reflexivity|]);
    (split; [apply (bool_decide_unpack _); vm_compute; exact I|]);
    (split; [apply (bool_decide_unpack _); vm_compute; exact I|]);
    (split; [reflexivity|]); unfold len; simpl; lia.
Qed.

(** C8, amended.  The risk engine returns a result on every input, and an
    internal failure never reaches the caller.  The body of [assessUserRisk]
    throws exactly when, after a miss in the cache, the profile reader or
    the history reader throws or the address of the profile has no second
    part; the result then is risk low with score 0 and the factor
    assessment_error, and the cache is left as it was.  When the transaction
    check itself throws after the assessment, the result is approved with
    score 0 and the reason verification_error.  A failure inside the
    assessment is not a failure of the check: when the check then returns,
    it approves with the reason assessment_error, without
    verification_error, and with a score of 15 for each of its own findings,
    from 0 to 60. *)
Theorem risk_engine_fails_open (env : Env) (tx : Transaction) (now : Z)
    (c : Cache) :
  (threw (assessUserRisk_try env (userId tx) now c)
   <-> cacheGet (String.append cacheKey (userId tx)) now c = None
       /\ (threw (getUserProfile env (userId tx))
           \/ exists profile,
               getUserProfile env (userId tx) = Returns (Some profile)
               /\ (threw (getUserHistory env (userId tx) 100)
                   \/ threw (hasSuspiciousDomain profile))))
  /\ (threw (assessUserRisk_try env (userId tx) now c) ->
      assessUserRisk env (userId tx) now c
      = ({| risk := low; score := 0; factors := ["assessment_error"];
            timestamp := now |}, c))
  /\ (threw (checkTransaction_try env tx now
               (assessUserRisk env (userId tx) now c).1) ->
      (verifyTransaction env tx now c).1
      = {| approved := true; v_score := 0;
           reasons := ["verification_error"] |})
  /\ (threw (assessUserRisk_try env (userId tx) now c) ->
      ~ threw (checkTransaction_try env tx now
                 (assessUserRisk env (userId tx) now c).1) ->
      approved (verifyTransaction env tx now c).1 = true
      /\ "assessment_error" ∈ reasons (verifyTransaction env tx now c).1
      /\ ("verification_error" ∉ reasons (verifyTransaction env tx now c).1)
      /\ v_score (verifyTransaction env tx now c).1
         = 15 * (len (reasons (verifyTransaction env tx now c).1) - 1)
      /\ 0 <= v_score (verifyTransaction env tx now c).1 <= 60).
Proof.
  split; [apply assess_throws_iff|].
  assert (threw (assessUserRisk_try env (userId tx) now c) ->
          assessUserRisk env (userId tx) now c = (assessmentError now, c))
    as Ha.
  { unfold assessUserRisk.
    by destruct (assessUserRisk_try env (userId tx) now c). }
  split; [exact Ha|]. split.
  - unfold verifyTransaction, checkTransaction.
    destruct (assessUserRisk env (userId tx) now c) as [userRisk c1].
    cbn [fst]. by destruct (checkTransaction_try env tx now userRisk).
  - intros Ht. unfold verifyTransaction, checkTransaction.
    rewrite (Ha Ht). cbn [fst].
    destruct (checkTransaction_try env tx now (assessmentError now))
      as [v|e] eqn:Hv; [|by intros []].
    intros _. cbn [fst]. by apply (check_after_failed_assessment env tx now).
Qed.

Lemma risk_engine_fails_open_witness :
  threw (assessUserRisk_try RiskExamples.brokenEnv "u1" RiskExamples.now ∅)
  /\ assessUserRisk RiskExamples.brokenEnv "u1" RiskExamples.now ∅
     = (assessmentError RiskExamples.now, ∅)
  /\ (verifyTransaction RiskExamples.brokenEnv RiskExamples.probe
        RiskExamples.now ∅).1 = verificationError
  /\ v_score
       (verifyTransaction FailOpenExamples.oddShopEnv
          FailOpenExamples.eveOrder RiskExamples.now ∅).1
     = 15 * (len
               (reasons
                  (verifyTransaction FailOpenExamples.oddShopEnv
                     FailOpenExamples.eveOrder RiskExamples.now ∅).1) - 1).
Proof.
  pose proof (risk_engine_fails_open RiskExamples.brokenEnv RiskExamples.probe
                RiskExamples.now ∅) as (_ & Ha & Hv & _).
  pose proof (risk_engine_fails_open FailOpenExamples.oddShopEnv
                FailOpenExamples.eveOrder RiskExamples.now ∅)
    as (_ & _ & _ & Hc).
  split; [exact I|]. split; [exact (Ha I)|]. split; [exact (Hv I)|].
  apply (Hc I). intros H. exact H.
Defined.

(** An address without an at sign makes the scoring throw; the caller still
    gets the low-risk default. *)
Example malformed_email_fails_open :
  _calculateRiskScore RiskExamples.oddProfile (Some []) RiskExamples.now
  = Throws "TypeError"
  /\ (assessUserRisk RiskExamples.oddEnv "eve" RiskExamples.now ∅).1
     = assessmentError RiskExamples.now.
Proof. split; reflexivity. Qed.

End FailOpen.

(** * Further properties of the loyalty ledger *)

Module LedgerExtra.
Import Loyalty LoyaltyService Notions.

(** The entry and the account a successful credit writes. *)
Definition creditTx (now points : Z) (why : string) (md : Metadata)
  : Transaction :=
  {| id := pretty now; amount := points; reason := why; createdAt := now;
     expiresAt := now + Config.expirationDays * msPerDay; status := ACTIVE;
     relatedProductId := productId md; relatedPaymentId := paymentId md;
     actionBy := None |}.

Definition credited (now points : Z) (why : string) (md : Metadata)
    (l : Account) : Account :=
  {| userName := userName l; totalPoints := totalPoints l + points;
     lifetimePoints := lifetimePoints l + points;
     level := _calculateLoyaltyLevel (lifetimePoints l + points);
     transactions := Some (txList l ++ [creditTx now points why md]);
     lastUpdated := now; _expiredPoints := _expiredPoints l |}.

(** The entry and the account a successful debit writes. *)
Definition debitTx (now points : Z) (why : string) (md : Metadata)
  : Transaction :=
  {| id := pretty now; amount := - points; reason := why; createdAt := now;
     expiresAt := now + 365 * msPerDay; status := USED;
     relatedProductId := productId md; relatedPaymentId := paymentId md;
     actionBy := adminId md |}.

Definition debited (now points : Z) (why : string) (md : Metadata)
    (l : Account) : Account :=
  {| userName := userName l; totalPoints := totalPoints l - points;
     lifetimePoints := lifetimePoints l; level := level l;
     transactions := Some (txList l ++ [debitTx now points why md]);
     lastUpdated := now; _expiredPoints := _expiredPoints l |}.

(** The accounts an operation at [now] can write under [uid]. *)
Inductive Produces (now : Z) (w : World) (uid : string) : Account -> Prop :=
| ProducesCredit l points why md :
    loyalties w !! uid = Some l -> 0 < points ->
    Produces now w uid (credited now points why md l)
| ProducesFirstCredit profile points why md :
    loyalties w !! uid = None -> 0 < points ->
    Produces now w uid (credited now points why md (newAccount profile now))
| ProducesDebit l points why md :
    loyalties w !! uid = Some l -> 0 < points <= totalPoints l ->
    Produces now w uid (debited now points why md l)
| ProducesSweep l txs :
    loyalties w !! uid = Some l -> transactions l = Some txs ->
    0 < expiredSum now txs ->
    Produces now w uid (sweptAccount now l txs).

Definition ledgerSum (txs : list Transaction) : Z :=
  foldr (fun tx sum => amount tx + sum) 0 txs.

(** The balance is the sum of the entries of the account. *)
Definition balanced (l : Account) : Prop :=
  totalPoints l = ledgerSum (txList l).

(** The stored tier is the tier of the stored lifetime points. *)
Definition tiered (l : Account) : Prop :=
  level l = _calculateLoyaltyLevel (lifetimePoints l).

(** The virtual property [activePoints] of the account schema: the sum of
    the entries that are ACTIVE and expire after [now]. *)
Definition isLive (now : Z) (tx : Transaction) : bool :=
  bool_decide (status tx = ACTIVE) && (now <? expiresAt tx).

Definition activePoints (now : Z) (l : Account) : Z :=
  ledgerSum (filter (fun tx => isLive now tx = true) (txList l)).

(** Most recent first. *)
Definition newerFirst (a b : TxView.t) : Prop := TxView.date b <= TxView.date a.

End LedgerExtra.

Module LedgerExtraExamples.
Import Loyalty.

(** An account whose balance and tier do not match its entries and its
    lifetime points. *)
Definition staleAccount : Account :=
  {| userName := "rui"; totalPoints := 5; lifetimePoints := 2500;
     level := 1; transactions := Some []; lastUpdated := 0;
     _expiredPoints := None |}.

Definition mixedWorld : World :=
  {| payments := ∅; products := ∅;
     loyalties := {[ "u1" := Examples.anaAccount; "u2" := staleAccount ]};
     users := ∅; activities := [] |}.

End LedgerExtraExamples.

Section LedgerEquations.
Import Loyalty LoyaltyService Notions LedgerExtra.

Lemma addPoints_existing (uid : string) (points : Z) (why : string)
    (md : Metadata) (now : Z) (w : World) (l : Account) :
  0 < points ->
  loyalties w !! uid = Some l ->
  addPoints uid points why md now w
  = (AddOk (totalPoints l + points)
       (_calculateLoyaltyLevel (lifetimePoints l + points)),
     saveLoyalty uid (credited now points why md l) w).
Proof.
  intros Hp Hl. unfold addPoints. apply Z.leb_gt in Hp. by rewrite Hp, Hl.
Qed.

Lemma addPoints_first (uid : string) (points : Z) (why : string)
    (md : Metadata) (now : Z) (w : World) (profile : User.Profile) :
  0 < points ->
  loyalties w !! uid = None ->
  users w !! uid = Some profile ->
  addPoints uid points why md now w
  = (AddOk points (_calculateLoyaltyLevel points),
     saveLoyalty uid (credited now points why md (newAccount profile now))
       (saveLoyalty uid (newAccount profile now) w)).
Proof.
  intros Hp Hl Hu. unfold addPoints. apply Z.leb_gt in Hp.
  by rewrite Hp, Hl, Hu.
Qed.

Lemma usePoints_ok (uid : string) (points : Z) (why : string)
    (md : Metadata) (now : Z) (w : World) (l : Account) :
  0 < points <= totalPoints l ->
  loyalties w !! uid = Some l ->
  usePoints uid points why md now w
  = (UseOk (totalPoints l - points) (level l),
     saveLoyalty uid (debited now points why md l) w).
Proof.
  intros [Hp Hle] Hl. unfold usePoints. apply Z.leb_gt in Hp.
  apply Z.ltb_ge in Hle. by rewrite Hp, Hl, Hle.
Qed.

Lemma loyalties_save_twice (uid : string) (l l' : Account) (w : World) :
  loyalties (saveLoyalty uid l' (saveLoyalty uid l w))
  = <[uid := l']> (loyalties w).
Proof. unfold saveLoyalty. cbn. apply insert_insert_eq. Qed.

(** Every operation of the ledger either leaves the store of accounts as
    it was or writes one of the accounts of [Produces] under one key. *)
Lemma step_loyalties (now : Z) (op : Op) (w : World) :
  loyalties (step now op w) = loyalties w
  \/ exists uid l', loyalties (step now op w) = <[uid := l']> (loyalties w)
                    /\ Produces now w uid l'.
Proof.
  destruct op as [u pts why md|u pts why md|u|u]; cbn [step].
  - destruct (decide (0 < pts)) as [Hp|Hp].
    + destruct (loyalties w !! u) as [l|] eqn:Hl.
      * rewrite (addPoints_existing _ _ _ _ _ _ _ Hp Hl). right.
        exists u, (credited now pts why md l). split; [done|].
        by constructor.
      * destruct (users w !! u) as [profile|] eqn:Hu.
        -- rewrite (addPoints_first _ _ _ _ _ _ _ Hp Hl Hu). right.
           exists u, (credited now pts why md (newAccount profile now)).
           split; [apply loyalties_save_twice|]. by constructor.
        -- left. unfold addPoints. rewrite Hl, Hu. by destruct (pts <=? 0).
    + left. unfold addPoints. by rewrite (proj2 (Z.leb_le pts 0)) by lia.
  - destruct (loyalties w !! u) as [l|] eqn:Hl.
    + destruct (decide (0 < pts <= totalPoints l)) as [Hp|Hp].
      * rewrite (usePoints_ok _ _ _ _ _ _ _ Hp Hl). right.
        exists u, (debited now pts why md l). split; [done|].
        by constructor.
      * left. unfold usePoints. rewrite Hl.
        destruct (pts <=? 0) eqn:E1; [done|].
        destruct (totalPoints l <? pts) eqn:E2; [done|]. lia.
    + left. unfold usePoints. rewrite Hl. by destruct (pts <=? 0).
  - destruct (loyalties w !! u) as [l|] eqn:Hl.
    + rewrite (getUserPoints_found _ _ _ _ Hl). cbn [snd].
      destruct (transactions l) as [txs|] eqn:Htx.
      * destruct (0 <? expiredSum now txs) eqn:Hpos.
        -- rewrite (processExpiredPoints_due _ _ _ _ _ Htx Hpos). right.
           exists u, (sweptAccount now l txs). split; [done|].
           constructor; [done..|lia].
        -- left. by rewrite (processExpiredPoints_nothing_due _ _ _ _ _ Htx Hpos).
      * left. by rewrite (processExpiredPoints_null _ _ _ _ Htx).
    + left. unfold getUserPoints. by rewrite Hl.
  - destruct (loyalties w !! u) as [l|] eqn:Hl; [|by left].
    destruct (transactions l) as [txs|] eqn:Htx.
    + destruct (0 <? expiredSum now txs) eqn:Hpos.
      * rewrite (processExpiredPoints_due _ _ _ _ _ Htx Hpos). right.
        exists u, (sweptAccount now l txs). split; [done|].
        constructor; [done..|lia].
      * left. by rewrite (processExpiredPoints_nothing_due _ _ _ _ _ Htx Hpos).
    + left. by rewrite (processExpiredPoints_null _ _ _ _ Htx).
Qed.

(** An invariant of one account, whatever the other accounts are: a
    property that every kind of write keeps, and that holds of a user's
    account before a run if there is one, holds of it after the run. *)
Lemma run_account_at (P : Account -> Prop) :
  (forall profile now, P (newAccount profile now)) ->
  (forall now points why md l,
      0 < points -> P l -> P (credited now points why md l)) ->
  (forall now points why md l,
      0 < points <= totalPoints l -> P l -> P (debited now points why md l)) ->
  (forall now l txs,
      transactions l = Some txs -> 0 < expiredSum now txs -> P l ->
      P (sweptAccount now l txs)) ->
  forall ops w uid,
    (forall l, loyalties w !! uid = Some l -> P l) ->
    forall l', loyalties (run ops w) !! uid = Some l' -> P l'.
Proof.
  intros Hnew Hcredit Hdebit Hsweep ops.
  induction ops as [|[now op] ops IH]; intros w uid Hw l' Hl'.
  { by apply Hw. }
  unfold run in *. cbn [fold_left] in Hl'.
  apply (IH (step now op w) uid); [|done]. clear Hl' l'.
  intros l1 Hl1.
  destruct (step_loyalties now op w) as [E|(uid0 & l0 & E & Hp)];
    rewrite E in Hl1; [by apply Hw|].
  destruct (decide (uid0 = uid)) as [->|Hne].
  - rewrite lookup_insert_eq in Hl1. injection Hl1 as <-.
    destruct Hp as [l pts why md Hl Hpos|profile pts why md Hl Hpos
                   |l pts why md Hl Hpos|l txs Hl Htx Hpos].
    + apply Hcredit; [done|]. by apply Hw.
    + apply Hcredit; [done|]. apply Hnew.
    + apply Hdebit; [done|]. by apply Hw.
    + apply Hsweep; [done..|]. by apply Hw.
  - rewrite lookup_insert_ne in Hl1 by done. by apply Hw.
Qed.

End LedgerEquations.

Section LedgerInvariants.
Import Loyalty LoyaltyService Notions LedgerExtra.

Lemma ledgerSum_app (l1 l2 : list Transaction) :
  ledgerSum (l1 ++ l2) = ledgerSum l1 + ledgerSum l2.
Proof.
  unfold ledgerSum. induction l1 as [|tx l1 IH]; cbn; [done|].
  rewrite IH. lia.
Qed.

Lemma ledgerSum_swept (now : Z) (txs : list Transaction) :
  ledgerSum (sweepTx now <$> txs) = ledgerSum txs.
Proof.
  unfold ledgerSum. induction txs as [|tx txs IH]; [done|].
  rewrite fmap_cons. cbn [foldr]. rewrite IH. f_equal.
  unfold sweepTx. by destruct (isExpiring now tx).
Qed.

Lemma balanced_credited (now points : Z) (why : string) (md : Metadata)
    (l : Account) :
  balanced l -> balanced (credited now points why md l).
Proof.
  unfold balanced, credited, txList. cbn. intros ->.
  rewrite ledgerSum_app. cbn. lia.
Qed.

Lemma balanced_debited (now points : Z) (why : string) (md : Metadata)
    (l : Account) :
  balanced l -> balanced (debited now points why md l).
Proof.
  unfold balanced, debited, txList. cbn. intros ->.
  rewrite ledgerSum_app. cbn. lia.
Qed.

Lemma balanced_swept (now : Z) (l : Account) (txs : list Transaction) :
  transactions l = Some txs -> balanced l -> balanced (sweptAccount now l txs).
Proof.
  unfold balanced, sweptAccount, txList. cbn. intros -> ->.
  rewrite ledgerSum_app, ledgerSum_swept. cbn. lia.
Qed.

(** X1.  The balance of an account stays the sum of the amounts of its
    entries.  For every user taken alone: if the account of the user, when
    there is one, has [totalPoints] equal to the sum over [transactions],
    then so has the account of that user after any run of credits, debits,
    balance reads and sweeps, for any user, whatever the state of the other
    accounts. *)
Theorem balance_is_ledger_sum (ops : list (Z * Op)) (w : World)
    (uid : string) (l' : Account) :
  (forall l, loyalties w !! uid = Some l -> balanced l) ->
  loyalties (run ops w) !! uid = Some l' ->
  balanced l'.
Proof.
  intros Hw. apply (run_account_at balanced); [| | | |exact Hw].
  - intros profile now. reflexivity.
  - intros now points why md l _. apply balanced_credited.
  - intros now points why md l _. apply balanced_debited.
  - intros now l txs Htx _. by apply balanced_swept.
Qed.

Lemma balance_is_ledger_sum_witness :
  ~ balanced LedgerExtraExamples.staleAccount
  /\ exists l',
      loyalties
        (run [(500, Debit "u1" 30 "REDEEM" noMetadata); (2000, Read "u1");
              (2100, Credit "u2" 10 "BONUS" noMetadata);
              (2500, Credit "u1" 40 "BONUS" noMetadata)]
           LedgerExtraExamples.mixedWorld) !! "u1" = Some l'
      /\ balanced l'.
Proof.
  split; [intros H; vm_compute in H; discriminate|].
  eexists. split; [vm_compute; reflexivity|].
  apply (balance_is_ledger_sum
           [(500, Debit "u1" 30 "REDEEM" noMetadata); (2000, Read "u1");
            (2100, Credit "u2" 10 "BONUS" noMetadata);
            (2500, Credit "u1" 40 "BONUS" noMetadata)]
           LedgerExtraExamples.mixedWorld "u1").
  - intros l H. vm_compute in H. injection H as <-. reflexivity.
  - vm_compute. reflexivity.
Defined.

(** X2.  The stored tier follows the lifetime points.  For every user taken
    alone: if the account of the user, when there is one, has
    [level = _calculateLoyaltyLevel(lifetimePoints)], then so has the
    account of that user after any run of credits, debits, balance reads
    and sweeps, for any user, whatever the state of the other accounts. *)
Theorem level_follows_lifetime (ops : list (Z * Op)) (w : World)
    (uid : string) (l' : Account) :
  (forall l, loyalties w !! uid = Some l -> tiered l) ->
  loyalties (run ops w) !! uid = Some l' ->
  tiered l'.
Proof.
  intros Hw. apply (run_account_at tiered); [| | | |exact Hw];
    unfold tiered; cbn; auto.
Qed.

Lemma level_follows_lifetime_witness :
  ~ tiered LedgerExtraExamples.staleAccount
  /\ exists l',
      loyalties
        (run [(10, Credit "u1" 450 "PURCHASE" noMetadata);
              (20, Debit "u2" 5 "REDEEM" noMetadata);
              (2000, Read "u1")] LedgerExtraExamples.mixedWorld) !! "u1"
      = Some l'
      /\ level l' = 2 /\ tiered l'.
Proof.
  split; [intros H; vm_compute in H; discriminate|].
  eexists. split; [vm_compute; reflexivity|]. split; [reflexivity|].
  apply (level_follows_lifetime
           [(10, Credit "u1" 450 "PURCHASE" noMetadata);
            (20, Debit "u2" 5 "REDEEM" noMetadata);
            (2000, Read "u1")] LedgerExtraExamples.mixedWorld "u1").
  - intros l H. vm_compute in H. injection H as <-. reflexivity.
  - vm_compute. reflexivity.
Defined.

(** X3.  What [addPoints] refuses, and what it reports.  While no call to
    the database or to the audit log throws, a credit succeeds exactly when
    the amount is positive and the user has a loyalty account or a profile.
    Its two refusals, of an amount that is not positive and of a user with
    neither account nor profile, come before any write and leave every store
    as it was.  A successful credit returns the balance and the tier now
    stored for the user, and that balance is the earlier one (0 without an
    account) plus the amount. *)
Theorem addPoints_refusals_and_result (uid : string) (points : Z)
    (why : string) (md : Metadata) (now : Z) (w : World) :
  ((exists balance tier,
       (addPoints uid points why md now w).1 = AddOk balance tier)
   <-> 0 < points
       /\ (is_Some (loyalties w !! uid) \/ is_Some (users w !! uid)))
  /\ (points <= 0 ->
      addPoints uid points why md now w
      = (AddFail "Quantidade de pontos deve ser maior que zero", w))
  /\ (0 < points ->
      loyalties w !! uid = None -> users w !! uid = None ->
      addPoints uid points why md now w
      = (AddFail "Usuário não encontrado", w))
  /\ (forall balance tier,
         (addPoints uid points why md now w).1 = AddOk balance tier ->
         exists l',
           loyalties (addPoints uid points why md now w).2 !! uid = Some l'
           /\ totalPoints l' = balance /\ level l' = tier
           /\ tier = _calculateLoyaltyLevel (lifetimePoints l')
           /\ balance
              = match loyalties w !! uid with
                | Some l => totalPoints l
                | None => 0
                end + points).
Proof.
  destruct (decide (0 < points)) as [Hp|Hp].
  - destruct (loyalties w !! uid) as [l|] eqn:Hl.
    + rewrite (addPoints_existing _ _ _ _ _ _ _ Hp Hl). cbn [fst snd].
      split; [|split; [lia|split; [done|]]].
      * split; [intros _; split; [done|left; by eexists]|eauto].
      * intros balance tier [= <- <-]. eexists.
        split; [apply lookup_insert_eq|]. done.
    + destruct (users w !! uid) as [profile|] eqn:Hu.
      * rewrite (addPoints_first _ _ _ _ _ _ _ Hp Hl Hu). cbn [fst snd].
        split; [|split; [lia|split; [done|]]].
        -- split; [intros _; split; [done|right; by eexists]|eauto].
        -- intros balance tier [= <- <-]. eexists.
           split; [apply lookup_insert_eq|]. cbn. by rewrite Z.add_0_l.
      * assert (addPoints uid points why md now w
                = (AddFail "Usuário não encontrado", w)) as ->.
        { unfold addPoints. rewrite Hl, Hu.
          by rewrite (proj2 (Z.leb_gt points 0)) by done. }
        cbn [fst snd]. split; [|split; [lia|split; [done|done]]].
        split; [by intros (? & ? & ?)|].
        intros [_ [[? ?]|[? ?]]]; done.
  - assert (addPoints uid points why md now w
            = (AddFail "Quantidade de pontos deve ser maior que zero", w))
      as ->.
    { unfold addPoints. by rewrite (proj2 (Z.leb_le points 0)) by lia. }
    cbn [fst snd]. split; [|split; [done|split; [lia|done]]].
    split; [by intros (? & ? & ?)|]. intros [? _]. lia.
Qed.

(** X4.  A debit is all or nothing and never overdraws: a failed
    [usePoints] leaves every store as it was; a successful one took a
    positive amount not above the stored balance, and the remaining balance
    it returns is the stored one and is not negative. *)
Theorem usePoints_all_or_nothing (uid : string) (points : Z) (why : string)
    (md : Metadata) (now : Z) (w : World) :
  match (usePoints uid points why md now w).1 with
  | UseOk remaining tier =>
      exists l l',
        loyalties w !! uid = Some l
        /\ 0 < points <= totalPoints l
        /\ remaining = totalPoints l - points /\ 0 <= remaining
        /\ loyalties (usePoints uid points why md now w).2 !! uid = Some l'
        /\ totalPoints l' = remaining
        /\ lifetimePoints l' = lifetimePoints l
        /\ level l' = level l /\ tier = level l
  | UseFail _ | UseInsufficient _ _ _ =>
      (usePoints uid points why md now w).2 = w
  end.
Proof.
  destruct (loyalties w !! uid) as [l|] eqn:Hl.
  - destruct (decide (0 < points <= totalPoints l)) as [Hp|Hp].
    + rewrite (usePoints_ok _ _ _ _ _ _ _ Hp Hl). cbn [fst snd].
      exists l, (debited now points why md l).
      repeat split; try done; try lia. apply lookup_insert_eq.
    + unfold usePoints. rewrite Hl.
      destruct (points <=? 0) eqn:E1; [done|].
      destruct (totalPoints l <? points) eqn:E2; [done|]. lia.
  - unfold usePoints. rewrite Hl. by destruct (points <=? 0).
Qed.

End LedgerInvariants.

Section LedgerExpiry.
Import Loyalty LoyaltyService Notions LedgerExtra.

(** The stores after the first credit of a user who has a profile. *)
Lemma first_credit_account (uid : string) (points : Z) (why : string)
    (md : Metadata) (t0 : Z) (w : World) (profile : User.Profile) :
  0 < points ->
  loyalties w !! uid = None ->
  users w !! uid = Some profile ->
  loyalties (addPoints uid points why md t0 w).2 !! uid
  = Some (credited t0 points why md (newAccount profile t0)).
Proof.
  intros Hp Hl Hu. rewrite (addPoints_first _ _ _ _ _ _ _ Hp Hl Hu).
  cbn [snd]. rewrite loyalties_save_twice. apply lookup_insert_eq.
Qed.

Lemma isExpiring_creditTx (t t0 points : Z) (why : string) (md : Metadata) :
  isExpiring t (creditTx t0 points why md) = (t0 + 90 * msPerDay <=? t).
Proof.
  unfold isExpiring, creditTx. cbn [status expiresAt].
  by rewrite bool_decide_eq_true_2.
Qed.

Lemma isExpiring_debitTx (t t1 points : Z) (why : string) (md : Metadata) :
  isExpiring t (debitTx t1 points why md) = false.
Proof. reflexivity. Qed.



(** X6.  The sweep takes back the whole credit, spent or not.  After a
    first credit of [a] points and a debit of [d] of them, a balance read
    once the credit is due shows the balance [- d]: the points already spent
    are deducted a second time. *)
Theorem spent_points_expire_again (uid : string) (a d : Z) (why why' : string)
    (md md' : Metadata) (t0 t1 t2 : Z) (w : World) (profile : User.Profile) :
  0 < d <= a ->
  loyalties w !! uid = None ->
  users w !! uid = Some profile ->
  t0 + 90 * msPerDay <= t2 ->
  PointsView.amount
    (getUserPoints uid t2
       (usePoints uid d why' md' t1 (addPoints uid a why md t0 w).2).2).1
  = - d.
Proof.
  intros Hd Hl Hu Ht.
  assert (0 < a) as Ha by lia.
  pose proof (first_credit_account uid a why md t0 w profile Ha Hl Hu) as Hacc.
  set (w1 := (addPoints uid a why md t0 w).2) in *.
  assert (0 < d <= totalPoints
                     (credited t0 a why md (newAccount profile t0))) as Hd'
    by (cbn; lia).
  rewrite (usePoints_ok uid d why' md' t1 w1 _ Hd' Hacc).
  cbn [snd].
  rewrite (getUserPoints_found uid t2 _
             (debited t1 d why' md' (credited t0 a why md (newAccount profile t0))));
    [|apply lookup_insert_eq].
  assert ((t0 + 90 * msPerDay <=? t2) = true) as Hle by (apply Z.leb_le; lia).
  assert (expiredSum t2 [creditTx t0 a why md; debitTx t1 d why' md'] = a)
    as Hsum.
  { cbn [expiredSum]. rewrite isExpiring_creditTx, isExpiring_debitTx, Hle.
    cbn [amount creditTx]. lia. }
  rewrite (processExpiredPoints_due t2 uid
             (debited t1 d why' md'
                (credited t0 a why md (newAccount profile t0))) _
             [creditTx t0 a why md; debitTx t1 d why' md'] eq_refl).
  - cbn [fst withMarker sweptAccount totalPoints PointsView.amount viewOf].
    rewrite Hsum. cbn. lia.
  - rewrite Hsum. by apply Z.ltb_lt.
Qed.

Lemma spent_points_expire_again_witness :
  PointsView.amount
    (getUserPoints "u1" (91 * msPerDay)
       (usePoints "u1" 80 "REDEEM" noMetadata 1000
          (addPoints "u1" 100 "PURCHASE" noMetadata 0
             SaleExamples.shopWorld).2).2).1
  = - 80.
Proof.
  apply (spent_points_expire_again "u1" 100 80 "PURCHASE" "REDEEM" noMetadata
           noMetadata 0 1000 (91 * msPerDay) SaleExamples.shopWorld
           SaleExamples.ana);
    [lia|reflexivity|reflexivity|unfold msPerDay; lia].
Defined.

Lemma live_swept (now : Z) (txs : list Transaction) :
  filter (fun tx => isLive now tx = true) (sweepTx now <$> txs)
  = filter (fun tx => isLive now tx = true) txs.
Proof.
  induction txs as [|tx txs IH]; [done|].
  rewrite fmap_cons, !filter_cons, IH.
  unfold sweepTx. destruct (isExpiring now tx) eqn:E; [|done].
  unfold isExpiring in E. apply andb_true_iff in E as [_ E].
  apply Z.leb_le in E.
  assert (isLive now tx = false) as Hn.
  { unfold isLive. rewrite (proj2 (Z.ltb_ge _ _)) by lia. apply andb_false_r. }
  assert (isLive now (markExpired tx) = false) as Hm by reflexivity.
  destruct (decide (isLive now (markExpired tx) = true)) as [H1|_];
    [congruence|].
  destruct (decide (isLive now tx = true)) as [H2|_]; [congruence|done].
Qed.

Lemma isLive_expirationTx (now p : Z) :
  isLive now (expirationTx now p) = false.
Proof. reflexivity. Qed.

(** X7.  The sweep does not change the active points of the account
    schema: the sum of the ACTIVE entries that expire after [now] is the
    same before and after [_processExpiredPoints] runs at [now]. *)
Theorem activePoints_unchanged_by_sweep (now : Z) (uid : string)
    (l : Account) (w : World) :
  activePoints now (_processExpiredPoints now uid l w).1 = activePoints now l.
Proof.
  destruct (transactions l) as [txs|] eqn:Htx.
  - destruct (0 <? expiredSum now txs) eqn:Hpos.
    + rewrite (processExpiredPoints_due _ _ _ _ _ Htx Hpos). cbn [fst].
      unfold activePoints, txList. cbn. rewrite Htx.
      rewrite filter_app, live_swept, filter_cons, filter_nil.
      rewrite decide_False by (by rewrite isLive_expirationTx).
      by rewrite app_nil_r.
    + by rewrite (processExpiredPoints_nothing_due _ _ _ _ _ Htx Hpos).
  - by rewrite (processExpiredPoints_null _ _ _ _ Htx).
Qed.

End LedgerExpiry.

Section LedgerView.
Import Loyalty LoyaltyService Notions LedgerExtra.

Lemma insertByDate_perm (tx : Transaction) (l : list Transaction) :
  insertByDate tx l ≡ₚ tx :: l.
Proof.
  induction l as [|y l IH]; cbn; [done|].
  destruct (createdAt tx <? createdAt y); [|done].
  rewrite IH. apply Permutation_swap.
Qed.

Lemma sortByDateDesc_perm (l : list Transaction) : sortByDateDesc l ≡ₚ l.
Proof.
  unfold sortByDateDesc. induction l as [|tx l IH]; cbn; [done|].
  by rewrite insertByDate_perm, IH.
Qed.

Lemma insertByDate_sorted (tx : Transaction) (l : list Transaction) :
  StronglySorted (fun a b => createdAt b <= createdAt a) l ->
  StronglySorted (fun a b => createdAt b <= createdAt a) (insertByDate tx l).
Proof.
  induction 1 as [|y l Hs IH Hy]; cbn; [repeat constructor|].
  destruct (createdAt tx <? createdAt y) eqn:E.
  - apply Z.ltb_lt in E. constructor; [done|].
    rewrite insertByDate_perm. constructor; [lia|done].
  - apply Z.ltb_ge in E. constructor; [by constructor|].
    constructor; [done|]. eapply Forall_impl; [exact Hy|].
    cbn. intros z Hz. lia.
Qed.

Lemma sortByDateDesc_sorted (l : list Transaction) :
  StronglySorted (fun a b => createdAt b <= createdAt a) (sortByDateDesc l).
Proof.
  unfold sortByDateDesc. induction l as [|tx l IH]; cbn; [constructor|].
  by apply insertByDate_sorted.
Qed.

Lemma toView_sorted (l : list Transaction) :
  StronglySorted (fun a b => createdAt b <= createdAt a) l ->
  StronglySorted newerFirst (toView <$> l).
Proof.
  induction 1 as [|y l Hs IH Hy]; [constructor|].
  rewrite fmap_cons. constructor; [done|].
  apply Forall_fmap. eapply Forall_impl; [exact Hy|]. done.
Qed.

(** X8.  The view of a balance read lists every stored entry of the user
    exactly once, most recent first: its [transactions] are sorted by date,
    newest first, and are a rearrangement of the entries stored after the
    read. *)
Theorem getUserPoints_lists_newest_first (uid : string) (now : Z)
    (w : World) :
  StronglySorted newerFirst
    (PointsView.transactions (getUserPoints uid now w).1)
  /\ PointsView.transactions (getUserPoints uid now w).1
     ≡ₚ toView <$>
         match loyalties (getUserPoints uid now w).2 !! uid with
         | Some l => txList l
         | None => []
         end.
Proof.
  destruct (loyalties w !! uid) as [l|] eqn:Hl.
  - rewrite (getUserPoints_found _ _ _ _ Hl). cbn [fst snd].
    assert (forall l0 : Account,
               StronglySorted newerFirst (PointsView.transactions (viewOf l0))
               /\ PointsView.transactions (viewOf l0) ≡ₚ toView <$> txList l0)
      as Hview.
    { intros l0. unfold viewOf, txList. cbn.
      destruct (transactions l0) as [txs|]; [|split; [constructor|done]].
      split; [apply toView_sorted, sortByDateDesc_sorted|].
      by rewrite sortByDateDesc_perm. }
    destruct (transactions l) as [txs|] eqn:Htx.
    + destruct (0 <? expiredSum now txs) eqn:Hpos.
      * rewrite (processExpiredPoints_due _ _ _ _ _ Htx Hpos). cbn [fst snd].
        unfold saveLoyalty. cbn [loyalties]. rewrite lookup_insert_eq.
        destruct (Hview (withMarker (sweptAccount now l txs)
                           (Some (expiredSum now txs)))) as [H1 H2].
        split; [exact H1|exact H2].
      * rewrite (processExpiredPoints_nothing_due _ _ _ _ _ Htx Hpos).
        cbn [fst snd]. rewrite Hl. apply Hview.
    + rewrite (processExpiredPoints_null _ _ _ _ Htx). cbn [fst snd].
      rewrite Hl. apply Hview.
  - unfold getUserPoints. rewrite Hl. cbn. rewrite Hl.
    split; [constructor|done].
Qed.

End LedgerView.

(** * Further properties of payments and products *)

Module SaleExtra.
Import PaymentService SaleNotions.

Section Run.
Variable generatePixCode : string -> Payment.t -> string.
Variable generateQRCode : string -> string.

Definition runSale (ops : list (Z * Op)) (w : World) : World :=
  fold_left
    (fun w' '(now, op) => step generatePixCode generateQRCode now op w') ops w.

(** What an operation can write under the key of a payment. *)
Inductive Written (now : Z) (w : World) (pid : string)
  : Op -> Payment.t -> Prop :=
| WrittenCompleted p product adm cr :
    payments w !! pid = Some p ->
    products w !! Payment.productId p = Some product ->
    Product.vendido product = false ->
    Written now w pid (Approve pid adm cr) (complete p adm cr now)
| WrittenRefused p adm cr :
    payments w !! pid = Some p ->
    Written now w pid (Approve pid adm cr)
      (reject p "Produto não disponível" None now)
| WrittenRejected p why adm :
    payments w !! pid = Some p ->
    Payment.status p <> Payment.COMPLETED ->
    Written now w pid (Reject pid why adm) (reject p why (Some adm) now)
| WrittenCreated d :
    Written now w pid (Create d pid)
      (createPayment generatePixCode generateQRCode d pid now w).1.
End Run.



(** The terms of a payment: everything but its status and the record of
    its approval or rejection. *)
Definition terms (p : Payment.t)
  : string * string * string * string * Q * string * Z * Z :=
  (Payment.userId p, Payment.userName p, Payment.productId p,
   Payment.productName p, Payment.amount p, Payment.method p,
   Payment.createdAt p, Payment.expiresAt p).

(** An operation that creates no payment under [pid]. *)
Definition sparesId (pid : string) (op : Op) : Prop :=
  match op with
  | Create _ newId => newId <> pid
  | _ => True
  end.

End SaleExtra.

Module SaleExtraExamples.
Import PaymentService SaleNotions SaleExamples.

Definition bia : Payment.Data :=
  {| Payment.d_userId := "u2"; Payment.d_userName := "bia";
     Payment.d_productId := "prod-1";
     Payment.d_productName := "Conta Valorant";
     Payment.d_amount := (599 # 10)%Q;
     Payment.d_ipAddress := None; Payment.d_userAgent := None |}.

(** Two buyers hold a pending payment for the same product. *)
Definition secondPayment : Payment.t * World :=
  createPayment pix qr bia "pay-2" 60000 pendingWorld.

Definition twoBuyersWorld : World := secondPayment.2.

End SaleExtraExamples.

Section SaleStores.
Import PaymentService SaleNotions SaleExtra.
Variable g : string -> Payment.t -> string.
Variable q : string -> string.

Lemma step_payments (now : Z) (op : Op) (w : World) :
  payments (step g q now op w) = payments w
  \/ exists pid p',
      payments (step g q now op w) = <[pid := p']> (payments w)
      /\ Written g q now w pid op p'
      /\ (Payment.status p' = Payment.COMPLETED ->
          exists p product,
            payments w !! pid = Some p
            /\ Payment.productId p' = Payment.productId p
            /\ products w !! Payment.productId p = Some product
            /\ Product.vendido product = false
            /\ products (step g q now op w)
               = <[Payment.productId p :=
                     ProductService.sell product (Payment.userId p) now]>
                   (products w)).
Proof.
  destruct op as [k uid|pid adm cr|pid why adm|d newId|k u]; cbn [step].
  - left. unfold ProductService.markProductAsSold.
    destruct (products w !! k) as [p|]; [|done].
    by destruct (Product.vendido p).
  - destruct (payments w !! pid) as [p|] eqn:Hp.
    + destruct (isOpen (Payment.status p)) eqn:Ho.
      * destruct (usable (Payment.productId p) w) eqn:Hu.
        -- unfold usable in Hu.
           destruct (products w !! Payment.productId p) as [pr|] eqn:Hpr;
             [|done].
           apply andb_true_iff in Hu as [Hd Hv]. apply negb_true_iff in Hv.
           rewrite (approve_success pid adm cr now w p pr Hp Ho Hpr Hd Hv).
           right. exists pid, (complete p adm cr now).
           split; [done|]. split; [by econstructor|].
           intros _. by exists p, pr.
        -- rewrite (approve_unavailable pid adm cr now w p Hp Ho Hu).
           right. eexists pid, _. split; [done|].
           split; [by constructor|]. done.
      * left. by rewrite (approve_closed pid adm cr now w p Hp Ho).
    + left. by rewrite (approve_missing pid adm cr now w Hp).
  - destruct (payments w !! pid) as [p|] eqn:Hp.
    + destruct (decide (Payment.status p = Payment.COMPLETED)) as [Hc|Hc].
      { left. by rewrite (reject_completed pid why adm now w p Hp Hc). }
      destruct (decide (Payment.status p = Payment.REJECTED)) as [Hr|Hr].
      { left. by rewrite (reject_rejected pid why adm now w p Hp Hr). }
      rewrite (reject_other pid why adm now w p Hp Hc Hr).
      right. eexists pid, _. split; [done|]. split; [by constructor|]. done.
    + left. by rewrite (reject_missing pid why adm now w Hp).
  - right. eexists newId, _. split; [done|]. split; [constructor|]. done.
  - left. unfold ProductService.updateProduct.
    by destruct (products w !! k).
Qed.


End SaleStores.

Section SaleProperties.
Import PaymentService SaleNotions SaleExtra.


(** X10.  A product is delivered once.  When two different open payments
    refer to the same available product and the first is approved, the
    approval of the second fails as unavailable and moves it to REJECTED,
    while the first stays COMPLETED. *)
Theorem product_cannot_be_sold_twice (pid1 pid2 adm1 adm2 : string)
    (cr1 cr2 : Payment.Credentials) (t1 t2 : Z) (w : World)
    (p1 p2 : Payment.t) :
  pid1 <> pid2 ->
  payments w !! pid1 = Some p1 ->
  payments w !! pid2 = Some p2 ->
  isOpen (Payment.status p1) = true ->
  isOpen (Payment.status p2) = true ->
  Payment.productId p1 = Payment.productId p2 ->
  usable (Payment.productId p1) w = true ->
  (approvePayment pid1 adm1 cr1 t1 w).1 = Approved (complete p1 adm1 cr1 t1) cr1
  /\ (approvePayment pid2 adm2 cr2 t2 (approvePayment pid1 adm1 cr1 t1 w).2).1
     = NotApproved "Produto não disponível"
         (Some (reject p2 "Produto não disponível" None t2))
  /\ statusOf pid2
       (approvePayment pid2 adm2 cr2 t2 (approvePayment pid1 adm1 cr1 t1 w).2).2
     = Some Payment.REJECTED
  /\ statusOf pid1
       (approvePayment pid2 adm2 cr2 t2 (approvePayment pid1 adm1 cr1 t1 w).2).2
     = Some Payment.COMPLETED.
Proof.
  intros Hne H1 H2 Ho1 Ho2 Hsame Hu.
  unfold usable in Hu.
  destruct (products w !! Payment.productId p1) as [pr|] eqn:Hpr; [|done].
  apply andb_true_iff in Hu as [Hd Hv]. apply negb_true_iff in Hv.
  rewrite (approve_success pid1 adm1 cr1 t1 w p1 pr H1 Ho1 Hpr Hd Hv).
  cbn [fst snd]. split; [done|].
  set (w1 := recordActivity _ _).
  assert (payments w1 !! pid2 = Some p2) as H2'.
  { subst w1. rewrite payments_recordActivity, payments_saveProduct.
    unfold savePayment. cbn. by rewrite lookup_insert_ne. }
  assert (payments w1 !! pid1 = Some (complete p1 adm1 cr1 t1)) as H1'.
  { subst w1. rewrite payments_recordActivity, payments_saveProduct.
    unfold savePayment. cbn. by rewrite lookup_insert_eq. }
  assert (usable (Payment.productId p2) w1 = false) as Hu'.
  { subst w1. unfold usable. rewrite products_recordActivity.
    unfold saveProduct. cbn [products]. rewrite <- Hsame.
    by rewrite lookup_insert_eq. }
  rewrite (approve_unavailable pid2 adm2 cr2 t2 w1 p2 H2' Ho2 Hu').
  cbn [fst snd]. split; [done|].
  split; [apply statusOf_savePayment|].
  unfold statusOf, savePayment. cbn [payments].
  rewrite lookup_insert_ne by done. by rewrite H1'.
Qed.

Lemma product_cannot_be_sold_twice_witness :
  statusOf "pay-2"
    (approvePayment "pay-2" "admin" SaleExamples.credentials 90000
       (approvePayment "pay-1" "admin" SaleExamples.credentials 80000
          SaleExtraExamples.twoBuyersWorld).2).2
  = Some Payment.REJECTED.
Proof.
  apply (product_cannot_be_sold_twice "pay-1" "pay-2" "admin" "admin"
           SaleExamples.credentials SaleExamples.credentials 80000 90000
           SaleExtraExamples.twoBuyersWorld SaleExamples.created.1
           SaleExtraExamples.secondPayment.1); try reflexivity.
  discriminate.
Defined.

(** X11.  A rejection succeeds exactly when the payment exists and is
    neither COMPLETED nor REJECTED; whether it succeeds or not, it leaves the
    products and the loyalty accounts as they were. *)
Theorem rejection_succeeds_iff (pid why adm : string) (now : Z) (w : World) :
  ((exists p', (rejectPayment pid why adm now w).1 = Rejected p')
   <-> (exists p,
          payments w !! pid = Some p
          /\ Payment.status p <> Payment.COMPLETED
          /\ Payment.status p <> Payment.REJECTED))
  /\ products (rejectPayment pid why adm now w).2 = products w
  /\ loyalties (rejectPayment pid why adm now w).2 = loyalties w.
Proof.
  destruct (payments w !! pid) as [p|] eqn:Hp.
  - destruct (decide (Payment.status p = Payment.COMPLETED)) as [Hc|Hc].
    { rewrite (reject_completed pid why adm now w p Hp Hc).
      split; [|done]. split; [by intros [? ?]|].
      intros (p0 & [= <-] & ? & ?). done. }
    destruct (decide (Payment.status p = Payment.REJECTED)) as [Hr|Hr].
    { rewrite (reject_rejected pid why adm now w p Hp Hr).
      split; [|done]. split; [by intros [? ?]|].
      intros (p0 & [= <-] & ? & ?). done. }
    rewrite (reject_other pid why adm now w p Hp Hc Hr).
    split; [|done]. split; [by exists p|eauto].
  - rewrite (reject_missing pid why adm now w Hp).
    split; [|done]. split; [by intros [? ?]|by intros (? & ? & _)].
Qed.

End SaleProperties.

Section SaleInvariants.
Import PaymentService SaleNotions SaleExtra.
Variable g : string -> Payment.t -> string.
Variable q : string -> string.

Lemma written_completed (now : Z) (w : World) (pid : string) (op : Op)
    (p' : Payment.t) :
  Written g q now w pid op p' ->
  Payment.status p' = Payment.COMPLETED ->
  exists p adm cr, p' = complete p adm cr now.
Proof.
  intros [p pr adm cr Hp Hpr Hv|p adm cr Hp|p why adm Hp Hc|d] Hs;
    try discriminate Hs.
  by exists p, adm, cr.
Qed.



Lemma step_terms (now : Z) (op : Op) (w : World) (pid : string)
    (p : Payment.t) :
  payments w !! pid = Some p ->
  sparesId pid op ->
  exists p', payments (step g q now op w) !! pid = Some p'
             /\ terms p' = terms p.
Proof.
  intros Hp Hop.
  destruct (step_payments g q now op w) as [->|(k & p' & -> & Hw & _)].
  - by exists p.
  - destruct (decide (k = pid)) as [->|Hne].
    + exists p'. rewrite lookup_insert_eq. split; [done|].
      destruct Hw as [p0 pr adm cr Hp0 Hpr Hv|p0 adm cr Hp0
                     |p0 why adm Hp0 Hc|d].
      * by assert (p0 = p) as -> by congruence.
      * by assert (p0 = p) as -> by congruence.
      * by assert (p0 = p) as -> by congruence.
      * cbn in Hop. done.
    + exists p. by rewrite lookup_insert_ne.
Qed.

(** X13.  A stored payment is never deleted and its terms never change:
    after any run of operations that creates no payment under the same
    identifier, the payment is still stored with the buyer, the product, the
    amount, the method, the creation time and the expiry it was created
    with. *)
Theorem payment_terms_are_immutable (ops : list (Z * Op)) (w : World)
    (pid : string) (p : Payment.t) :
  payments w !! pid = Some p ->
  Forall (fun o => sparesId pid o.2) ops ->
  exists p', payments (runSale g q ops w) !! pid = Some p'
             /\ terms p' = terms p.
Proof.
  intros Hp Hops. revert w p Hp.
  induction Hops as [|[now op] ops Hop _ IH]; intros w p Hp.
  - by exists p.
  - unfold runSale in *. cbn [fold_left].
    destruct (step_terms now op w pid p Hp Hop) as (p1 & Hp1 & Ht1).
    destruct (IH _ _ Hp1) as (p' & Hp' & Ht'). exists p'.
    split; [done|]. congruence.
Qed.

End SaleInvariants.

Section SaleInvariantWitnesses.
Import PaymentService SaleNotions SaleExtra.



Lemma payment_terms_are_immutable_witness :
  exists p',
    payments
      (runSale SaleExamples.pix SaleExamples.qr
         [(80000, Approve "pay-1" "admin" SaleExamples.credentials);
          (90000, Reject "pay-1" "tarde" "admin")]
         SaleExamples.pendingWorld) !! "pay-1" = Some p'
    /\ terms p' = terms SaleExamples.created.1.
Proof.
  apply (payment_terms_are_immutable SaleExamples.pix SaleExamples.qr);
    [reflexivity|]. repeat constructor.
Defined.

End SaleInvariantWitnesses.

(** * The in-memory cache ([createInMemoryCache], the mock cache)

    The cache keeps the stored values and, for every key with a pending
    [setTimeout], the instant at which that timer fires and deletes the key.
    A timer whose delay has elapsed at the clock reading of an operation has
    fired before the operation runs. *)

Module MemCache.
Section WithValues.
Context {V : Type}.
(** The values that read as [null] through [storage.get(key) || null]. *)
Variable falsy : V -> bool.

Record t := {
  storage : gmap string V;
  timeouts : gmap string Z
}.

Definition empty : t := {| storage := ∅; timeouts := ∅ |}.

(** No timer of [key] is due at [now]. *)
Definition alive (now : Z) (timers : gmap string Z) (key : string) : bool :=
  match timers !! key with
  | Some deadline => now <? deadline
  | None => true
  end.

(** The timers due at [now] fire: each deletes its key. *)
Definition fire (now : Z) (s : t) : t :=
  {| storage := filter (fun kv => alive now (timeouts s) kv.1 = true) (storage s);
     timeouts := filter (fun kd => (now <? kd.2) = true) (timeouts s) |}.

Definition get (key : string) (now : Z) (s : t) : option V * t :=
  let s' := fire now s in
  (match storage s' !! key with
   | Some v => if falsy v then None else Some v
   | None => None
   end, s').

(** The delay [setTimeout] uses: a delay above 2^31 - 1 ms, or below 1 ms,
    is replaced by 1 ms. *)
Definition timerDelay (ms : Z) : Z :=
  if (ms <? 1) || (2147483647 <? ms) then 1 else ms.

Definition set (key : string) (value : V) (ttl : Z) (now : Z) (s : t)
  : bool * t :=
  let s' := fire now s in
  (true,
   {| storage := <[key := value]> (storage s');
      timeouts :=
        if 0 <? ttl
        then <[key := now + timerDelay (ttl * 1000)]> (timeouts s')
        else timeouts s' |}).

Definition del (key : string) (now : Z) (s : t) : bool * t :=
  let s' := fire now s in
  (bool_decide (is_Some (storage s' !! key)),
   {| storage := delete key (storage s');
      timeouts := delete key (timeouts s') |}).

Definition clear (now : Z) (s : t) : bool * t := (true, empty).

(** Every pending timer belongs to a stored key. *)
Definition timersStored (s : t) : Prop :=
  forall key deadline,
    timeouts s !! key = Some deadline -> is_Some (storage s !! key).

End WithValues.
Arguments t V : clear implicits.
End MemCache.

Section MemCacheFacts.
Context {V : Type}.
Variable falsy : V -> bool.
Implicit Types s : MemCache.t V.

Lemma fire_storage_lookup (now : Z) s (key : string) :
  MemCache.storage (MemCache.fire now s) !! key
  = if MemCache.alive now (MemCache.timeouts s) key
    then MemCache.storage s !! key else None.
Proof.
  unfold MemCache.fire. cbn [MemCache.storage].
  destruct (MemCache.alive now (MemCache.timeouts s) key) eqn:Ha.
  - destruct (MemCache.storage s !! key) as [v|] eqn:Hk.
    + by apply map_lookup_filter_Some.
    + apply map_lookup_filter_None. left. done.
  - apply map_lookup_filter_None. right. intros v _. cbn. congruence.
Qed.

Lemma fire_timeouts_lookup (now : Z) s (key : string) :
  MemCache.timeouts (MemCache.fire now s) !! key
  = match MemCache.timeouts s !! key with
    | Some d => if now <? d then Some d else None
    | None => None
    end.
Proof.
  unfold MemCache.fire. cbn [MemCache.timeouts].
  destruct (MemCache.timeouts s !! key) as [d|] eqn:Hk.
  - destruct (now <? d) eqn:Hd.
    + by apply map_lookup_filter_Some.
    + apply map_lookup_filter_None. right. intros d' Hd'. cbn.
      assert (d' = d) as -> by congruence. congruence.
  - apply map_lookup_filter_None. by left.
Qed.

Lemma alive_fired (t1 t2 : Z) s (key : string) :
  t1 <= t2 ->
  MemCache.alive t2 (MemCache.timeouts (MemCache.fire t1 s)) key
  = MemCache.alive t2 (MemCache.timeouts s) key
    || negb (MemCache.alive t1 (MemCache.timeouts s) key).
Proof.
  intros Ht. unfold MemCache.alive. rewrite fire_timeouts_lookup.
  destruct (MemCache.timeouts s !! key) as [d|]; [|done].
  destruct (t1 <? d) eqn:E1; cbn; [by rewrite orb_false_r|].
  apply Z.ltb_ge in E1. rewrite (proj2 (Z.ltb_ge t2 d)) by lia. done.
Qed.

(** What a read at [t2] finds under [key] after a write at [t1]. *)
Lemma get_after_set (key : string) (v : V) (ttl t1 t2 : Z) s :
  t1 <= t2 ->
  (MemCache.get falsy key t2 (MemCache.set key v ttl t1 s).2).1
  = if MemCache.alive t2
         (if 0 <? ttl
          then <[key := t1 + MemCache.timerDelay (ttl * 1000)]>
                 (MemCache.timeouts (MemCache.fire t1 s))
          else MemCache.timeouts (MemCache.fire t1 s)) key
    then (if falsy v then None else Some v)
    else None.
Proof.
  intros Ht. unfold MemCache.get, MemCache.set. cbn [fst snd].
  rewrite fire_storage_lookup. cbn [MemCache.timeouts MemCache.storage].
  destruct (MemCache.alive t2 _ key); [|done].
  by rewrite lookup_insert_eq.
Qed.

End MemCacheFacts.

Section MemCacheProperties.
Context {V : Type}.
Variable falsy : V -> bool.
Implicit Types s : MemCache.t V.



Lemma get_other_key (key k' : string) (t1 t2 : Z) s s' :
  t1 <= t2 -> k' <> key ->
  MemCache.storage s' !! k' = MemCache.storage (MemCache.fire t1 s) !! k' ->
  MemCache.timeouts s' !! k' = MemCache.timeouts (MemCache.fire t1 s) !! k' ->
  (MemCache.get falsy k' t2 s').1 = (MemCache.get falsy k' t2 s).1.
Proof.
  intros Ht Hne Hs Hd. unfold MemCache.get. cbn [fst].
  rewrite !fire_storage_lookup.
  assert (MemCache.alive t2 (MemCache.timeouts s') k'
          = MemCache.alive t2 (MemCache.timeouts (MemCache.fire t1 s)) k')
    as -> by (unfold MemCache.alive; by rewrite Hd).
  rewrite Hs, fire_storage_lookup, (alive_fired t1 t2 s k' Ht).
  unfold MemCache.alive.
  destruct (MemCache.timeouts s !! k') as [d|]; [|done].
  destruct (t1 <? d) eqn:E1; cbn.
  - by rewrite orb_false_r.
  - apply Z.ltb_ge in E1. rewrite (proj2 (Z.ltb_ge t2 d)) by lia. done.
Qed.

(** X16.  Deleting a key removes it for good and touches no other key:
    after [del] no later read returns the key, and every later read of
    another key returns what it would have returned without the [del]; the
    same holds of the other keys after a [set]. *)
Theorem cache_keys_are_independent (key k' : string) (v : V)
    (ttl t1 t2 : Z) s :
  t1 <= t2 ->
  k' <> key ->
  (MemCache.get falsy key t2 (MemCache.del key t1 s).2).1 = None
  /\ (MemCache.get falsy k' t2 (MemCache.del key t1 s).2).1
     = (MemCache.get falsy k' t2 s).1
  /\ (MemCache.get falsy k' t2 (MemCache.set key v ttl t1 s).2).1
     = (MemCache.get falsy k' t2 s).1.
Proof.
  intros Ht Hne. split; [|split].
  - unfold MemCache.get, MemCache.del. cbn [fst snd].
    rewrite fire_storage_lookup. cbn [MemCache.storage MemCache.timeouts].
    rewrite lookup_delete_eq. by destruct (MemCache.alive t2 _ key).
  - apply (get_other_key key k' t1 t2 s _ Ht Hne); unfold MemCache.del;
      cbn [snd MemCache.storage MemCache.timeouts];
      by rewrite lookup_delete_ne.
  - apply (get_other_key key k' t1 t2 s _ Ht Hne); unfold MemCache.set;
      cbn [snd MemCache.storage MemCache.timeouts].
    + by rewrite lookup_insert_ne.
    + destruct (0 <? ttl); [by rewrite lookup_insert_ne|done].
Qed.

Lemma timersStored_fire (now : Z) s :
  MemCache.timersStored s -> MemCache.timersStored (MemCache.fire now s).
Proof.
  intros Hs key d. rewrite fire_timeouts_lookup, fire_storage_lookup.
  unfold MemCache.alive.
  destruct (MemCache.timeouts s !! key) as [d0|] eqn:Hk; [|done].
  destruct (now <? d0); [|done]. intros _. by apply (Hs key d0).
Qed.

(** X17.  No timer outlives its key: when every pending timer belongs to a
    stored key, this is still so after a read, a write, a delete or a
    clear. *)
Theorem cache_timers_belong_to_stored_keys (key : string) (v : V)
    (ttl now : Z) s :
  MemCache.timersStored s ->
  MemCache.timersStored (MemCache.get falsy key now s).2
  /\ MemCache.timersStored (MemCache.set key v ttl now s).2
  /\ MemCache.timersStored (MemCache.del key now s).2
  /\ MemCache.timersStored (MemCache.clear now s).2.
Proof.
  intros Hs. pose proof (timersStored_fire now s Hs) as Hf.
  split; [exact Hf|]. split; [|split].
  - intros k d. unfold MemCache.set. cbn [snd MemCache.storage MemCache.timeouts].
    destruct (decide (key = k)) as [->|Hne].
    + intros _. rewrite lookup_insert_eq. by eexists.
    + rewrite lookup_insert_ne by done. intros Hk. apply (Hf k d).
      destruct (0 <? ttl); [by rewrite lookup_insert_ne in Hk|done].
  - intros k d. unfold MemCache.del. cbn [snd MemCache.storage MemCache.timeouts].
    destruct (decide (key = k)) as [->|Hne].
    + by rewrite lookup_delete_eq.
    + rewrite !lookup_delete_ne by done. apply Hf.
  - intros k d. cbn. by rewrite lookup_empty.
Qed.

End MemCacheProperties.

Section MemCacheWitnesses.



Lemma cache_keys_are_independent_witness :
  (MemCache.get (fun _ : Z => false) "a" 20
     (MemCache.del "a" 10 (MemCache.set "a" 7 300 0 MemCache.empty).2).2).1
  = None.
Proof.
  apply (cache_keys_are_independent (fun _ : Z => false) "a" "b" 0 0 10 20
           (MemCache.set "a" 7 300 0 MemCache.empty).2); [lia|discriminate].
Defined.

Lemma cache_timers_belong_to_stored_keys_witness :
  MemCache.timersStored (@MemCache.empty Z)
  /\ MemCache.timersStored (MemCache.set "k" 7 300 0 (@MemCache.empty Z)).2.
Proof.
  assert (MemCache.timersStored (@MemCache.empty Z)) as H.
  { intros k d. cbn. by rewrite lookup_empty. }
  split; [exact H|].
  apply (cache_timers_belong_to_stored_keys (fun _ : Z => false) "k" 7 300 0
           MemCache.empty H).
Defined.

End MemCacheWitnesses.

(** * The list of pending approvals ([getPendingApprovals]) *)

Module PendingApprovals.
Import PaymentService.

(** A row of the query: the payment with its identifier and the product
    joined to it. *)
Definition Row : Type := string * Payment.t * option Product.t.

Definition rowId (r : Row) : string := r.1.1.
Definition rowPayment (r : Row) : Payment.t := r.1.2.
Definition rowDate (r : Row) : Z := Payment.createdAt (rowPayment r).

(** [order: [['createdAt', 'DESC']]]; the database leaves the order of rows
    with equal dates open, here they keep the order of the scan. *)
Fixpoint insertRow (r : Row) (sorted : list Row) : list Row :=
  match sorted with
  | [] => [r]
  | y :: rest =>
      if rowDate r <? rowDate y then y :: insertRow r rest
      else r :: y :: rest
  end.

Definition newestFirst (rows : list Row) : list Row := foldr insertRow [] rows.

(** [Payment.findAll({ where: { status: ['PENDING', 'PROCESSING'] }, ...,
    include: Product })]. *)
Definition pendingQuery (w : World) : list Row :=
  newestFirst
    ((fun kp : string * Payment.t =>
        (kp.1, kp.2, products w !! Payment.productId kp.2))
       <$> filter (fun kp : string * Payment.t =>
                     isOpen (Payment.status kp.2) = true)
             (map_to_list (payments w))).

Definition CACHE_KEY_PENDING : string := "payments:pending".
Definition CACHE_TTL : Z := 300.

(** An array is never falsy, so a cached empty list is served as well. *)
Definition neverFalsy (rows : list Row) : bool := false.

Definition PendingCache : Type := MemCache.t (list Row).

Definition getPendingApprovals (now : Z) (w : World) (c : PendingCache)
  : list Row * PendingCache :=
  match MemCache.get neverFalsy CACHE_KEY_PENDING now c with
  | (Some cachedPayments, c') => (cachedPayments, c')
  | (None, c') =>
      let pendingPayments := pendingQuery w in
      (pendingPayments,
       (MemCache.set CACHE_KEY_PENDING pendingPayments CACHE_TTL now c').2)
  end.

(** [approvePayment] and [rejectPayment] with the invalidation of the
    cached list, which both perform on their successful branch only. *)
Definition approvePaymentCached (paymentId adminId : string)
    (accountCredentials : Payment.Credentials) (now : Z) (w : World)
    (c : PendingCache) : ApproveResult * World * PendingCache :=
  let r := approvePayment paymentId adminId accountCredentials now w in
  (r.1, r.2,
   match r.1 with
   | Approved _ _ => (MemCache.del CACHE_KEY_PENDING now c).2
   | NotApproved _ _ => c
   end).

Definition rejectPaymentCached (paymentId why adminId : string) (now : Z)
    (w : World) (c : PendingCache) : RejectResult * World * PendingCache :=
  let r := rejectPayment paymentId why adminId now w in
  (r.1, r.2,
   match r.1 with
   | Rejected _ => (MemCache.del CACHE_KEY_PENDING now c).2
   | NotRejected _ _ => c
   end).

End PendingApprovals.

Section PendingFacts.
Import PaymentService PendingApprovals.

Lemma insertRow_perm (r : Row) (l : list Row) : insertRow r l ≡ₚ r :: l.
Proof.
  induction l as [|y l IH]; cbn; [done|].
  destruct (rowDate r <? rowDate y); [|done].
  rewrite IH. apply Permutation_swap.
Qed.

Lemma newestFirst_perm (l : list Row) : newestFirst l ≡ₚ l.
Proof.
  unfold newestFirst. induction l as [|r l IH]; cbn; [done|].
  by rewrite insertRow_perm, IH.
Qed.



Lemma elem_of_pendingQuery (w : World) (r : Row) :
  r ∈ pendingQuery w
  <-> payments w !! rowId r = Some (rowPayment r)
      /\ isOpen (Payment.status (rowPayment r)) = true
      /\ r.2 = products w !! Payment.productId (rowPayment r).
Proof.
  unfold pendingQuery. rewrite newestFirst_perm, list_elem_of_fmap.
  destruct r as [[pid p] pr]. unfold rowId, rowPayment. cbn.
  split.
  - intros ([k p0] & [= -> -> ->] & Hin).
    apply list_elem_of_filter in Hin as [Ho Hin].
    apply elem_of_map_to_list in Hin. done.
  - intros (Hp & Ho & ->). exists (pid, p). split; [done|].
    apply list_elem_of_filter. split; [done|].
    by apply elem_of_map_to_list.
Qed.

Lemma getPendingApprovals_miss (now : Z) (w : World) (c : PendingCache) :
  (MemCache.get neverFalsy CACHE_KEY_PENDING now c).1 = None ->
  (getPendingApprovals now w c).1 = pendingQuery w.
Proof.
  unfold getPendingApprovals.
  destruct (MemCache.get neverFalsy CACHE_KEY_PENDING now c) as [[l|] c'];
    [discriminate|done].
Qed.

Lemma getPendingApprovals_hit (now : Z) (w : World) (c : PendingCache)
    (l : list Row) :
  (MemCache.get neverFalsy CACHE_KEY_PENDING now c).1 = Some l ->
  (getPendingApprovals now w c).1 = l.
Proof.
  unfold getPendingApprovals.
  destruct (MemCache.get neverFalsy CACHE_KEY_PENDING now c) as [[l'|] c'];
    [|discriminate]. cbn. congruence.
Qed.

End PendingFacts.

Section PendingProperties.
Import PaymentService SaleNotions PendingApprovals.

Lemma get_after_del {V : Type} (falsy : V -> bool) (key : string)
    (t1 t2 : Z) (s : MemCache.t V) :
  (MemCache.get falsy key t2 (MemCache.del key t1 s).2).1 = None.
Proof.
  unfold MemCache.get, MemCache.del. cbn [fst snd].
  rewrite fire_storage_lookup. cbn [MemCache.storage MemCache.timeouts].
  rewrite lookup_delete_eq. by destruct (MemCache.alive t2 _ key).
Qed.

Lemma getPendingApprovals_cached (t0 t : Z) (w w' : World) (c : PendingCache) :
  (MemCache.get neverFalsy CACHE_KEY_PENDING t0 c).1 = None ->
  t0 <= t < t0 + 300 * 1000 ->
  (getPendingApprovals t w' (getPendingApprovals t0 w c).2).1
  = pendingQuery w.
Proof.
  intros Hmiss Ht. apply getPendingApprovals_hit.
  unfold getPendingApprovals at 1.
  destruct (MemCache.get neverFalsy CACHE_KEY_PENDING t0 c) as [[l|] c'];
    [discriminate|]. cbn [snd].
  rewrite (get_after_set neverFalsy CACHE_KEY_PENDING _ CACHE_TTL t0 t c')
    by lia.
  unfold CACHE_TTL. cbn [Z.ltb Z.compare]. unfold MemCache.alive.
  change (MemCache.timerDelay (300 * 1000)) with (300 * 1000).
  rewrite lookup_insert_eq, (proj2 (Z.ltb_lt _ _)) by lia. done.
Qed.



(** X19.  An approval that succeeds drops the cached list: every later read
    of the pending approvals is computed from the stores, and the approved
    payment is not in it. *)
Theorem approved_payment_leaves_pending_list (pid adm : string)
    (cr : Payment.Credentials) (t1 t2 : Z) (w : World) (c : PendingCache)
    (p' : Payment.t) :
  (approvePayment pid adm cr t1 w).1 = Approved p' cr ->
  (getPendingApprovals t2 (approvePaymentCached pid adm cr t1 w c).1.2
     (approvePaymentCached pid adm cr t1 w c).2).1
  = pendingQuery (approvePayment pid adm cr t1 w).2
  /\ forall r,
      r ∈ (getPendingApprovals t2 (approvePaymentCached pid adm cr t1 w c).1.2
             (approvePaymentCached pid adm cr t1 w c).2).1 ->
      rowId r <> pid.
Proof.
  intros Hok. unfold approvePaymentCached. rewrite Hok. cbn [fst snd].
  rewrite getPendingApprovals_miss by apply get_after_del.
  split; [done|]. intros r [Hp [Ho _]]%elem_of_pendingQuery Heq.
  rewrite Heq in Hp.
  apply approve_inversion in Hok as (p & pr & H & Hop & Hpr & Hd & Hv & ->).
  rewrite (approve_success pid adm cr t1 w p pr H Hop Hpr Hd Hv) in Hp.
  cbn [snd] in Hp. rewrite payments_recordActivity, payments_saveProduct in Hp.
  unfold savePayment in Hp. cbn in Hp. rewrite lookup_insert_eq in Hp.
  injection Hp as Hp. rewrite <- Hp in Ho. discriminate.
Qed.

Lemma approved_payment_leaves_pending_list_witness :
  rowId <$>
    (getPendingApprovals 90000
       (approvePaymentCached "pay-1" "admin" SaleExamples.credentials 80000
          SaleExtraExamples.twoBuyersWorld
          (getPendingApprovals 70000 SaleExtraExamples.twoBuyersWorld
             MemCache.empty).2).1.2
       (approvePaymentCached "pay-1" "admin" SaleExamples.credentials 80000
          SaleExtraExamples.twoBuyersWorld
          (getPendingApprovals 70000 SaleExtraExamples.twoBuyersWorld
             MemCache.empty).2).2).1
  = ["pay-2"].
Proof.
  pose proof (approved_payment_leaves_pending_list "pay-1" "admin"
                SaleExamples.credentials 80000 90000
                SaleExtraExamples.twoBuyersWorld
                (getPendingApprovals 70000 SaleExtraExamples.twoBuyersWorld
                   MemCache.empty).2
                (complete SaleExamples.created.1 "admin"
                   SaleExamples.credentials 80000) eq_refl) as [H _].
  rewrite H. vm_compute. reflexivity.
Defined.

(** X20.  Creating a payment does not touch the cached list.  Once a read
    has cached the pending approvals, every read within the next 300 seconds
    returns that same list whatever was written to the stores since; a
    payment created in between under a new identifier is open in the stores
    and missing from the list. *)
Theorem pending_list_is_stale_after_create
    (g : string -> Payment.t -> string) (q : string -> string)
    (d : Payment.Data) (newId : string) (t0 t1 t : Z) (w : World)
    (c : PendingCache) :
  (MemCache.get neverFalsy CACHE_KEY_PENDING t0 c).1 = None ->
  payments w !! newId = None ->
  t0 <= t < t0 + 300 * 1000 ->
  (getPendingApprovals t (createPayment g q d newId t1 w).2
     (getPendingApprovals t0 w c).2).1 = pendingQuery w
  /\ statusOf newId (createPayment g q d newId t1 w).2
     = Some Payment.PENDING
  /\ forall r,
      r ∈ (getPendingApprovals t (createPayment g q d newId t1 w).2
             (getPendingApprovals t0 w c).2).1 ->
      rowId r <> newId.
Proof.
  intros Hmiss Hnew Ht.
  rewrite (getPendingApprovals_cached t0 t w _ c Hmiss Ht).
  split; [done|]. split.
  - unfold createPayment. cbn [snd]. apply statusOf_savePayment.
  - intros r [Hp _]%elem_of_pendingQuery Heq. congruence.
Qed.

Lemma pending_list_is_stale_after_create_witness :
  rowId <$>
    (getPendingApprovals 70000 SaleExtraExamples.twoBuyersWorld
       (getPendingApprovals 1000 SaleExamples.pendingWorld MemCache.empty).2).1
  = ["pay-1"].
Proof.
  pose proof (pending_list_is_stale_after_create SaleExamples.pix
                SaleExamples.qr SaleExtraExamples.bia "pay-2" 1000 60000 70000
                SaleExamples.pendingWorld MemCache.empty
                eq_refl eq_refl ltac:(lia)) as [H _].
  unfold SaleExtraExamples.twoBuyersWorld, SaleExtraExamples.secondPayment.
  rewrite H. vm_compute. reflexivity.
Defined.

(** X21.  An approval refused for want of the product rejects the payment
    but keeps the cached list: within the 300 seconds of the cache the
    payment, now REJECTED, is still served among the pending approvals. *)
Theorem refused_approval_keeps_cached_list (pid adm : string)
    (cr : Payment.Credentials) (t0 t1 t : Z) (w : World) (c : PendingCache)
    (p : Payment.t) :
  (MemCache.get neverFalsy CACHE_KEY_PENDING t0 c).1 = None ->
  payments w !! pid = Some p ->
  isOpen (Payment.status p) = true ->
  usable (Payment.productId p) w = false ->
  t0 <= t < t0 + 300 * 1000 ->
  statusOf pid
    (approvePaymentCached pid adm cr t1 w (getPendingApprovals t0 w c).2).1.2
  = Some Payment.REJECTED
  /\ (pid, p, products w !! Payment.productId p)
     ∈ (getPendingApprovals t
          (approvePaymentCached pid adm cr t1 w
             (getPendingApprovals t0 w c).2).1.2
          (approvePaymentCached pid adm cr t1 w
             (getPendingApprovals t0 w c).2).2).1.
Proof.
  intros Hmiss Hp Ho Hu Ht. unfold approvePaymentCached.
  rewrite (approve_unavailable pid adm cr t1 w p Hp Ho Hu). cbn [fst snd].
  split; [apply statusOf_savePayment|].
  rewrite (getPendingApprovals_cached t0 t w _ c Hmiss Ht).
  by apply elem_of_pendingQuery.
Qed.

Lemma refused_approval_keeps_cached_list_witness :
  statusOf "pay-1"
    (approvePaymentCached "pay-1" "admin" SaleExamples.credentials 20 
       SaleExamples.soldWorld
       (getPendingApprovals 10 SaleExamples.soldWorld MemCache.empty).2).1.2
  = Some Payment.REJECTED.
Proof.
  apply (refused_approval_keeps_cached_list "pay-1" "admin"
           SaleExamples.credentials 10 20 30 SaleExamples.soldWorld
           MemCache.empty SaleExamples.created.1);
    [reflexivity|reflexivity|reflexivity|reflexivity|lia].
Defined.

End PendingProperties.

(** * The user service ([recordActivity], [getPurchaseHistory]) *)

Module UserService.

(** ** [recordActivity] with the trimming of the history *)

Definition ofUser (uid : string) (a : Activity.t) : bool :=
  bool_decide (Activity.userId a = uid).

Definition userCount (uid : string) (l : list Activity.t) : nat :=
  length (filter (fun a => ofUser uid a = true) l).

(** The earliest date among the entries of the user. *)
Fixpoint oldestDate (uid : string) (l : list Activity.t) : option Z :=
  match l with
  | [] => None
  | a :: rest =>
      if ofUser uid a
      then Some (match oldestDate uid rest with
                 | Some m => Z.min (Activity.createdAt a) m
                 | None => Activity.createdAt a
                 end)
      else oldestDate uid rest
  end.

Fixpoint removeFirst (f : Activity.t -> bool) (l : list Activity.t)
  : list Activity.t :=
  match l with
  | [] => []
  | a :: rest => if f a then rest else a :: removeFirst f rest
  end.

Definition isOldest (uid : string) (m : Z) (a : Activity.t) : bool :=
  ofUser uid a && (Activity.createdAt a =? m).

(** One row of [findAll({ where: { userId }, order: [['createdAt', 'ASC']],
    limit })] is destroyed: the earliest entry of the user (the first stored
    one among equal dates). *)
Definition dropOldest (uid : string) (l : list Activity.t) : list Activity.t :=
  match oldestDate uid l with
  | Some m => removeFirst (isOldest uid m) l
  | None => l
  end.

Definition historyLimit : nat := 100.

(** After the entry is created the history of the user is cut back to its
    last 100 entries. *)
Definition trimHistory (uid : string) (w : World) : World :=
  let count := userCount uid (activities w) in
  {| payments := payments w; products := products w;
     loyalties := loyalties w; users := users w;
     activities :=
       Nat.iter (count - historyLimit) (dropOldest uid) (activities w) |}.

(** [recordActivity]: the profile is created when missing, the entry is
    created, the history is trimmed, and [true] is returned (the [lastActive]
    stamp is not part of the profile record, and a failing database, the
    [catch] branch, is not modelled). *)
Definition recordActivity (a : Activity.t) (w : World) : bool * World :=
  (true, trimHistory (Activity.userId a) (recordActivity a w)).

(** ** [getPurchaseHistory] *)

Record PurchaseRow := {
  paymentId : string;
  productId : string;
  productName : string;
  amount : Q;
  date : Z;
  method : string
}.

(** [date: payment.completedAt || payment.createdAt]. *)
Definition toRow (kp : string * Payment.t) : PurchaseRow :=
  {| paymentId := kp.1;
     productId := Payment.productId kp.2;
     productName := Payment.productName kp.2;
     amount := Payment.amount kp.2;
     date := default (Payment.createdAt kp.2) (Payment.completedAt kp.2);
     method := Payment.method kp.2 |}.

(** The order of [completedAt] in the database: a missing date sorts below
    every date. *)
Definition dateBelow (x y : option Z) : bool :=
  match x, y with
  | None, Some _ => true
  | Some a, Some b => a <? b
  | _, None => false
  end.

Fixpoint insertCompleted (r : string * Payment.t)
    (sorted : list (string * Payment.t)) : list (string * Payment.t) :=
  match sorted with
  | [] => [r]
  | y :: rest =>
      if dateBelow (Payment.completedAt r.2) (Payment.completedAt y.2)
      then y :: insertCompleted r rest
      else r :: y :: rest
  end.

Definition isPurchaseOf (uid : string) (kp : string * Payment.t) : bool :=
  bool_decide (Payment.userId kp.2 = uid)
  && bool_decide (Payment.status kp.2 = Payment.COMPLETED).

(** [Payment.findAll({ where: { userId, status: 'COMPLETED' },
    order: [['completedAt', 'DESC']] })], mapped to the rows returned. *)
Definition getPurchaseHistory (uid : string) (w : World) : list PurchaseRow :=
  toRow <$>
    foldr insertCompleted []
      (filter (fun kp => isPurchaseOf uid kp = true)
         (map_to_list (payments w))).

End UserService.

Section ActivityHistory.
Local Abbreviation appendActivity := recordActivity.
Import UserService.

Lemma removeFirst_same_class (f g : Activity.t -> bool) (l : list Activity.t) :
  (forall a, f a = true -> g a = true) ->
  (exists a, a ∈ l /\ f a = true) ->
  S (length (filter (fun a => g a = true) (removeFirst f l)))
  = length (filter (fun a => g a = true) l).
Proof.
  intros Hfg. induction l as [|a l IH]; intros (x & Hx & Hfx).
  - by apply elem_of_nil in Hx.
  - cbn [removeFirst]. destruct (f a) eqn:Hfa.
    + rewrite filter_cons, decide_True by by apply Hfg. done.
    + rewrite !filter_cons. apply elem_of_cons in Hx as [->|Hx]; [congruence|].
      destruct (decide (g a = true)); cbn [length];
        rewrite <- IH by eauto; done.
Qed.

Lemma removeFirst_other_class (f h : Activity.t -> bool)
    (l : list Activity.t) :
  (forall a, f a = true -> h a = false) ->
  filter (fun a => h a = true) (removeFirst f l)
  = filter (fun a => h a = true) l.
Proof.
  intros Hfh. induction l as [|a l IH]; [done|].
  cbn [removeFirst]. destruct (f a) eqn:Hfa.
  - rewrite filter_cons, decide_False; [done|].
    rewrite (Hfh a Hfa). discriminate.
  - by rewrite !filter_cons, IH.
Qed.

Lemma oldestDate_attained (uid : string) (l : list Activity.t) (m : Z) :
  oldestDate uid l = Some m -> exists a, a ∈ l /\ isOldest uid m a = true.
Proof.
  revert m. induction l as [|a l IH]; intros m; [done|].
  cbn [oldestDate]. destruct (ofUser uid a) eqn:Hu.
  - destruct (oldestDate uid l) as [m0|] eqn:Ho.
    + intros [= <-].
      destruct (Z.min_spec (Activity.createdAt a) m0) as [[Hlt ->]|[Hle ->]].
      * exists a. split; [left|]. unfold isOldest.
        by rewrite Hu, Z.eqb_refl.
      * destruct (IH m0 eq_refl) as (x & Hx & Hox).
        exists x. split; [by right|done].
    + intros [= <-]. exists a. split; [left|]. unfold isOldest.
      by rewrite Hu, Z.eqb_refl.
  - intros Hm. destruct (IH m Hm) as (x & Hx & Hox).
    exists x. split; [by right|done].
Qed.

Lemma oldestDate_none (uid : string) (l : list Activity.t) :
  oldestDate uid l = None -> userCount uid l = 0%nat.
Proof.
  unfold userCount. induction l as [|a l IH]; [done|].
  cbn [oldestDate]. destruct (ofUser uid a) eqn:Hu; [done|].
  intros Ho. rewrite filter_cons, decide_False by congruence. by apply IH.
Qed.

Lemma dropOldest_count (uid : string) (l : list Activity.t) :
  userCount uid (dropOldest uid l) = pred (userCount uid l).
Proof.
  unfold dropOldest. destruct (oldestDate uid l) as [m|] eqn:Ho.
  - unfold userCount.
    rewrite <- (removeFirst_same_class (isOldest uid m) (ofUser uid) l).
    + done.
    + unfold isOldest. intros a [H _]%andb_true_iff. done.
    + by apply oldestDate_attained.
  - by rewrite (oldestDate_none uid l Ho).
Qed.

Lemma dropOldest_others (uid u : string) (l : list Activity.t) :
  u <> uid ->
  filter (fun a => ofUser u a = true) (dropOldest uid l)
  = filter (fun a => ofUser u a = true) l.
Proof.
  intros Hne. unfold dropOldest. destruct (oldestDate uid l) as [m|]; [|done].
  apply removeFirst_other_class. unfold isOldest, ofUser.
  intros a [H _]%andb_true_iff. apply bool_decide_eq_true_1 in H.
  apply bool_decide_eq_false_2. congruence.
Qed.

Lemma iter_dropOldest_count (uid : string) (k : nat) (l : list Activity.t) :
  userCount uid (Nat.iter k (dropOldest uid) l) = (userCount uid l - k)%nat.
Proof.
  induction k as [|k IH]; simpl; [lia|].
  rewrite dropOldest_count, IH. lia.
Qed.

Lemma iter_dropOldest_others (uid u : string) (k : nat)
    (l : list Activity.t) :
  u <> uid ->
  filter (fun a => ofUser u a = true) (Nat.iter k (dropOldest uid) l)
  = filter (fun a => ofUser u a = true) l.
Proof.
  intros Hne. induction k as [|k IH]; simpl; [done|].
  by rewrite dropOldest_others, IH.
Qed.

Lemma userCount_app (uid : string) (l : list Activity.t) (a : Activity.t) :
  userCount uid (l ++ [a])
  = (userCount uid l + if ofUser uid a then 1 else 0)%nat.
Proof.
  unfold userCount. rewrite filter_app, length_app, filter_cons, filter_nil.
  destruct (ofUser uid a); [by rewrite decide_True|].
  by rewrite decide_False.
Qed.

(** X22.  The activity history of a user never grows beyond 100 entries:
    after an activity is recorded the user has one entry more than before,
    or 100 when that would be more; below the limit the entry is appended
    and nothing is removed, and the entries of the other users are never
    touched. *)
Theorem recordActivity_keeps_last_100 (a : Activity.t) (w : World)
    (u : string) :
  userCount (Activity.userId a) (activities (recordActivity a w).2)
  = Nat.min (S (userCount (Activity.userId a) (activities w))) 100
  /\ ((userCount (Activity.userId a) (activities w) < 100)%nat ->
      activities (recordActivity a w).2 = activities w ++ [a])
  /\ (u <> Activity.userId a ->
      filter (fun x => ofUser u x = true) (activities (recordActivity a w).2)
      = filter (fun x => ofUser u x = true) (activities w)).
Proof.
  unfold recordActivity, trimHistory. cbn [snd activities].
  change (activities (appendActivity a w)) with (activities w ++ [a]).
  assert (userCount (Activity.userId a) (activities w ++ [a])
          = S (userCount (Activity.userId a) (activities w))) as Hc.
  { rewrite userCount_app. unfold ofUser.
    rewrite bool_decide_eq_true_2 by done. lia. }
  rewrite Hc. unfold historyLimit. split; [|split].
  - rewrite iter_dropOldest_count, Hc. lia.
  - intros Hlt.
    replace (S (userCount (Activity.userId a) (activities w)) - 100)%nat
      with 0%nat by lia. done.
  - intros Hne. rewrite iter_dropOldest_others by done.
    rewrite filter_app, filter_cons, filter_nil.
    rewrite decide_False; [by rewrite app_nil_r|].
    unfold ofUser. rewrite bool_decide_eq_false_2 by congruence. discriminate.
Qed.

End ActivityHistory.

Section PurchaseHistory.
Import PaymentService.

Lemma insertCompleted_perm (r : string * Payment.t)
    (l : list (string * Payment.t)) :
  UserService.insertCompleted r l ≡ₚ r :: l.
Proof.
  induction l as [|y l IH]; cbn; [done|].
  destruct (UserService.dateBelow _ _); [|done].
  rewrite IH. apply Permutation_swap.
Qed.

Lemma sortCompleted_perm (l : list (string * Payment.t)) :
  foldr UserService.insertCompleted [] l ≡ₚ l.
Proof.
  induction l as [|r l IH]; cbn; [done|].
  by rewrite insertCompleted_perm, IH.
Qed.

Lemma elem_of_getPurchaseHistory (uid : string) (w : World)
    (row : UserService.PurchaseRow) :
  row ∈ UserService.getPurchaseHistory uid w
  <-> exists pid p,
        payments w !! pid = Some p
        /\ Payment.userId p = uid
        /\ Payment.status p = Payment.COMPLETED
        /\ row = UserService.toRow (pid, p).
Proof.
  unfold UserService.getPurchaseHistory.
  rewrite list_elem_of_fmap. split.
  - intros ([pid p] & -> & Hin). rewrite sortCompleted_perm in Hin.
    apply list_elem_of_filter in Hin as [Hf Hin].
    apply elem_of_map_to_list in Hin.
    unfold UserService.isPurchaseOf in Hf. cbn in Hf.
    apply andb_true_iff in Hf as [Hu Hs].
    apply bool_decide_eq_true_1 in Hu, Hs. by exists pid, p.
  - intros (pid & p & Hp & Hu & Hs & ->). exists (pid, p). split; [done|].
    rewrite sortCompleted_perm. apply list_elem_of_filter.
    split; [|by apply elem_of_map_to_list].
    unfold UserService.isPurchaseOf. cbn.
    by rewrite !bool_decide_eq_true_2.
Qed.

(** X23.  The purchase history of a user lists exactly the COMPLETED
    payments of that user, dated by the completion (or the creation when no
    completion date is stored); payments of other users and payments that
    are pending, rejected or expired never appear. *)
Theorem purchase_history_lists_completed_payments (uid : string) (w : World)
    (row : UserService.PurchaseRow) :
  row ∈ UserService.getPurchaseHistory uid w
  <-> exists pid p,
        payments w !! pid = Some p
        /\ Payment.userId p = uid
        /\ Payment.status p = Payment.COMPLETED
        /\ UserService.paymentId row = pid
        /\ UserService.productId row = Payment.productId p
        /\ UserService.productName row = Payment.productName p
        /\ UserService.amount row = Payment.amount p
        /\ UserService.method row = Payment.method p
        /\ UserService.date row
           = default (Payment.createdAt p) (Payment.completedAt p).
Proof.
  rewrite elem_of_getPurchaseHistory. split.
  - intros (pid & p & Hp & Hu & Hs & ->). by exists pid, p.
  - intros (pid & p & Hp & Hu & Hs & H1 & H2 & H3 & H4 & H5 & H6).
    exists pid, p. repeat split; try done.
    destruct row. unfold UserService.toRow. cbn in *. congruence.
Qed.

(** X24.  A purchase enters the history when it is approved: after a
    successful approval the history of the buyer holds the payment, with its
    product and amount, dated by the instant of the approval. *)
Theorem approved_purchase_enters_history (pid adm : string)
    (cr : Payment.Credentials) (now : Z) (w : World) (p' : Payment.t) :
  (approvePayment pid adm cr now w).1 = Approved p' cr ->
  {| UserService.paymentId := pid;
     UserService.productId := Payment.productId p';
     UserService.productName := Payment.productName p';
     UserService.amount := Payment.amount p';
     UserService.date := now;
     UserService.method := Payment.method p' |}
  ∈ UserService.getPurchaseHistory (Payment.userId p')
      (approvePayment pid adm cr now w).2.
Proof.
  intros Hok. pose proof Hok as H'.
  apply approve_inversion in H' as (p & pr & H & Hop & Hpr & Hd & Hv & ->).
  apply elem_of_getPurchaseHistory.
  exists pid, (complete p adm cr now).
  rewrite (approve_success pid adm cr now w p pr H Hop Hpr Hd Hv).
  cbn [snd]. rewrite payments_recordActivity, payments_saveProduct.
  unfold savePayment. cbn [payments]. rewrite lookup_insert_eq. done.
Qed.

Lemma approved_purchase_enters_history_witness :
  {| UserService.paymentId := "pay-1";
     UserService.productId := "prod-1";
     UserService.productName := "Conta Valorant";
     UserService.amount := (599 # 10)%Q;
     UserService.date := 80000;
     UserService.method := "PIX" |}
  ∈ UserService.getPurchaseHistory "u1"
      (approvePayment "pay-1" "admin" SaleExamples.credentials 80000
         SaleExamples.pendingWorld).2.
Proof.
  apply (approved_purchase_enters_history "pay-1" "admin"
           SaleExamples.credentials 80000 SaleExamples.pendingWorld
           (complete SaleExamples.created.1 "admin" SaleExamples.credentials
              80000) eq_refl).
Defined.

End PurchaseHistory.

(** * Further properties of the risk engine *)

Module RiskExtra.
Import Fraud.

(** What each factor tag adds to the score. *)
Definition factorWeight (tag : string) : Z :=
  if decide (tag = "very_new_account") then 30
  else if decide (tag = "new_account") then 20
  else if decide (tag = "suspicious_email_domain") then 25
  else if decide (tag = "account_blocked") then 100
  else if decide (tag = "high_failure_rate") then 15
  else if decide (tag = "rapid_purchase_attempts") then 20
  else if decide (tag = "previously_reported") then 40
  else if decide (tag = "no_activity_history") then 15
  else 0.

Definition sumWeights (tags : list string) : Z :=
  foldr (fun tag sum => factorWeight tag + sum) 0 tags.

(** The one contribution to the score that has no tag: an account between 7
    and 30 days old. *)
Definition untaggedAge (profile : User.Profile) (now : Z) : Z :=
  let age := accountAgeMs profile now in
  if age <? 7 * msPerDay then 0
  else if age <? 30 * msPerDay then 10
  else 0.

End RiskExtra.

Module RiskExtraExamples.
Import Fraud RiskExtra.

Definition blockedBob : User.Profile :=
  {| User.username := "bob"; User.createdAt := 0;
     User.email := Some "bob@example.com";
     User.isBlocked := true; User.blockReason := Some "chargeback" |}.

Definition blockedEnv : Env :=
  {| getUserProfile := fun _ => Returns (Some blockedBob);
     getUserHistory := fun _ _ => Returns (Some []);
     getPurchaseHistory := fun _ => Returns [] |}.

(** A blocked account whose address has no at sign. *)
Definition blockedEve : User.Profile :=
  {| User.username := "eve"; User.createdAt := 0; User.email := Some "eve";
     User.isBlocked := true; User.blockReason := Some "chargeback" |}.

Definition blockedEveEnv : Env :=
  {| getUserProfile := fun _ => Returns (Some blockedEve);
     getUserHistory := fun _ _ => Returns (Some []);
     getPurchaseHistory := fun _ => Returns [] |}.

End RiskExtraExamples.

Section RiskFacts.
Import Fraud RiskNotions RiskExtra.

Lemma blocked_score (profile : User.Profile) (h : option (list Action))
    (now s : Z) :
  User.isBlocked profile = true ->
  _calculateRiskScore profile h now = Returns s -> s = 100.
Proof.
  intros Hb. unfold _calculateRiskScore.
  destruct (hasSuspiciousDomain profile) as [b|e]; cbn [bind]; [|done].
  rewrite Hb. intros [= <-]. apply Z.min_r. repeat case_match; lia.
Qed.

Lemma cacheKey_inj (u u' : string) :
  String.append cacheKey u = String.append cacheKey u' -> u = u'.
Proof. unfold cacheKey. cbv [String.append]. by intros [= H]. Qed.

Lemma cacheGet_set (key : string) (a : Assessment) (ttl t0 t : Z)
    (c : gmap string (Assessment * Z)) :
  cacheGet key t (cacheSet key a ttl t0 c)
  = if t <? t0 + ttl * 1000 then Some a else None.
Proof.
  unfold cacheGet, cacheSet.
  by rewrite (lookup_insert_eq c key (a, t0 + ttl * 1000)).
Qed.

Lemma cacheGet_set_other (key key' : string) (a : Assessment) (ttl t0 t : Z)
    (c : gmap string (Assessment * Z)) :
  key <> key' ->
  cacheGet key' t (cacheSet key a ttl t0 c) = cacheGet key' t c.
Proof.
  intros Hne. unfold cacheGet, cacheSet.
  by rewrite (lookup_insert_ne c key key' (a, t0 + ttl * 1000)).
Qed.

Lemma assess_miss_caches (env : Env) (uid : string) (t0 : Z) (c c1 : Cache)
    (a : Assessment) :
  cacheGet (String.append cacheKey uid) t0 c = None ->
  assessUserRisk_try env uid t0 c = Returns (a, c1) ->
  c1 = cacheSet (String.append cacheKey uid) a cacheTTL t0 c.
Proof.
  intros Hmiss. unfold assessUserRisk_try. rewrite Hmiss.
  destruct (getUserProfile env uid) as [[profile|]|]; cbn [bind]; [| |done].
  - destruct (getUserHistory env uid 100) as [h|]; cbn [bind]; [|done].
    destruct (_calculateRiskScore profile h t0) as [s|]; cbn [bind]; [|done].
    destruct (_identifyRiskFactors profile h s t0); cbn [bind]; [|done].
    by intros [= <- <-].
  - by intros [= <- <-].
Qed.

Lemma assess_hit (env : Env) (uid : string) (t : Z) (c : Cache)
    (a : Assessment) :
  cacheGet (String.append cacheKey uid) t c = Some a ->
  assessUserRisk env uid t c = (a, c).
Proof.
  intros Hhit. unfold assessUserRisk, assessUserRisk_try. by rewrite Hhit.
Qed.

End RiskFacts.

Section RiskProperties.
Import Fraud RiskNotions RiskExtra.

(** X25.  A transaction is approved exactly when the user's assessment is
    not high and the combined score stays below the high threshold of 80;
    this covers the answer given after an internal failure, which is an
    approval with score 0. *)
Theorem approval_requires_score_below_80 (env : Env) (tx : Transaction)
    (now : Z) (c : Cache) :
  approved (verifyTransaction env tx now c).1 = true
  <-> risk (assessUserRisk env (userId tx) now c).1 <> high
      /\ v_score (verifyTransaction env tx now c).1 < 80.
Proof.
  unfold verifyTransaction, checkTransaction.
  destruct (assessUserRisk env (userId tx) now c) as [a c1]. cbn [fst].
  unfold checkTransaction_try.
  destruct (decide (risk a = high)) as [Hh|Hh].
  - rewrite bool_decide_eq_true_2 by done. cbn. split; [done|].
    by intros [? _].
  - rewrite bool_decide_eq_false_2 by done.
    destruct (getPurchaseHistory env (userId tx)) as [h|]; cbn [bind].
    + match goal with
      | |- context [bind ?m _] => destruct m as [fi|]
      end; cbn [bind fst approved v_score].
      * unfold threshold_high. rewrite Z.ltb_lt. by split; [|intros [_ ?]].
      * split; [|done]. intros _. split; [done|]. cbn. lia.
    + cbn. split; [|done]. intros _. split; [done|lia].
Qed.

(** X26.  A blocked account is refused, unless its address is malformed.
    Take a blocked profile whose assessment is computed: no cached entry,
    and the profile and history readers return.  When the profile has no
    address, an empty one, or one with a part after an at sign, the score
    is 100, the risk is high, the factors name the block, and the
    transaction is refused with score 100.  When the address has no part
    after an at sign the scoring throws, before the block is counted: the
    assessment is the low-risk default with score 0 and the transaction of
    the blocked account is approved. *)
Theorem blocked_account_refused_unless_address_malformed (env : Env)
    (tx : Transaction) (now : Z) (c : Cache) (profile : User.Profile)
    (h : option (list Action)) :
  cacheGet (String.append cacheKey (userId tx)) now c = None ->
  getUserProfile env (userId tx) = Returns (Some profile) ->
  getUserHistory env (userId tx) 100 = Returns h ->
  User.isBlocked profile = true ->
  (threw (hasSuspiciousDomain profile)
   <-> exists mail,
       truthy (User.email profile) = Some mail
       /\ split "@" mail !! 1%nat = None)
  /\ match hasSuspiciousDomain profile with
     | Returns _ =>
         score (assessUserRisk env (userId tx) now c).1 = 100
         /\ risk (assessUserRisk env (userId tx) now c).1 = high
         /\ "account_blocked"
            ∈ factors (assessUserRisk env (userId tx) now c).1
         /\ approved (verifyTransaction env tx now c).1 = false
         /\ v_score (verifyTransaction env tx now c).1 = 100
     | Throws _ =>
         (assessUserRisk env (userId tx) now c).1 = assessmentError now
         /\ approved (verifyTransaction env tx now c).1 = true
     end.
Proof.
  intros Hmiss Hp Hh Hb. split.
  { unfold hasSuspiciousDomain, emailDomain.
    destruct (truthy (User.email profile)) as [mail|]; cbn [threw].
    - destruct (split "@" mail !! 1%nat) as [d|] eqn:Hd; cbn [bind threw].
      + split; [done|]. intros (m & [= <-] & H). congruence.
      + split; [|done]. intros _. by exists mail.
    - split; [done|]. by intros (m & [=] & _). }
  destruct (hasSuspiciousDomain profile) as [b|e] eqn:Hd.
  - assert (exists fs,
               assessUserRisk env (userId tx) now c
               = ({| risk := high; score := 100; factors := fs;
                     timestamp := now |},
                  cacheSet (String.append cacheKey (userId tx))
                    {| risk := high; score := 100; factors := fs;
                       timestamp := now |} cacheTTL now c)
               /\ "account_blocked" ∈ fs) as (fs & Ha & Hin).
    { unfold assessUserRisk, assessUserRisk_try. rewrite Hmiss, Hp, Hh.
      cbn [bind].
      destruct (_calculateRiskScore profile h now) as [s|e] eqn:Hs.
      - pose proof (blocked_score profile h now s Hb Hs) as ->. cbn [bind].
        unfold _identifyRiskFactors. rewrite Hd, Hb. cbn [bind].
        eexists. split; [reflexivity|].
        rewrite !elem_of_app. right; right; left. by left.
      - unfold _calculateRiskScore in Hs. rewrite Hd in Hs. done. }
    unfold verifyTransaction, checkTransaction. rewrite Ha. cbn [fst].
    repeat split; try done.
  - assert (assessUserRisk env (userId tx) now c = (assessmentError now, c))
      as Ha.
    { unfold assessUserRisk, assessUserRisk_try. rewrite Hmiss, Hp, Hh.
      cbn [bind]. unfold _calculateRiskScore. by rewrite Hd. }
    split; [by rewrite Ha|].
    unfold verifyTransaction, checkTransaction. rewrite Ha.
    destruct (checkTransaction_try env tx now (assessmentError now))
      as [v|e'] eqn:Hv; [|reflexivity].
    cbn [fst]. by apply (check_after_failed_assessment env tx now).
Qed.

Lemma blocked_account_refused_unless_address_malformed_witness :
  approved
    (verifyTransaction RiskExtraExamples.blockedEnv RiskExamples.bobOrder
       RiskExamples.now ∅).1 = false
  /\ approved
       (verifyTransaction RiskExtraExamples.blockedEveEnv
          FailOpenExamples.eveOrder RiskExamples.now ∅).1 = true.
Proof.
  split.
  - pose proof (blocked_account_refused_unless_address_malformed
                  RiskExtraExamples.blockedEnv RiskExamples.bobOrder
                  RiskExamples.now ∅ RiskExtraExamples.blockedBob (Some [])
                  eq_refl eq_refl eq_refl eq_refl) as [_ H].
    assert (hasSuspiciousDomain RiskExtraExamples.blockedBob = Returns false)
      as Hd by reflexivity.
    rewrite Hd in H. exact (proj1 (proj2 (proj2 (proj2 H)))).
  - pose proof (blocked_account_refused_unless_address_malformed
                  RiskExtraExamples.blockedEveEnv FailOpenExamples.eveOrder
                  RiskExamples.now ∅ RiskExtraExamples.blockedEve (Some [])
                  eq_refl eq_refl eq_refl eq_refl) as [_ H].
    assert (hasSuspiciousDomain RiskExtraExamples.blockedEve
            = Throws "TypeError") as Hd by reflexivity.
    rewrite Hd in H. exact (proj2 H).
Defined.

(** X27.  An assessment is served from the cache for one hour.  After an
    assessment that was computed and returned, every assessment of the same
    user during the next 3600 seconds returns that same result without
    calling any reader, so it does not see what changed meanwhile; from then
    on the entry is gone.  The entries of the other users are not touched. *)
Theorem assessment_is_cached_for_an_hour (env env' : Env) (uid uid' : string)
    (t0 t : Z) (c c1 : Cache) (a : Assessment) :
  cacheGet (String.append cacheKey uid) t0 c = None ->
  assessUserRisk_try env uid t0 c = Returns (a, c1) ->
  uid' <> uid ->
  (t < t0 + 3600 * 1000 -> assessUserRisk env' uid t c1 = (a, c1))
  /\ (t0 + 3600 * 1000 <= t ->
      cacheGet (String.append cacheKey uid) t c1 = None)
  /\ cacheGet (String.append cacheKey uid') t c1
     = cacheGet (String.append cacheKey uid') t c.
Proof.
  intros Hmiss Hret Hne.
  pose proof (assess_miss_caches env uid t0 c c1 a Hmiss Hret) as ->.
  split; [|split].
  - intros Ht. apply assess_hit. rewrite cacheGet_set. unfold cacheTTL.
    by rewrite (proj2 (Z.ltb_lt _ _)).
  - intros Ht. rewrite cacheGet_set. unfold cacheTTL.
    by rewrite (proj2 (Z.ltb_ge _ _)).
  - apply cacheGet_set_other. intros Heq. by apply cacheKey_inj in Heq.
Qed.

Lemma assessment_is_cached_for_an_hour_witness :
  assessUserRisk RiskExamples.brokenEnv "bob" (RiskExamples.now + 3599999)
    (assessUserRisk RiskExamples.bobEnv "bob" RiskExamples.now ∅).2
  = ((assessUserRisk RiskExamples.bobEnv "bob" RiskExamples.now ∅).1,
     (assessUserRisk RiskExamples.bobEnv "bob" RiskExamples.now ∅).2).
Proof.
  pose proof (assessment_is_cached_for_an_hour RiskExamples.bobEnv
                RiskExamples.brokenEnv "bob" "eve" RiskExamples.now
                (RiskExamples.now + 3599999) ∅
                (assessUserRisk RiskExamples.bobEnv "bob" RiskExamples.now ∅).2
                (assessUserRisk RiskExamples.bobEnv "bob" RiskExamples.now ∅).1
                eq_refl eq_refl ltac:(discriminate)) as [H _].
  apply H. lia.
Defined.

End RiskProperties.

Section ScoreAndFactors.
Import Fraud RiskNotions RiskExtra.

Lemma factorWeight_nonneg (tag : string) : 0 <= factorWeight tag.
Proof. unfold factorWeight. repeat case_decide; lia. Qed.

Lemma sumWeights_app (l1 l2 : list string) :
  sumWeights (l1 ++ l2) = sumWeights l1 + sumWeights l2.
Proof.
  unfold sumWeights. induction l1 as [|t l1 IH]; cbn; [done|].
  rewrite IH. lia.
Qed.

Lemma sumWeights_nonneg (l : list string) : 0 <= sumWeights l.
Proof.
  unfold sumWeights. induction l as [|t l IH]; cbn; [done|].
  pose proof (factorWeight_nonneg t). lia.
Qed.

Lemma blocked_weights (a b d : list string) (reason : string) :
  100 <= sumWeights (a ++ b ++ "account_blocked" :: reason :: d).
Proof.
  change ("account_blocked" :: reason :: d)
    with (["account_blocked"; reason] ++ d).
  rewrite !sumWeights_app.
  pose proof (sumWeights_nonneg a). pose proof (sumWeights_nonneg b).
  pose proof (sumWeights_nonneg d).
  pose proof (factorWeight_nonneg reason).
  unfold sumWeights at 3. cbn [foldr].
  change (factorWeight "account_blocked") with 100. lia.
Qed.

Lemma untaggedAge_nonneg (profile : User.Profile) (now : Z) :
  0 <= untaggedAge profile now.
Proof. unfold untaggedAge. repeat case_match; lia. Qed.

(** X28.  The factor tags explain the score.  The score of a user is the
    sum of the weights of the factors reported with it (30 and 20 for the
    two ages of a new account, 25 for a suspicious address, 100 for a
    blocked account, 15, 20 and 40 for the three findings in the history, 15
    for an empty history), plus 10 for an account between 7 and 30 days old,
    which is counted without a tag, capped at 100. *)
Theorem score_is_explained_by_factors (profile : User.Profile)
    (h : option (list Action)) (now s : Z) (fs : list string) :
  _calculateRiskScore profile h now = Returns s ->
  _identifyRiskFactors profile h s now = Returns fs ->
  s = Z.min (sumWeights fs + untaggedAge profile now) 100.
Proof.
  intros Hs Hf.
  destruct (User.isBlocked profile) eqn:Hb.
  - rewrite (blocked_score profile h now s Hb Hs).
    unfold _identifyRiskFactors in Hf.
    destruct (hasSuspiciousDomain profile) as [b|]; cbn [bind] in Hf; [|done].
    rewrite Hb in Hf. cbv zeta in Hf. injection Hf as <-.
    match goal with
    | |- context [sumWeights (?a ++ ?b ++ _ :: _ :: ?d)] =>
        pose proof (blocked_weights a b d
                      (default "unknown_block_reason"
                         (truthy (User.blockReason profile))))
    end.
    pose proof (untaggedAge_nonneg profile now). lia.
  - revert Hs Hf. unfold _calculateRiskScore, _identifyRiskFactors, untaggedAge.
    destruct (hasSuspiciousDomain profile) as [b|]; cbn [bind]; [|done].
    rewrite Hb. intros [= <-] [= <-].
    destruct (Z.ltb_spec (accountAgeMs profile now) (1 * msPerDay));
      destruct (Z.ltb_spec (accountAgeMs profile now) (7 * msPerDay));
      destruct (Z.ltb_spec (accountAgeMs profile now) (30 * msPerDay));
      try (unfold msPerDay in *; lia);
      destruct b; destruct (noHistory h);
      try (destruct (highFailureRate (default [] h)));
      try (destruct (wasReported (default [] h)));
      try (destruct (rapidAttempts now (default [] h)));
      vm_compute; reflexivity.
Qed.

Lemma score_is_explained_by_factors_witness :
  75 = Z.min
         (sumWeights
            ["very_new_account"; "suspicious_email_domain";
             "rapid_purchase_attempts"]
          + untaggedAge RiskExamples.bob RiskExamples.now) 100.
Proof.
  apply (score_is_explained_by_factors RiskExamples.bob
           (Some RiskExamples.bobHistory) RiskExamples.now 75); reflexivity.
Defined.

End ScoreAndFactors.
